(* ===== verification/_CoqProject ===== *)
-Q . S2P
Prelude.v
Js.v
Browser.v
React.v
Banner.v
Lifecycle.v
Contract.v
Strict.v
Twice.v
Host.v
Site.v
Stutter.v
Composite.v
Document.v
Address.v
Homepage.v
Tree.v
Markup.v
