(* ===== verification/Prelude.v ===== *)
(** * Verification of the Shopify consent-banner loader

    The repository is a Hydrogen storefront with one component,
    [ShopifyCookieBanner] (src/app/components/ShopifyCookieBanner.tsx), and a
    static index route, [Homepage] (src/app/routes/_index.tsx).  The component
    renders Hydrogen's [<Script>] for the privacy-banner script and, in an
    effect that depends on its props object, calls
    [window.privacyBanner.loadBanner(props)] the first time the effect runs
    while the global is present, recording that in a ref ([loaded]).

    ** Files

    - [Prelude] (this file): ECMAScript completions ([Normal]/[Throw]), the
      state-and-exception monad [st] in which effectful code is written, the
      judgement notation [s ⊢ m ⇓ r ⊣ s'], lemmas on runs of a transition
      function over a list of events, the [banner] hint database and the
      tactics of the development.
    - [Js]: the fragment of JavaScript the sources use: values, [ToBoolean],
      [Object.is], objects with an identity, thrown values, how a global
      identifier resolves ([Undeclared], nullish or defined), and the
      operators of the effect as combinators of the monad: [!] ([js_not]),
      the short-circuit [||] ([js_or]), the early return ([return_if]),
      optional member access and the optional call ([opt_member],
      [opt_call]); the export declarations of a module ([export]).
    - [Browser]: the types the component declares ([PrivacyConsentBannerProps],
      the [privacyBanner] field of [Window]) and the state of the page the
      component acts on ([World]: the global [window], the heap of ref
      objects, the log of [loadBanner] invocations) with its primitive
      operations.
    - [React]: the hook runtime the component is written against: a fiber is
      a list of hook cells, [useRef] and [useEffect] under the mount and the
      update dispatcher, dependency comparison by [Object.is], the render of a
      component and the commit of its effects; and the host of one instance:
      the events [Mount], [Rerender], [Unmount] and [Environment], as a
      transition function [step] and as an inductive relation [lifecycle]
      proved equal to it.  The class [StaticHooks] states the rules of hooks
      a component promises to the runtime; what the runtime owes such a
      component in return (the fiber keeps its shape, no render fails on a
      hook, the ref objects are the same at every render, a component
      without effects is a function of its props) is proved once against
      the class, and used for the banner and for the route through their
      instances.
    - [Banner]: the component itself, line by line: its imports
      ([banner_imports]), its export ([banner_exports]), the guard
      ([banner_should_return]), the call ([banner_load]), the flag
      ([banner_mark_loaded]), the effect ([banner_effect]), the dependency
      array ([banner_deps]), the rendered [<Script>] element and the
      function component [ShopifyCookieBanner]; a decision table and an
      inductive view of one run of the effect, proved equal to it.
    - [Lifecycle]: one instance of the banner driven by the host: the
      invariant [page_ok], the potential [budget] that bounds the
      invocations, and the behaviour of runs over lists of events.
    - [Contract]: the two-state loader of the specification
      (not-initialized / initialized) as an abstract machine [loader_step],
      the abstraction of a page to it, and the refinement of [Lifecycle] to
      it ([seen_as] reads a re-render as a check only when the props object
      changed; [tame] is a browser whose [window] is bound and whose
      initializers return).
    - [Strict]: the second pass of the effects that StrictMode makes after
      a mount ([replay], [strict_step]), and that the banner cannot tell it
      from a plain mount.
    - [Twice]: the double render of a development build ([dev_step]: the
      component function called twice at every render, the first result
      dropped), the pages that differ in the objects of their heaps only
      ([similar]) and what the host observes of a page ([observe]).
    - [Host]: the interface between the host of one banner and the page
      around it, as the class [BannerHost] of six laws (the page stays
      well formed, an invocation is paid by the budget of the instance, a
      step writes to the ref of its instance only, the ref after a step is
      the old one or a new one, the global is left to the environment,
      a step is a step of the loader of the specification), with the host
      of [React], the host of [Strict] and the host of [Twice] as
      instances ([Stutter] adds the host that bails out).  The laws are
      proved from the effect; [every_build P] is [P] of the three hosts
      the component runs under (production, StrictMode, development), and
      the theorems on hosts and on sites are stated in that form.
    - [Site]: several instances of the banner on one page ([site_step]
      delivers an event to the instance at an index, through a host that
      is a parameter; the instances share [window], the heap and the
      log), the invariant [site_ok] and the separation of the instances'
      flags, proved as lemmas for every [BannerHost] and stated as
      theorems for the three builds, on the pages the host reaches from
      [site_initial]; the script elements of the page.
    - [Stutter]: pages up to the cell of their effect (its flag and the
      function it keeps, which no step reads), an equivalence the host, the
      observations and the abstraction respect ([Proper] instances), under
      which a re-render with the props object of the last render is no step
      at all; [compress] leaves such events out of a run, and the host
      with React's bail-out ([bailout_step]), which does not deliver
      them, is one more [BannerHost].
    - [Composite]: the family of loaders a page with several banners
      stands for ([loaders_step]), the refinement of [Site] to it, and the
      commutation of events of different instances, in the three builds.
    - [Document]: the document around one instance: what Hydrogen's
      [<Script>] renders ([hydrogen_Script], [expand]), the attributes
      React writes and the mode in which a browser runs the element
      ([script_mode_of]), and the life of the script request ([Doc],
      [doc_step]): a mount asks for the script, the request is answered
      later by an execution that defines [window.privacyBanner]
      ([DExecutes]), by a failure ([DFails]) or never; a page from the server
      ([served_doc]) has the request made before the component is hydrated
      ([DHydrate]).  The invariant [doc_ok] and the modality [eventually].
    - [Address]: addresses as a browser reads and writes them: split at
      [?], [&] and [=] ([parse_query], [navigate]), printed back
      ([print_url]), and the addresses for which the two are inverse
      ([url_wf]).  It carries lemmas only: the sources print and read
      no address.
    - [Homepage]: the index route as a tree of elements, its text and its
      link.
    - [Tree]: how a tree of elements becomes host elements: the components
      a page is made of as a registry ([storefront]: [Homepage],
      [ShopifyCookieBanner] behind a check of the four fields of its props,
      Hydrogen's [Script]), each rendered as on the server ([server_view]:
      [window] undeclared, no effect run), and React's procedure
      [render_tree], which calls the component of every component element
      until none is left.
    - [Markup]: the text the server sends for a tree of host elements
      ([to_html]): escaping ([escape]) and its inverse ([unescape]),
      [style] objects as attributes with hyphenated names ([css_name]), the
      empty comment between two texts.

    ** How the model corresponds to the code

    Each definition of [Banner] and [Homepage] translates the lines of the
    source named in the manifest.  JavaScript's mutable state is explicit:
    [loaded.current] lives in [heap] under the location [useRef] allocated at
    mount, so closures of different renders alias the same cell; the props
    object is a pair of an identity and its fields, and the dependency array
    compares identities.  An exception is a value ([Throw e]) that leaves the
    state changes made before it in place.  The third-party [loadBanner] is a
    field of the global whose result is [Normal] or [Throw]; its effect on
    the page is recorded as an entry of the log [calls].

    The hook runtime, the JavaScript fragment, the host's events, Hydrogen's
    [<Script>] and the life of a script request are not code of this
    repository (they are React, the language, the browser and Hydrogen);
    they are modelled from their documented behaviour and marked as such in
    the manifest.  Assumptions: an exception thrown by an effect unmounts the
    instance; [loadBanner] does not itself change [window] or the ref heap;
    the script, once run, defines [window.privacyBanner] and nothing else
    the component reads; hydration adopts the script element the server
    sent and does not request it again.

    ** What is proved

    The theorems of the manifest, by group; what else the files prove is
    stated as lemmas the theorems use or that describe the model.

    - the effect, branch by branch (absent global, already loaded, call
      returns, call throws, undeclared [window]);
    - one instance under the host: the invariant [page_ok] on every page
      reached; at most one invocation per mount over every sequence of
      events, counting the mounts the host asked for and, more
      tightly, those that took place ([mounted_times]); a flag that is set ends the invocations of the instance; with
      the initializer out of reach nothing is invoked and no flag is set
      (so a later arrival is not lost); a re-render with the props object
      of the last render never re-checks; the initializer present at
      mount, arriving later, a remount, a mount whose call throws; every
      invocation is made with the props object of a render, in the order
      of the renders; one ref object per mount;
    - refinement to the two-state loader of the specification, in each
      of the three builds, and the one event at which the component
      departs from the loader when every re-render is read as a check,
      as the text of the contract has it ([missed_check]);
    - the development build cannot be observed on the banner: the double
      render and the second pass of the effects show the same element,
      exceptions, invocations, flag and props ([similar], [observe]);
    - events that change nothing can be left out of a run ([compress]);
    - several instances on a page, in each of the three builds and on every
      page the host reaches: the invariant [site_ok] (no two instances
      share their ref), the invocations bounded by the mounts of all
      instances together, an instance untouched by whatever happens to
      the others, one script element per mounted instance, the
      refinement to a family of loaders, and the commutation of events of
      different instances up to the order of the calls;
    - in the document: a mount requests the script at the fixed address
      exactly once and nothing else requests it; the element on every page
      reached is a script that holds up the parser ([async={false}] writes
      no attribute); a script that never runs leaves the component silent;
    - liveness: a mounted instance that waits for the script does call once
      the script has run and the host re-renders it with a new props object,
      whatever re-renders came before ([eventually], an inductive modality
      over the events still to come; the schedule is a hypothesis, the
      component has no timer and no retry of its own);
    - termination: rendering a tree over the components of the storefront
      ends, whatever the tree, because no component returns an element that
      leads back to itself ([ranked]); a registry in which one does
      ([looping]) has no result at any fuel;
    - typing: a tree whose banner elements carry the four strings of
      [PrivacyConsentBannerProps] renders on the server to host elements
      without an exception, although [window] is not declared there (the
      body of the component does not touch it, only the effect does).

    Lemmas that carry no theorem of the manifest describe the route (its
    text, the target of its link under the browser's resolution of a
    path-absolute href, what appending the documented parameter to an
    address does, that the route alone renders no banner), the markup of
    the page as served, and the reading of the contract under which every
    re-render checks ([naive_refinement]): they are computations on the
    constants of the route or corollaries of the theorems, and are kept
    for the findings they document.

    ** Fuel

    The runs of the host are folds over the list of events and need no
    fuel.  Two definitions recurse on something other than the structure of
    their argument and take fuel.  [render_tree] recurses on the element a
    component returns: [enough rk D n = depth n + D * level rk n] is
    sufficient when every component of rank [k] returns a tree no deeper
    than [D] whose components have ranks below [k] ([level] is the highest
    rank in a tree plus one); for the storefront [D] is the depth of the
    route's view (4) and the ranks are 0 ([Script], [Homepage]) and 1
    ([ShopifyCookieBanner]), and the page of this repository renders with
    fuel 6.  Results do not depend on the fuel once
    there is one ([render_tree_more_fuel]).  [unescape_f] recurses on the
    rest of the string after an entity; the length of the string plus one
    is sufficient ([unescape_total]) and is what [unescape] passes.  The
    sources have no loop and no arithmetic, so there are no bounds on
    machine integers to state.  Strings are not decoded: the query of an
    address is split at [?], [&] and [=] only, and [url_wf] excludes the
    addresses in which a name or a value contains one of them.

    ** Not modelled

    Every line of code of the two files under src/ is translated, the
    import and export declarations included; the doc comment of the
    component (lines 19 to 25) and the comment inside its return have no
    behaviour and are left out.  What is modelled in part is code outside
    the repository, as far as the two files exercise it, and is marked as
    modelled from the specification in the manifest; that holds for the
    operators of the language too ([js_or], [opt_call] and the like),
    which are the semantics of JavaScript and not code of the repository.
    The heap holds ref objects only, so a bound on allocations is a bound
    on ref objects; a render and the commit of its effects are one step
    of the host; a [privacyBanner] that is there has a callable
    [loadBanner], as its declaration says.  Left out: the DOM beyond the script
    elements of an instance and the network beyond the fate of a request
    (answered by an execution, failed, or open); the body of the
    third-party script and what [loadBanner] shows; Hydrogen's [<Script>]
    with [waitForHydration], which the sources do not use; React's
    scheduler and concurrent rendering, the double render as React 19
    makes it (it keeps the hooks of the first
    call: [Twice] is React 18), effect cleanups (the effect returns none);
    the static types beyond the shape of the props (the declaration of
    [Window] says [privacyBanner] is always there; the model follows the
    browser, where it is absent until the script has run); the router,
    the entry files of the server and of the client, the build and the
    style sheets, of which the repository has no source under src/ (of
    the framework's part only the render of the two components on the
    server and its markup are modelled, in [Tree] and [Markup]);
    streaming and Suspense in the server renderer; attributes other than
    those the two components write. *)

From stdpp Require Export base tactics option list gmap strings relations.

(** ** Completions

    The result of evaluating a JavaScript statement: it completes normally
    with a value or abruptly with a thrown one. *)

Inductive completion (E A : Type) : Type :=
  | Normal (a : A)
  | Throw (e : E).
Arguments Normal {E A} a.
Arguments Throw {E A} e.

Definition is_normal {E A} (c : completion E A) : bool :=
  match c with Normal _ => true | Throw _ => false end.

#[export] Instance completion_eq_dec `{EqDecision E, EqDecision A} :
  EqDecision (completion E A).
Proof. solve_decision. Defined.

(** ** The state-and-exception monad

    A computation reads and writes a state [S] and may throw an [E].  The
    state a throwing computation leaves behind is kept: JavaScript does not
    roll anything back. *)

Definition st (S E A : Type) : Type := S → completion E A * S.

Section st.
Context {S E : Type}.

#[export] Instance st_ret : MRet (st S E) := λ A a s, (Normal a, s).

#[export] Instance st_bind : MBind (st S E) := λ A B f m s,
  match m s with
  | (Normal a, s') => f a s'
  | (Throw e, s') => (Throw e, s')
  end.

#[export] Instance st_fmap : FMap (st S E) := λ A B f m s,
  match m s with
  | (Normal a, s') => (Normal (f a), s')
  | (Throw e, s') => (Throw e, s')
  end.

#[export] Instance st_throw : MThrow E (st S E) := λ A e s, (Throw e, s).

Definition st_get : st S E S := λ s, (Normal s, s).

Definition st_gets {A} (f : S → A) : st S E A := λ s, (Normal (f s), s).

Definition st_modify (f : S → S) : st S E unit := λ s, (Normal tt, f s).

(** Lift a completion that does not touch the state. *)
Definition st_lift {A} (c : completion E A) : st S E A := λ s, (c, s).

(** Run the computations of a list in order, stopping at the first throw. *)
Fixpoint st_seq (ms : list (st S E unit)) : st S E unit :=
  match ms with
  | [] => mret tt
  | m :: ms => m;; st_seq ms
  end.

End st.

Declare Scope eff_scope.
Delimit Scope eff_scope with eff.

(** [s ⊢ m ⇓ r ⊣ s']: from state [s], [m] completes with [r] in state [s']. *)
Notation "s ⊢ m ⇓ r ⊣ s'" := (m s = (r, s'))
  (at level 70, m at level 69, r at level 69, s' at level 69,
   format "s  ⊢  m  ⇓  r  ⊣  s'") : eff_scope.

#[global] Open Scope eff_scope.

(** ** Tactics *)

(** Unfold the monad's operations in the goal and in the hypotheses. *)
Ltac st_unfold :=
  unfold mbind, mret, fmap, mthrow, st_bind, st_ret, st_fmap, st_throw,
    st_get, st_gets, st_modify, st_lift in *.

(** Case analysis on the scrutinee of every [match] and [if] in sight. *)
Ltac break_match := repeat (case_match; simplify_eq/=; try done).

(** Evaluate a computation written with the monad, then split on what
    remains. *)
Ltac st_simpl := st_unfold; simpl in *; break_match.

Create HintDb banner discriminated.
Create Rewrite HintDb banner.

(** ** Laws of the monad, pointwise *)

Section st_laws.
Context {S E : Type}.
Implicit Types s : S.

Lemma st_bind_ret_l {A B} (a : A) (f : A → st S E B) s :
  (mret a ≫= f) s = f a s.
Proof. done. Qed.

Lemma st_bind_ret_r {A} (m : st S E A) s : (m ≫= mret) s = m s.
Proof. st_unfold. by destruct (m s) as [[]]. Qed.

Lemma st_bind_assoc {A B C} (m : st S E A) (f : A → st S E B)
    (g : B → st S E C) s :
  ((m ≫= f) ≫= g) s = (m ≫= λ a, f a ≫= g) s.
Proof. st_unfold. by destruct (m s) as [[]]. Qed.

Lemma st_bind_throw {A B} (e : E) (f : A → st S E B) s :
  (mthrow e ≫= f) s = (Throw e, s).
Proof. done. Qed.

Lemma st_bind_normal {A B} (m : st S E A) (f : A → st S E B) s a s' :
  s ⊢ m ⇓ Normal a ⊣ s' → (m ≫= f) s = f a s'.
Proof. st_unfold. by intros ->. Qed.

Lemma st_bind_abrupt {A B} (m : st S E A) (f : A → st S E B) s e s' :
  s ⊢ m ⇓ Throw e ⊣ s' → s ⊢ m ≫= f ⇓ Throw e ⊣ s'.
Proof. st_unfold. by intros ->. Qed.

(** A bind completes normally exactly when both halves do. *)
Lemma st_bind_normal_inv {A B} (m : st S E A) (f : A → st S E B) s b s2 :
  s ⊢ m ≫= f ⇓ Normal b ⊣ s2 →
  ∃ a s1, s ⊢ m ⇓ Normal a ⊣ s1 ∧ s1 ⊢ f a ⇓ Normal b ⊣ s2.
Proof. st_unfold. destruct (m s) as [[a|e] s1]; naive_solver. Qed.

Lemma st_seq_app (ms1 ms2 : list (st S E unit)) s :
  st_seq (ms1 ++ ms2) s = (st_seq ms1;; st_seq ms2) s.
Proof.
  revert s. induction ms1 as [|m ms1 IH]; intros s; simpl.
  - st_unfold. by destruct (st_seq ms2 s) as [[[]|]].
  - st_unfold. destruct (m s) as [[[]|] s1]; [apply IH|done].
Qed.

End st_laws.

#[export] Hint Rewrite @st_bind_ret_l @st_bind_ret_r @st_bind_assoc
  @st_bind_throw : banner.

(** ** Runs of a transition function

    A machine is a total function [step : S → L → S]; a run is [foldl step]
    over the list of events.  These lemmas carry invariants and bounds from
    one step to every run. *)

Section runs.
Context {S L : Type} (step : S → L → S).
Implicit Types (s : S) (es : list L).

Lemma run_snoc s es e : foldl step s (es ++ [e]) = step (foldl step s es) e.
Proof. by rewrite foldl_app. Qed.

(** A predicate every step preserves holds at the end of every run. *)
Lemma run_invariant (P : S → Prop) :
  (∀ s e, P s → P (step s e)) → ∀ es s, P s → P (foldl step s es).
Proof. intros Hstep es. induction es; simpl; auto. Qed.

(** The same when only the events of a class [Q] occur. *)
Lemma run_invariant_where (Q : L → Prop) (P : S → Prop) :
  (∀ s e, Q e → P s → P (step s e)) →
  ∀ es s, Forall Q es → P s → P (foldl step s es).
Proof.
  intros Hstep es. induction es as [|e es IH]; intros s Hes Hs; simpl; [done|].
  inversion_clear Hes. auto.
Qed.

(** A preorder every step respects, on the states of an invariant,
    relates the two ends of every run. *)
Lemma run_preorder (I : S → Prop) {R : relation S} `{!PreOrder R} :
  (∀ s e, I s → I (step s e)) →
  (∀ s e, I s → R s (step s e)) →
  ∀ es s, I s → R s (foldl step s es).
Proof.
  intros HI Hstep es. induction es as [|e es IH]; intros s Hs; simpl; [done|].
  etrans; [by apply Hstep|apply IH; by apply HI].
Qed.

(** If, on the states of an invariant, a step under event [e] raises the
    measure [μ] by at most [cost e], then a run raises it by at most the sum
    of the costs. *)
Lemma run_bounded (I : S → Prop) (μ : S → nat) (cost : L → nat) :
  (∀ s e, I s → I (step s e)) →
  (∀ s e, I s → μ (step s e) ≤ μ s + cost e) →
  ∀ es s, I s → μ (foldl step s es) ≤ μ s + sum_list (cost <$> es).
Proof.
  intros HI Hstep es. induction es as [|e es IH]; intros s Hs; csimpl; [lia|].
  specialize (IH (step s e) (HI _ _ Hs)). specialize (Hstep s e Hs). lia.
Qed.

(** Events that leave the state alone can be dropped from a run. *)
Lemma run_filter (keep : L → bool) :
  (∀ s e, keep e = false → step s e = s) →
  ∀ es s, foldl step s (filter (λ e, keep e = true) es) = foldl step s es.
Proof.
  intros Hskip es. induction es as [|e es IH]; intros s; [done|].
  destruct (keep e) eqn:He.
  - rewrite filter_cons_True by done. apply IH.
  - rewrite filter_cons_False by congruence. simpl. by rewrite Hskip.
Qed.

(** A machine with a log [out] to which, on the states of an invariant, a
    step under event [e] appends some of [may e], in order: a run appends
    some of what its events may, in their order. *)
Lemma run_emits {B} (I : S → Prop) (out : S → list B) (may : L → list B) :
  (∀ s e, I s → I (step s e)) →
  (∀ s e, I s → ∃ new, out (step s e) = out s ++ new ∧ new `sublist_of` may e) →
  ∀ es s, I s →
    ∃ new, out (foldl step s es) = out s ++ new ∧ new `sublist_of` es ≫= may.
Proof.
  intros HI Hstep es. induction es as [|e es IH]; intros s Hs; csimpl.
  - exists []. by rewrite app_nil_r.
  - destruct (Hstep s e Hs) as (new1 & Hnew1 & Hsub1).
    destruct (IH (step s e) (HI _ _ Hs)) as (new2 & Hnew2 & Hsub2).
    exists (new1 ++ new2). rewrite Hnew2, Hnew1, (assoc_L (++)).
    split; [done|by apply sublist_app].
Qed.

End runs.

(** ** Lists *)

(** Replacing one element of a list commutes with a map, also when the
    function changes, as long as it agrees on the other elements. *)
Lemma fmap_insert_agree {A B} (f g : A → B) (l : list A) i x :
  (∀ j z, j ≠ i → l !! j = Some z → g z = f z) →
  g <$> <[i := x]> l = <[i := g x]> (f <$> l).
Proof.
  revert i. induction l as [|a l IH]; intros [|i] Hfg; csimpl; [done..| |].
  - f_equal. apply list_fmap_ext. intros j z Hz. by apply (Hfg (S j)).
  - rewrite (Hfg 0 a) by done. f_equal. apply IH.
    intros j z Hj Hz. apply (Hfg (S j)); [lia|done].
Qed.

(** Counting with an indicator is the length of a filter. *)
Lemma sum_list_indicator {A} (f : A → bool) (l : list A) :
  sum_list ((λ x, if f x then 1 else 0) <$> l) =
  length (filter (λ x, f x = true) l).
Proof.
  induction l as [|x l IH]; [done|]. csimpl. destruct (f x) eqn:Hx.
  - rewrite filter_cons_True by done. simpl. by rewrite IH.
  - rewrite filter_cons_False by congruence. by rewrite IH.
Qed.

(** Replacing one element of a list changes a sum by that element, also
    when the summand changes, as long as it agrees on the others. *)
Lemma sum_list_update {A} (f g : A → nat) (l : list A) i x y :
  l !! i = Some x →
  (∀ j z, j ≠ i → l !! j = Some z → g z = f z) →
  sum_list (g <$> <[i := y]> l) + f x = sum_list (f <$> l) + g y.
Proof.
  revert i. induction l as [|a l IH]; intros [|i] Hi Hfg; simplify_eq/=.
  - rewrite (list_fmap_ext g f l); [lia|].
    intros j z Hz. by apply (Hfg (S j)).
  - rewrite (Hfg 0 a) by done.
    assert (∀ j z, j ≠ i → l !! j = Some z → g z = f z) as Hl.
    { intros j z Hj Hz. apply (Hfg (S j)); [lia|done]. }
    specialize (IH i Hi Hl). lia.
Qed.

(** Copies of an element whose image is one element. *)
Lemma replicate_bind_singleton {A B} (f : A → list B) x y n :
  f x = [y] → replicate n x ≫= f = replicate n y.
Proof.
  intros Hf. induction n as [|n IH]; [done|].
  cbn [replicate]. by rewrite bind_cons, Hf, IH.
Qed.

(** The greatest value of a measure over a list bounds the measure of every
    element, and is bounded by what bounds them all. *)
Lemma max_list_with_le {A} (f : A → nat) (l : list A) x :
  x ∈ l → f x ≤ max_list_with f l.
Proof.
  induction 1 as [x l|x y l _ IH]; simpl; [lia|]. etrans; [apply IH|lia].
Qed.

Lemma max_list_with_bound {A} (f : A → nat) (l : list A) b :
  Forall (λ x, f x ≤ b) l → max_list_with f l ≤ b.
Proof. induction 1 as [|x l Hx _ IH]; simpl; lia. Qed.

Lemma max_list_with_Forall2 {A B} (f : A → nat) (g : B → nat) l k b :
  Forall2 (λ x y, g y ≤ f x + b) l k →
  max_list_with g k ≤ max_list_with f l + b.
Proof. induction 1 as [|x y l k Hxy _ IH]; simpl; lia. Qed.

(** A boolean test of every element, as a [Forall]. *)
Lemma forallb_Forall {A} (f : A → bool) (l : list A) :
  forallb f l = true ↔ Forall (λ x, f x = true) l.
Proof.
  induction l as [|x l IH]; simpl; [done|].
  rewrite andb_true_iff, Forall_cons, IH. tauto.
Qed.

(** A filter that every element passes keeps the list. *)
Lemma filter_all {A} (P : A → Prop) `{!∀ x, Decision (P x)} (l : list A) :
  Forall P l → filter P l = l.
Proof.
  induction 1 as [|x l Hx _ IH]; [done|]. by rewrite filter_cons_True, IH.
Qed.

(** A list of events none of which is counted. *)
Lemma length_filter_none {A} (f : A → bool) (l : list A) :
  Forall (λ x, f x = false) l → length (filter (λ x, f x = true) l) = 0.
Proof.
  induction 1 as [|x l Hx _ IH]; [done|].
  by rewrite filter_cons_False by congruence.
Qed.

Lemma prefix_snoc {A} (l : list A) x : l `prefix_of` l ++ [x].
Proof. by apply prefix_app_r. Qed.

#[export] Hint Resolve prefix_snoc : banner.
