(* ===== verification/Js.v ===== *)
(** * Js: the fragment of JavaScript the sources use

    Values with [ToBoolean] and [Object.is], objects with an identity,
    thrown values, resolution of a global identifier, optional chaining,
    negation, the short-circuit [||] and the early return.
    Numbers, symbols and functions as first-class values are left out: the
    sources never store one where the model looks. *)

From S2P Require Import Prelude.

(** ** Values *)

(** The identity of an object on the JavaScript heap. *)
Abbreviation loc := positive.

Inductive val : Type :=
  | VUndefined
  | VNull
  | VBool (b : bool)
  | VString (s : string)
  | VObj (l : loc).

#[export] Instance val_eq_dec : EqDecision val.
Proof. solve_decision. Defined.

#[export] Instance val_inhabited : Inhabited val := populate VUndefined.

(** [ToBoolean]: what [!v], [v || w] and [if (v)] test. *)
Definition to_boolean (v : val) : bool :=
  match v with
  | VUndefined | VNull => false
  | VBool b => b
  | VString s => bool_decide (s ≠ EmptyString)
  | VObj _ => true
  end.

(** [Object.is] on this fragment: without numbers there is neither [NaN]
    nor a signed zero, and it is equality of primitives and identity of
    objects. *)
Definition object_is (a b : val) : bool := bool_decide (a = b).

(** A value is nullish when [?.] and [??] treat it as absent. *)
Definition nullish (v : val) : bool :=
  match v with VUndefined | VNull => true | _ => false end.

(** ** Objects

    An object of the sources is its identity and its fields.  The objects
    carried this way are never written to after their creation (React
    freezes props), so two references with one identity agree on the
    fields. *)

Record object (A : Type) : Type := Obj { identity : loc; fields : A }.
Arguments Obj {A} identity fields.
Arguments identity {A} o.
Arguments fields {A} o.

#[export] Instance object_eq_dec `{EqDecision A} : EqDecision (object A).
Proof. solve_decision. Defined.

(** The reference to an object, as a value. *)
Definition ref_of {A} (o : object A) : val := VObj (identity o).

(** ** Exceptions *)

Inductive exn : Type :=
  | ReferenceError (name : string)
  | TypeError (msg : string)
  | Invariant (msg : string)
  | Thrown (v : val).

#[export] Instance exn_eq_dec : EqDecision exn.
Proof. solve_decision. Defined.

(** ** Global identifiers

    A global identifier is unresolvable ([Undeclared]: evaluating it throws
    a [ReferenceError], also under [?.]), bound to a nullish value, or bound
    to an object. *)

Inductive global (A : Type) : Type :=
  | Undeclared
  | Nullish
  | Defined (a : A).
Arguments Undeclared {A}.
Arguments Nullish {A}.
Arguments Defined {A} a.

(** Evaluate the identifier [name]: [None] is a nullish value. *)
Definition resolve {A} (name : string) (g : global A) :
    completion exn (option A) :=
  match g with
  | Undeclared => Throw (ReferenceError name)
  | Nullish => Normal None
  | Defined a => Normal (Some a)
  end.

(** [o?.p]: [undefined] when [o] is nullish, the member otherwise. *)
Definition opt_member {A B} (o : option A) (p : A → option B) : option B :=
  match o with
  | None => None
  | Some a => p a
  end.

(** An object reference or [undefined], as a condition. *)
Definition truthy {A} (o : option A) : bool :=
  match o with Some _ => true | None => false end.

(** [!o] for an object reference or [undefined]. *)
Definition js_not {A} (o : option A) : bool := negb (truthy o).

(** [a || b] as a condition: [b] is evaluated only when [a] is false. *)
Definition js_or {S E} (a : bool) (b : st S E bool) : st S E bool :=
  if a then mret true else b.

(** [o?.f(args)]: no call, and [undefined], when [o] is nullish. *)
Definition opt_call {S E A} (o : option A) (call : A → st S E unit) :
    st S E unit :=
  match o with
  | Some a => call a
  | None => mret tt
  end.

(** [if (c) { return; }] followed by [rest]. *)
Definition return_if {S E} (c : st S E bool) (rest : st S E unit) :
    st S E unit :=
  stop ← c;
  if stop : bool then mret tt else rest.

(** ** Modules *)

(** What a module exports: a binding under its own name, or one binding as
    the default. *)
Inductive export : Type :=
  | Named (name : string)
  | Default (name : string).

(** The name of the binding. *)
Definition export_name (e : export) : string :=
  match e with Named name | Default name => name end.

(** ** Lemmas *)

Lemma object_is_spec a b : object_is a b = true ↔ a = b.
Proof. unfold object_is. by rewrite bool_decide_eq_true. Qed.

Lemma object_is_refl a : object_is a a = true.
Proof. by apply object_is_spec. Qed.

Lemma object_is_sym a b : object_is a b = object_is b a.
Proof. unfold object_is. apply bool_decide_ext. naive_solver. Qed.

Lemma object_is_ref {A} (o1 o2 : object A) :
  object_is (ref_of o1) (ref_of o2) = bool_decide (identity o1 = identity o2).
Proof. unfold object_is, ref_of. apply bool_decide_ext. split; congruence. Qed.

Lemma to_boolean_ref {A} (o : object A) : to_boolean (ref_of o) = true.
Proof. done. Qed.

Lemma to_boolean_nullish v : nullish v = true → to_boolean v = false.
Proof. by destruct v. Qed.

Lemma truthy_is_Some {A} (o : option A) : truthy o = true ↔ is_Some o.
Proof. rewrite is_Some_alt. by destruct o. Qed.

Lemma opt_member_truthy {A B} (o : option A) (p : A → option B) :
  truthy (opt_member o p) = true → truthy o = true.
Proof. by destruct o. Qed.

Lemma resolve_defined {A} name (g : global A) a :
  resolve name g = Normal (Some a) ↔ g = Defined a.
Proof. destruct g; naive_solver. Qed.

Lemma resolve_throw {A} name (g : global A) e :
  resolve name g = Throw e ↔ g = Undeclared ∧ e = ReferenceError name.
Proof. destruct g; simpl; intuition congruence. Qed.

Lemma js_not_true {A} (o : option A) : js_not o = true ↔ o = None.
Proof. destruct o; split; by intros [=]. Qed.

(** [||] agrees with the disjunction of the values of its operands when
    the right operand has no effect. *)
Lemma js_or_pure {S E} (a b : bool) (s : S) :
  s ⊢ js_or (E := E) a (mret b) ⇓ Normal (a || b) ⊣ s.
Proof. by destruct a. Qed.

(** The right operand is not evaluated when the left one holds. *)
Lemma js_or_short {S E} (b : st S E bool) (s : S) :
  s ⊢ js_or true b ⇓ Normal true ⊣ s.
Proof. done. Qed.

Lemma opt_call_None {S E A} (call : A → st S E unit) (s : S) :
  s ⊢ opt_call None call ⇓ Normal tt ⊣ s.
Proof. done. Qed.

(** An early return leaves the state of the test and skips the rest. *)
Lemma return_if_taken {S E} (c : st S E bool) (rest : st S E unit) s s' :
  s ⊢ c ⇓ Normal true ⊣ s' → s ⊢ return_if c rest ⇓ Normal tt ⊣ s'.
Proof. unfold return_if. st_unfold. by intros ->. Qed.

Lemma return_if_passed {S E} (c : st S E bool) (rest : st S E unit) s s' :
  s ⊢ c ⇓ Normal false ⊣ s' → return_if c rest s = rest s'.
Proof. unfold return_if. st_unfold. by intros ->. Qed.

Lemma return_if_throw {S E} (c : st S E bool) (rest : st S E unit) s s' e :
  s ⊢ c ⇓ Throw e ⊣ s' → s ⊢ return_if c rest ⇓ Throw e ⊣ s'.
Proof. unfold return_if. st_unfold. by intros ->. Qed.

#[export] Hint Rewrite object_is_refl @to_boolean_ref : banner.
