(* ===== verification/Browser.v ===== *)
(** * Browser: the declared types and the state of the page

    The types src/app/components/ShopifyCookieBanner.tsx declares (the props
    and the [privacyBanner] field it adds to [Window]) and the part of the
    page an effect can read or write: the global [window], the heap of ref
    objects and the log of [loadBanner] invocations. *)

From S2P Require Import Prelude Js.

(** ** Declared types *)

(** [type PrivacyConsentBannerProps]: four strings, passed through
    unchecked. *)
Record PrivacyConsentBannerProps : Type := {
  checkoutRootDomain : string;
  shopDomain : string;
  storefrontAccessToken : string;
  storefrontRootDomain : string;
}.

#[export] Instance props_eq_dec : EqDecision PrivacyConsentBannerProps.
Proof. solve_decision. Defined.

(** The object [window.privacyBanner]: one function, [loadBanner], from
    the options to [void].  What the third-party function does to the page
    is its own business; towards its caller it returns or throws. *)
Record PrivacyBanner : Type := {
  loadBanner : object PrivacyConsentBannerProps → completion exn unit;
}.

(** [interface Window]: the field the declaration adds.  The declaration
    gives it an object type, yet until the script has run the field is
    [undefined], which is what the component tests for: [None]. *)
Record Window : Type := {
  privacyBanner : option PrivacyBanner;
}.

(** ** The state of the page *)

Record World : Type := {
  window : global Window;
  heap : gmap loc val;
  calls : list (object PrivacyConsentBannerProps);
}.

(** Computations of an effect: they act on the page and may throw. *)
Abbreviation Eff := (st World exn).

Definition with_window (g : global Window) (w : World) : World :=
  {| window := g; heap := heap w; calls := calls w |}.

Definition with_heap (h : gmap loc val) (w : World) : World :=
  {| window := window w; heap := h; calls := calls w |}.

Definition log_call (o : object PrivacyConsentBannerProps) (w : World) :
    World :=
  {| window := window w; heap := heap w; calls := calls w ++ [o] |}.

(** A page on which nothing has happened yet. *)
Definition blank (g : global Window) : World :=
  {| window := g; heap := ∅; calls := [] |}.

(** ** Observations *)

(** The initializer a script can reach through [window] right now. *)
Definition available (w : World) : option PrivacyBanner :=
  match window w with
  | Defined win => privacyBanner win
  | _ => None
  end.

(** The ref at [l] read as a condition. *)
Definition flag (l : loc) (w : World) : bool :=
  to_boolean (default VUndefined (heap w !! l)).

(** ** Primitive operations *)

(** Evaluate the identifier [window]. *)
Definition window_global : Eff (option Window) :=
  λ w, (resolve "window" (window w), w).

(** [r.current] for the ref object at [l]. *)
Definition ref_current (l : loc) : Eff val :=
  st_gets (λ w, default VUndefined (heap w !! l)).

(** [r.current = v]. *)
Definition ref_assign (l : loc) (v : val) : Eff unit :=
  st_modify (λ w, with_heap (<[l := v]> (heap w)) w).

(** A new ref object [{current: v}]. *)
Definition ref_alloc (v : val) : Eff loc :=
  λ w, let l := fresh (dom (heap w)) in
       (Normal l, with_heap (<[l := v]> (heap w)) w).

(** Call [b.loadBanner(o)]: the invocation is logged whether the function
    returns or throws. *)
Definition invoke_loadBanner (b : PrivacyBanner)
    (o : object PrivacyConsentBannerProps) : Eff unit :=
  st_modify (log_call o);; st_lift (loadBanner b o).

(** ** A banner script for examples *)

(** An initializer that always returns. *)
Definition banner_ok : PrivacyBanner := {| loadBanner := λ _, Normal tt |}.

(** An initializer that always throws. *)
Definition banner_failing : PrivacyBanner :=
  {| loadBanner := λ _, Throw (TypeError "loadBanner failed") |}.

(** The global once the script has run. *)
Definition script_loaded (b : PrivacyBanner) : global Window :=
  Defined {| privacyBanner := Some b |}.

(** The global before the script has run. *)
Definition script_pending : global Window :=
  Defined {| privacyBanner := None |}.

(** The configuration of the specification's scenario. *)
Definition example_config : PrivacyConsentBannerProps := {|
  checkoutRootDomain := "checkout.example.com";
  shopDomain := "shop.example.com";
  storefrontAccessToken := "tok123";
  storefrontRootDomain := "example.com";
|}.

(** A second configuration, for a change of props. *)
Definition other_config : PrivacyConsentBannerProps := {|
  checkoutRootDomain := "checkout.other.example";
  shopDomain := "shop.other.example";
  storefrontAccessToken := "tok456";
  storefrontRootDomain := "other.example";
|}.

(** Two props objects, as two renders of a parent create them. *)
Definition example_props : object PrivacyConsentBannerProps :=
  Obj 100 example_config.

Definition other_props : object PrivacyConsentBannerProps :=
  Obj 101 other_config.

(** A page with one ref object, at location 1, holding [b]. *)
Definition flagged (b : bool) (g : global Window) : World :=
  {| window := g; heap := {[1%positive := VBool b]}; calls := [] |}.

(** ** Tactics *)

Ltac world_unfold :=
  unfold invoke_loadBanner, ref_alloc, ref_assign, ref_current,
    window_global, log_call, with_heap, with_window, available, flag in *.

(** ** Lemmas *)

Section world.
Implicit Types (w : World) (l : loc) (v : val).

Lemma heap_with_heap h w : heap (with_heap h w) = h.
Proof. done. Qed.

Lemma available_with_heap h w : available (with_heap h w) = available w.
Proof. done. Qed.

Lemma available_log_call o w : available (log_call o w) = available w.
Proof. done. Qed.

Lemma flag_log_call l o w : flag l (log_call o w) = flag l w.
Proof. done. Qed.

Lemma flag_with_window l g w : flag l (with_window g w) = flag l w.
Proof. done. Qed.

Lemma flag_insert l v h w :
  flag l (with_heap (<[l := v]> h) w) = to_boolean v.
Proof. unfold flag. simpl. by rewrite lookup_insert_eq. Qed.

Lemma flag_insert_ne l l' v h w :
  l ≠ l' → flag l' (with_heap (<[l := v]> h) w) = flag l' (with_heap h w).
Proof. intros. unfold flag. simpl. by rewrite lookup_insert_ne. Qed.

Lemma flag_lookup l w b : heap w !! l = Some (VBool b) → flag l w = b.
Proof. unfold flag. by intros ->. Qed.

Lemma available_with_window g w :
  available (with_window g w) = available (blank g).
Proof. done. Qed.

Lemma available_script_loaded b w :
  available (with_window (script_loaded b) w) = Some b.
Proof. done. Qed.

Lemma calls_log_call o w : calls (log_call o w) = calls w ++ [o].
Proof. done. Qed.

(** Reading back what was assigned. *)
Lemma ref_assign_current l v w :
  snd (ref_assign l v w) ⊢ ref_current l ⇓ Normal v ⊣ snd (ref_assign l v w).
Proof.
  world_unfold. st_unfold. simpl. by rewrite lookup_insert_eq.
Qed.

(** An assignment leaves every other ref alone. *)
Lemma ref_assign_frame l l' v w :
  l ≠ l' → heap (snd (ref_assign l v w)) !! l' = heap w !! l'.
Proof. intros. world_unfold. st_unfold. simpl. by rewrite lookup_insert_ne. Qed.

(** Allocation returns a location that was free and leaves every
    allocated ref alone. *)
Lemma ref_alloc_fresh v w l w' :
  w ⊢ ref_alloc v ⇓ Normal l ⊣ w' →
  heap w !! l = None ∧ heap w' = <[l := v]> (heap w) ∧
  window w' = window w ∧ calls w' = calls w.
Proof.
  world_unfold. intros [= <- <-]. simpl. split_and!; try done.
  apply not_elem_of_dom, is_fresh.
Qed.

Lemma ref_alloc_frame v w l' :
  is_Some (heap w !! l') →
  heap (snd (ref_alloc v w)) !! l' = heap w !! l'.
Proof.
  intros Hl'. world_unfold. simpl. apply lookup_insert_ne.
  intros <-. apply elem_of_dom in Hl'. by apply is_fresh in Hl'.
Qed.

(** An invocation appends exactly one entry to the log and touches nothing
    else; its completion is the function's. *)
Lemma invoke_loadBanner_spec b o w :
  w ⊢ invoke_loadBanner b o ⇓ loadBanner b o ⊣ log_call o w.
Proof. world_unfold. st_unfold. by destruct (loadBanner b o). Qed.

End world.

#[export] Hint Rewrite heap_with_heap calls_log_call available_with_heap
  available_log_call flag_log_call flag_with_window flag_insert
  available_script_loaded : banner.
