(* ===== verification/React.v ===== *)
(** * React: the hook runtime and the host of one component instance

    What the component is written against: elements, the hook cells of a
    fiber, [useRef] and [useEffect] under the mount and the update
    dispatcher, the render of a function component, the commit of its
    effects, and the host that mounts, re-renders and unmounts one instance
    while the environment changes the global.  None of this is code of the
    repository; it follows React's documented behaviour (react-reconciler's
    [renderWithHooks], [mountRef]/[updateRef], [mountEffect]/[updateEffect],
    [areHookInputsEqual]). *)

From S2P Require Import Prelude Js Browser.

(** ** Elements *)

Inductive prop_value : Type :=
  | PString (s : string)
  | PBool (b : bool)
  | PStyle (css : list (string * string)).

(** What JSX puts first in an element: a lower-case tag is a host element,
    a capitalised name refers to a component. *)
Inductive elem_type : Type :=
  | Host (tag : string)
  | Component (name : string).

#[warnings="-register-all"]
Inductive node : Type :=
  | Text (s : string)
  | Element (type : elem_type) (props : list (string * prop_value))
      (children : list node).

(** ** Hook cells *)

(** The memoized state of one hook call: the ref object of a [useRef], or
    the effect of a [useEffect] with its flag (run it at this commit), its
    function and its dependencies. *)
Inductive hook : Type :=
  | RefHook (l : loc)
  | EffectHook (fire : bool) (create : Eff unit) (deps : option (list val)).

Inductive hook_kind : Type := KRef | KEffect.

#[export] Instance hook_kind_eq_dec : EqDecision hook_kind.
Proof. solve_decision. Defined.

Definition kind_of (h : hook) : hook_kind :=
  match h with RefHook _ => KRef | EffectHook _ _ _ => KEffect end.

(** The name a module calls the hook by. *)
Definition hook_name (k : hook_kind) : string :=
  match k with KRef => "useRef" | KEffect => "useEffect" end.

(** The components an element tree refers to, in document order. *)
Fixpoint components_of (n : node) : list string :=
  match n with
  | Text _ => []
  | Element ty _ children =>
      match ty with Component name => [name] | Host _ => [] end
      ++ concat (components_of <$> children)
  end.

(** The names a module imports from [source]. *)
Definition imported_from (source : string)
    (imports : list (string * list string)) : list string :=
  concat (omap (λ i, if bool_decide (i.1 = source) then Some i.2 else None)
            imports).

(** The ref objects a fiber owns. *)
Definition refs_of (hs : list hook) : list loc :=
  omap (λ h, match h with RefHook l => Some l | _ => None end) hs.

(** ** The render phase *)

(** [current]: the hooks of the committed fiber not yet reached by this
    render, [None] when the component is mounting (React installs the mount
    dispatcher then).  [wip]: the hooks of the work in progress, in call
    order. *)
Record RenderState : Type := {
  current : option (list hook);
  wip : list hook;
  rs_world : World;
}.

Abbreviation Render := (st RenderState exn).

Definition lift_eff {A} (m : Eff A) : Render A := λ r,
  let '(c, w) := m (rs_world r) in
  (c, {| current := current r; wip := wip r; rs_world := w |}).

Definition push_hook (h : hook) : Render unit :=
  st_modify (λ r,
    {| current := current r; wip := wip r ++ [h]; rs_world := rs_world r |}).

Definition advance (rest : list hook) : Render unit :=
  st_modify (λ r,
    {| current := Some rest; wip := wip r; rs_world := rs_world r |}).

Definition more_hooks : exn :=
  Invariant "Rendered more hooks than during the previous render.".

Definition fewer_hooks : exn :=
  Invariant "Rendered fewer hooks than expected.".

Definition changed_hooks : exn :=
  Invariant "React has detected a change in the order of Hooks.".

(** [areHookInputsEqual]: element-wise [Object.is] over the common length;
    an absent array never equals anything. *)
Fixpoint inputs_equal (next prev : list val) : bool :=
  match next, prev with
  | n :: next, p :: prev => object_is n p && inputs_equal next prev
  | _, _ => true
  end.

Definition are_hook_inputs_equal (next prev : option (list val)) : bool :=
  match next, prev with
  | Some n, Some p => inputs_equal n p
  | _, _ => false
  end.

(** [useRef(initial)]: a new ref object at mount; the same object at every
    update, whatever [initial] is by then. *)
Definition useRef (initial : val) : Render loc :=
  r ← st_get;
  match current r with
  | None => l ← lift_eff (ref_alloc initial); push_hook (RefHook l);; mret l
  | Some (RefHook l :: rest) => advance rest;; push_hook (RefHook l);; mret l
  | Some (_ :: _) => mthrow changed_hooks
  | Some [] => mthrow more_hooks
  end.

(** [useEffect(create, deps)]: flagged to run at mount, and at an update
    when the dependencies are not equal to those of the committed fiber. *)
Definition useEffect (create : Eff unit) (deps : option (list val)) :
    Render unit :=
  r ← st_get;
  match current r with
  | None => push_hook (EffectHook true create deps)
  | Some (EffectHook _ _ prev :: rest) =>
      advance rest;;
      push_hook (EffectHook (negb (are_hook_inputs_equal deps prev)) create deps)
  | Some (_ :: _) => mthrow changed_hooks
  | Some [] => mthrow more_hooks
  end.

(** [renderWithHooks]: call the component with the dispatcher chosen by
    [cur]; the result is the element and the hooks of the new fiber. *)
Definition render_with_hooks {P} (C : P → Render node) (props : P)
    (cur : option (list hook)) : Eff (node * list hook) := λ w,
  match C props {| current := cur; wip := []; rs_world := w |} with
  | (Normal v, r) =>
      match current r with
      | Some (_ :: _) => (Throw fewer_hooks, rs_world r)
      | _ => (Normal (v, wip r), rs_world r)
      end
  | (Throw e, r) => (Throw e, rs_world r)
  end.

(** ** The commit phase *)

(** The effects flagged at this render, in call order. *)
Definition pending_effects (hs : list hook) : list (Eff unit) :=
  omap (λ h, match h with
             | EffectHook true create _ => Some create
             | _ => None
             end) hs.

Definition commit_effects (hs : list hook) : Eff unit :=
  st_seq (pending_effects hs).

(** Render, then commit. *)
Definition render_and_commit {P} (C : P → Render node) (props : P)
    (cur : option (list hook)) : Eff (node * list hook) :=
  r ← render_with_hooks C props cur;
  commit_effects r.2;;
  mret r.

(** ** The host of one instance *)

(** [fiber]: the hooks of the mounted instance, [None] when unmounted.
    [view]: the element last rendered.  [uncaught]: the exceptions that
    reached the host, oldest first. *)
Record Page : Type := {
  fiber : option (list hook);
  view : option node;
  world : World;
  uncaught : list exn;
}.

Inductive event (P : Type) : Type :=
  | Mount (props : P)
  | Rerender (props : P)
  | Unmount
  | Environment (g : global Window).
Arguments Mount {P} props.
Arguments Rerender {P} props.
Arguments Unmount {P}.
Arguments Environment {P} g.

Definition unmounted (w : World) (errs : list exn) : Page :=
  {| fiber := None; view := None; world := w; uncaught := errs |}.

(** A page before the first mount. *)
Definition initial (g : global Window) : Page := unmounted (blank g) [].

Section host.
Context {P : Type} (C : P → Render node).

(** A render and its commit on the page.  An exception reaches the host,
    which unmounts the instance. *)
Definition settle (cur : option (list hook)) (props : P) (pg : Page) : Page :=
  match render_and_commit C props cur (world pg) with
  | (Normal (v, hs), w) =>
      {| fiber := Some hs; view := Some v; world := w;
         uncaught := uncaught pg |}
  | (Throw e, w) => unmounted w (uncaught pg ++ [e])
  end.

(** An event the host cannot deliver in the state of the page (a mount of
    a mounted instance, a re-render or an unmount of an unmounted one)
    leaves the page as it is. *)
Definition step (pg : Page) (e : event P) : Page :=
  match e, fiber pg with
  | Mount props, None => settle None props pg
  | Rerender props, Some hs => settle (Some hs) props pg
  | Unmount, Some _ => unmounted (world pg) (uncaught pg)
  | Environment g, _ =>
      {| fiber := fiber pg; view := view pg;
         world := with_window g (world pg); uncaught := uncaught pg |}
  | _, _ => pg
  end.

Definition run (pg : Page) (es : list (event P)) : Page := foldl step pg es.

Definition enabled (e : event P) (pg : Page) : bool :=
  match e, fiber pg with
  | Mount _, None | Rerender _, Some _ | Unmount, Some _
  | Environment _, _ => true
  | _, _ => false
  end.

(** The same machine as a relation, one rule per event and outcome. *)
Inductive lifecycle : Page → event P → Page → Prop :=
  | lifecycle_mount pg props v hs w :
      fiber pg = None →
      world pg ⊢ render_and_commit C props None ⇓ Normal (v, hs) ⊣ w →
      lifecycle pg (Mount props)
        {| fiber := Some hs; view := Some v; world := w;
           uncaught := uncaught pg |}
  | lifecycle_mount_throw pg props e w :
      fiber pg = None →
      world pg ⊢ render_and_commit C props None ⇓ Throw e ⊣ w →
      lifecycle pg (Mount props) (unmounted w (uncaught pg ++ [e]))
  | lifecycle_rerender pg props cur v hs w :
      fiber pg = Some cur →
      world pg ⊢ render_and_commit C props (Some cur) ⇓ Normal (v, hs) ⊣ w →
      lifecycle pg (Rerender props)
        {| fiber := Some hs; view := Some v; world := w;
           uncaught := uncaught pg |}
  | lifecycle_rerender_throw pg props cur e w :
      fiber pg = Some cur →
      world pg ⊢ render_and_commit C props (Some cur) ⇓ Throw e ⊣ w →
      lifecycle pg (Rerender props) (unmounted w (uncaught pg ++ [e]))
  | lifecycle_unmount pg cur :
      fiber pg = Some cur →
      lifecycle pg Unmount (unmounted (world pg) (uncaught pg))
  | lifecycle_environment pg g :
      lifecycle pg (Environment g)
        {| fiber := fiber pg; view := view pg;
           world := with_window g (world pg); uncaught := uncaught pg |}.

(** Pages the host can reach from [pg]. *)
Definition reachable : relation Page :=
  rtc (λ pg pg', ∃ e, lifecycle pg e pg').

End host.

(** ** The rules of hooks, as an interface

    A component keeps the rules of hooks when every render calls the same
    hooks in the same order: mounting yields a fiber of the shape [shape],
    and an update of a fiber of that shape completes, keeps the shape and
    keeps the ref objects. *)

Class StaticHooks {P} (C : P → Render node) (shape : list hook_kind) := {
  mount_shape props w :
    ∃ v hs w', w ⊢ render_with_hooks C props None ⇓ Normal (v, hs) ⊣ w' ∧
      kind_of <$> hs = shape;
  update_shape props cur w :
    kind_of <$> cur = shape →
    ∃ v hs w', w ⊢ render_with_hooks C props (Some cur) ⇓ Normal (v, hs) ⊣ w' ∧
      kind_of <$> hs = shape ∧ refs_of hs = refs_of cur ∧ w' = w;
}.

(** A page whose mounted instance has the hooks of [shape]. *)
Definition shaped (shape : list hook_kind) (pg : Page) : Prop :=
  ∀ hs, fiber pg = Some hs → kind_of <$> hs = shape.

(** ** Tactics *)

Ltac react_unfold :=
  unfold render_and_commit, commit_effects, render_with_hooks, useEffect,
    useRef, advance, push_hook, lift_eff in *.

(** ** Induction on elements *)

(** Induction on a tree, with the hypothesis for every child. *)
Lemma node_ind' (P : node → Prop) :
  (∀ s, P (Text s)) →
  (∀ ty ps cs, Forall P cs → P (Element ty ps cs)) →
  ∀ n, P n.
Proof.
  intros Ht He. fix IH 1. intros [s|ty ps cs]; [apply Ht|].
  apply He. induction cs; constructor; auto.
Qed.

(** ** The host as a function and as a relation *)

Section host_lemmas.
Context {P : Type} (C : P → Render node).
Implicit Types (pg : Page) (e : event P) (es : list (event P)).

Lemma run_nil pg : run C pg [] = pg.
Proof. done. Qed.

Lemma run_cons pg e es : run C pg (e :: es) = run C (step C pg e) es.
Proof. done. Qed.

Lemma run_app pg es1 es2 : run C pg (es1 ++ es2) = run C (run C pg es1) es2.
Proof. apply foldl_app. Qed.

(** An event that is not enabled leaves the page as it is. *)
Lemma step_disabled pg e : enabled e pg = false → step C pg e = pg.
Proof. destruct e, pg as [[hs|] v w errs]; simpl; congruence. Qed.

Lemma settle_lifecycle cur props pg :
  (∃ v hs w,
     world pg ⊢ render_and_commit C props cur ⇓ Normal (v, hs) ⊣ w ∧
     settle C cur props pg =
       {| fiber := Some hs; view := Some v; world := w;
          uncaught := uncaught pg |}) ∨
  (∃ x w,
     world pg ⊢ render_and_commit C props cur ⇓ Throw x ⊣ w ∧
     settle C cur props pg = unmounted w (uncaught pg ++ [x])).
Proof.
  unfold settle.
  destruct (render_and_commit C props cur (world pg)) as [[[v hs]|x] w];
    [left|right]; eauto 10.
Qed.

(** The relation relates a page to the result of the function, for the
    events that are enabled. *)
Lemma lifecycle_step pg e pg' :
  lifecycle C pg e pg' ↔ enabled e pg = true ∧ step C pg e = pg'.
Proof.
  split.
  - destruct 1 as [pg props v hs w Hf Hr|pg props x w Hf Hr
                  |pg props cur v hs w Hf Hr|pg props cur x w Hf Hr
                  |pg cur Hf|pg g];
      unfold enabled; simpl; rewrite ?Hf; unfold settle; rewrite ?Hr;
      try done; by destruct (fiber pg).
  - intros [He <-]. unfold enabled in He.
    destruct e as [props|props| |g]; simpl; destruct (fiber pg) as [hs|] eqn:Hf;
      try done; try (rewrite <-Hf; by econstructor).
    + destruct (settle_lifecycle None props pg)
        as [(v & hs' & w & Hr & ->)|(x & w & Hr & ->)]; by econstructor.
    + destruct (settle_lifecycle (Some hs) props pg)
        as [(v & hs' & w & Hr & ->)|(x & w & Hr & ->)]; by econstructor.
    + by econstructor.
Qed.

(** The host is deterministic. *)
Lemma lifecycle_deterministic pg e pg1 pg2 :
  lifecycle C pg e pg1 → lifecycle C pg e pg2 → pg1 = pg2.
Proof. rewrite !lifecycle_step. by intros [_ <-] [_ <-]. Qed.

(** Every run reaches its last page. *)
Lemma run_reachable pg es : reachable C pg (run C pg es).
Proof.
  revert pg. induction es as [|e es IH]; intros pg; [constructor|].
  rewrite run_cons. destruct (enabled e pg) eqn:He.
  - eapply rtc_l; [|apply IH]. exists e. by apply lifecycle_step.
  - rewrite step_disabled by done. apply IH.
Qed.

(** Every page reached is the last page of a run. *)
Lemma reachable_run pg pg' : reachable C pg pg' → ∃ es, run C pg es = pg'.
Proof.
  induction 1 as [pg|pg pg1 pg' [e He] _ [es IH]]; [by exists []|].
  exists (e :: es). rewrite run_cons.
  by apply lifecycle_step in He as [_ ->].
Qed.

End host_lemmas.

(** ** What the runtime owes a component that keeps the rules of hooks

    Proved once, against the interface, for every component with an
    instance of [StaticHooks]: the fiber keeps its shape over every event,
    no render fails on a hook, the ref objects of an instance are the same
    at every render, and without an effect in the shape a re-render changes
    nothing but the fiber and the view. *)

Section static.
Context {P : Type} (C : P → Render node) (shape : list hook_kind).
Context `{!StaticHooks C shape}.
Implicit Types (pg : Page) (e : event P) (es : list (event P)).
Implicit Types (hs cur : list hook) (w : World).

Lemma shaped_unmounted w errs : shaped shape (unmounted w errs).
Proof. by intros hs. Qed.

(** A render of a fiber of the shape completes and gives the shape. *)
Lemma render_shaped props (cur : option (list hook)) w :
  (∀ hs, cur = Some hs → kind_of <$> hs = shape) →
  ∃ v hs w', w ⊢ render_with_hooks C props cur ⇓ Normal (v, hs) ⊣ w' ∧
    kind_of <$> hs = shape ∧
    (∀ hs0, cur = Some hs0 → refs_of hs = refs_of hs0 ∧ w' = w).
Proof.
  intros Hcur. destruct cur as [hs0|].
  - destruct (update_shape props hs0 w (Hcur _ eq_refl))
      as (v & hs & w' & Hr & Hk & Hrefs & ->).
    exists v, hs, w. split_and!; [done..|]. by intros ? [= <-].
  - destruct (mount_shape props w) as (v & hs & w' & Hr & Hk).
    by exists v, hs, w'.
Qed.

(** The fiber of a page after a render and its commit is the fiber of the
    render. *)
Lemma settle_fiber (cur : option (list hook)) props pg hs :
  fiber (settle C cur props pg) = Some hs →
  ∃ v w, world pg ⊢ render_with_hooks C props cur ⇓ Normal (v, hs) ⊣ w.
Proof.
  unfold settle, render_and_commit. st_unfold.
  destruct (render_with_hooks C props cur (world pg)) as [[[v hs']|x] w];
    [|done].
  destruct (commit_effects _ w) as [[[]|x] w']; [|done].
  intros [= <-]. by exists v, w.
Qed.

Lemma settle_shaped (cur : option (list hook)) props pg :
  (∀ hs, cur = Some hs → kind_of <$> hs = shape) →
  shaped shape (settle C cur props pg).
Proof.
  intros Hcur hs (v & w & Hr)%settle_fiber.
  destruct (render_shaped props cur (world pg) Hcur) as (? & ? & ? & Hr' & ? & _).
  rewrite Hr in Hr'. by simplify_eq.
Qed.

Lemma step_shaped pg e : shaped shape pg → shaped shape (step C pg e).
Proof.
  intros Hpg. destruct e as [props|props| |g], pg as [[cur|] v w errs];
    simpl; try done.
  - by apply settle_shaped.
  - apply settle_shaped. intros hs [= <-]. by apply Hpg.
Qed.

(** The shape is an invariant of the host. *)
Lemma run_shaped g es : shaped shape (run C (initial g) es).
Proof.
  apply (run_invariant (step C) (shaped shape));
    [apply step_shaped|apply shaped_unmounted].
Qed.

(** No render of a page of the shape fails on a hook. *)
Lemma render_completes pg props w :
  shaped shape pg →
  is_normal (render_with_hooks C props (fiber pg) w).1 = true.
Proof.
  intros Hpg. destruct (render_shaped props (fiber pg) w Hpg) as (v & hs & w' & -> & _).
  done.
Qed.

(** [useRef] gives the same objects at every render of an instance. *)
Lemma rerender_refs pg props cur hs :
  shaped shape pg → fiber pg = Some cur →
  fiber (step C pg (Rerender props)) = Some hs → refs_of hs = refs_of cur.
Proof.
  intros Hpg Hcur. simpl. rewrite Hcur. intros (v & w & Hr)%settle_fiber.
  destruct (render_shaped props (Some cur) (world pg)) as (? & ? & ? & Hr' & _ & Hrefs).
  { intros ? [= <-]. by apply Hpg. }
  rewrite Hr in Hr'. simplify_eq. by apply Hrefs.
Qed.

(** A fiber without an effect has nothing to commit. *)
Lemma pending_effects_none hs :
  KEffect ∉ kind_of <$> hs → pending_effects hs = [].
Proof.
  induction hs as [|[l|f c d] hs IH]; csimpl; [done|..].
  - intros Hk. apply IH. intros ?. apply Hk. by right.
  - intros Hk. destruct Hk. by left.
Qed.

(** Without an effect in the shape, a re-render touches neither the page
    state nor the errors: the component is a function of its props. *)
Lemma rerender_effect_free pg props :
  KEffect ∉ shape → shaped shape pg → is_Some (fiber pg) →
  is_Some (fiber (step C pg (Rerender props))) ∧
  world (step C pg (Rerender props)) = world pg ∧
  uncaught (step C pg (Rerender props)) = uncaught pg.
Proof.
  intros Hfree Hpg [cur Hcur]. simpl. rewrite Hcur.
  destruct (render_shaped props (Some cur) (world pg))
    as (v & hs & w' & Hr & Hk & Hsame); [intros ? [= <-]; by apply Hpg|].
  destruct (Hsame cur eq_refl) as [_ ->].
  unfold settle, render_and_commit. st_unfold. rewrite Hr. simpl.
  unfold commit_effects. rewrite (pending_effects_none hs); [done|].
  change (KEffect ∉ list_fmap _ _ kind_of hs). by rewrite Hk.
Qed.

End static.
