(* ===== verification/Banner.v ===== *)
(** * Banner: the component [ShopifyCookieBanner]

    src/app/components/ShopifyCookieBanner.tsx, lines 26 to 45, statement by
    statement, and what each run of its effect does. *)

From S2P Require Import Prelude Js Browser React.

(** ** The module *)

(** [import {Script} from '@shopify/hydrogen'] and
    [import {useEffect, useRef} from 'react']. *)
Definition banner_imports : list (string * list string) :=
  [("@shopify/hydrogen", ["Script"]); ("react", ["useEffect"; "useRef"])].

(** [export function ShopifyCookieBanner]. *)
Definition banner_exports : list export := [Named "ShopifyCookieBanner"].

(** ** The component *)

(** [useRef(false)]: the initial value of [loaded]. *)
Definition loaded_initial : val := VBool false.

(** [window?.privacyBanner]. *)
Definition window_privacyBanner : Eff (option PrivacyBanner) :=
  w ← window_global;
  mret (opt_member w privacyBanner).

(** [!window?.privacyBanner || loaded.current]: the right operand is
    evaluated only when the left one is false. *)
Definition banner_should_return (loaded : loc) : Eff bool :=
  pb ← window_privacyBanner;
  js_or (js_not pb) (to_boolean <$> ref_current loaded).

(** [window?.privacyBanner?.loadBanner(props)]: no call when the chain is
    cut short. *)
Definition banner_load (props : object PrivacyConsentBannerProps) : Eff unit :=
  pb ← window_privacyBanner;
  opt_call pb (λ b, invoke_loadBanner b props).

(** [loaded.current = true]. *)
Definition banner_mark_loaded (loaded : loc) : Eff unit :=
  ref_assign loaded (VBool true).

(** The function passed to [useEffect]: the guard with its early return,
    then the call and the assignment. *)
Definition banner_effect (props : object PrivacyConsentBannerProps)
    (loaded : loc) : Eff unit :=
  return_if (banner_should_return loaded)
    (banner_load props;; banner_mark_loaded loaded).

(** The dependency array [[props]]. *)
Definition banner_deps (props : object PrivacyConsentBannerProps) :
    option (list val) :=
  Some [ref_of props].

Definition consent_script_id : string := "consent-privacy-banner".

Definition consent_script_src : string :=
  "https://cdn.shopify.com/shopifycloud/privacy-banner/storefront-banner.js".

(** [async={false}]: the script is not run out of order. *)
Definition consent_script_async : bool := false.

(** The props of the element. *)
Definition consent_script_props : list (string * prop_value) :=
  [("id", PString consent_script_id);
   ("src", PString consent_script_src);
   ("async", PBool consent_script_async)].

(** The returned element: Hydrogen's [<Script>]. *)
Definition consent_script : node :=
  Element (Component "Script") consent_script_props [].

Definition ShopifyCookieBanner (props : object PrivacyConsentBannerProps) :
    Render node :=
  loaded ← useRef loaded_initial;
  useEffect (banner_effect props loaded) (banner_deps props);;
  mret consent_script.

(** ** Reference descriptions *)

(** One run of the effect as a decision table over the page. *)
Definition effect_table (props : object PrivacyConsentBannerProps) (l : loc)
    (w : World) : completion exn unit * World :=
  match window w with
  | Undeclared => (Throw (ReferenceError "window"), w)
  | _ =>
      match available w with
      | None => (Normal tt, w)
      | Some b =>
          if flag l w then (Normal tt, w)
          else
            match loadBanner b props with
            | Normal _ =>
                (Normal tt,
                 with_heap (<[l := VBool true]> (heap w)) (log_call props w))
            | Throw e => (Throw e, log_call props w)
            end
      end
  end.

(** The guard lets the effect pass: the initializer is there and the flag
    is not set. *)
Definition guard_open (l : loc) (w : World) : bool :=
  truthy (available w) && negb (flag l w).

(** The same as rules: the four ways a run of the effect ends. *)
Inductive effect_run (props : object PrivacyConsentBannerProps) (l : loc)
    (w : World) : completion exn unit * World → Prop :=
  | run_undeclared :
      window w = Undeclared →
      effect_run props l w (Throw (ReferenceError "window"), w)
  | run_skip :
      window w ≠ Undeclared → guard_open l w = false →
      effect_run props l w (Normal tt, w)
  | run_call b :
      available w = Some b → flag l w = false →
      loadBanner b props = Normal tt →
      effect_run props l w
        (Normal tt,
         with_heap (<[l := VBool true]> (heap w)) (log_call props w))
  | run_throw b e :
      available w = Some b → flag l w = false →
      loadBanner b props = Throw e →
      effect_run props l w (Throw e, log_call props w).

(** The fiber of a mounted banner: the ref [loaded] at [l], then the
    effect of the render with [props]. *)
Definition banner_fiber (l : loc) (fire : bool)
    (props : object PrivacyConsentBannerProps) : list hook :=
  [RefHook l; EffectHook fire (banner_effect props l) (banner_deps props)].

(** The [src] of every script an element asks for. *)
Fixpoint script_sources (n : node) : list string :=
  match n with
  | Text _ => []
  | Element ty props children =>
      match ty with
      | Component "Script" | Host "script" =>
          omap (λ kv, match kv with
                      | ("src", PString s) => Some s
                      | _ => None
                      end) props
      | _ => []
      end ++ concat (script_sources <$> children)
  end.

(** ** Tactics *)

Ltac banner_unfold :=
  unfold ShopifyCookieBanner, banner_effect, banner_mark_loaded, banner_load,
    banner_should_return, window_privacyBanner, banner_deps, loaded_initial,
    return_if, opt_call, js_or, js_not in *.

(** Evaluate a run of the component or of its effect. *)
Ltac banner_simpl :=
  banner_unfold; react_unfold; world_unfold; st_unfold; simpl in *.

(** ** The effect, branch by branch *)

Section effect.
Implicit Types (w : World) (l : loc) (b : PrivacyBanner).
Implicit Types props : object PrivacyConsentBannerProps.

(** The effect computes the table. *)
Lemma banner_effect_table props l w :
  banner_effect props l w = effect_table props l w.
Proof.
  destruct w as [[| |[[b|]]] h cs]; unfold effect_table; banner_simpl;
    try done.
  destruct (to_boolean _); simpl; [done|].
  by destruct (loadBanner b props) as [[]|].
Qed.

(** Every run of the effect ends by one of the four rules. *)
Lemma banner_effect_run props l w :
  effect_run props l w (banner_effect props l w).
Proof.
  rewrite banner_effect_table. unfold effect_table.
  destruct (window w) eqn:Hw; [by constructor|..];
    (destruct (available w) as [b|] eqn:Ha;
      [|by constructor; unfold guard_open; rewrite ?Hw, ?Ha]);
    (destruct (flag l w) eqn:Hf;
      [by constructor; unfold guard_open; rewrite ?Hw, ?Ha, ?Hf|]);
    destruct (loadBanner b props) as [[]|e] eqn:Hb; by econstructor.
Qed.

(** With the guard closed the effect returns at once. *)
Lemma banner_effect_skip props l w :
  window w ≠ Undeclared → guard_open l w = false →
  w ⊢ banner_effect props l ⇓ Normal tt ⊣ w.
Proof.
  intros Hw Hg. rewrite banner_effect_table. unfold effect_table, guard_open in *.
  destruct (window w); [done|..]; destruct (available w); try done;
    by destruct (flag l w).
Qed.

(** With the guard open the effect is the call, and sets the flag when the
    call returns. *)
Lemma banner_effect_call props l w b :
  available w = Some b → flag l w = false →
  banner_effect props l w =
  match loadBanner b props with
  | Normal _ =>
      (Normal tt, with_heap (<[l := VBool true]> (heap w)) (log_call props w))
  | Throw e => (Throw e, log_call props w)
  end.
Proof.
  intros Ha Hf. rewrite banner_effect_table. unfold effect_table.
  rewrite Ha, Hf. unfold available in Ha. by destruct (window w).
Qed.

Lemma available_declared w b : available w = Some b → window w ≠ Undeclared.
Proof. unfold available. by destruct (window w). Qed.

Lemma guard_open_marked l h w :
  guard_open l (with_heap (<[l := VBool true]> h) w) = false.
Proof. unfold guard_open. autorewrite with banner. apply andb_false_r. Qed.

(** C13: when [window.privacyBanner] is absent the effect returns at the
    guard: no call, no flag, the page is as it was. *)
Theorem banner_effect_absent props l w :
  window w ≠ Undeclared → available w = None →
  w ⊢ banner_effect props l ⇓ Normal tt ⊣ w.
Proof.
  intros Hw Ha. apply banner_effect_skip; [done|].
  unfold guard_open. by rewrite Ha.
Qed.

(** C14: when [loaded.current] is already true the effect returns at the
    guard, whatever the props are by now. *)
Theorem banner_effect_already_loaded props l w :
  window w ≠ Undeclared → flag l w = true →
  w ⊢ banner_effect props l ⇓ Normal tt ⊣ w.
Proof.
  intros Hw Hf. apply banner_effect_skip; [done|].
  unfold guard_open. rewrite Hf. apply andb_false_r.
Qed.

(** C4: when the initializer is present, the flag is false and
    [loadBanner] returns, the effect calls it once with the props of this
    render and then sets [loaded.current] to true. *)
Theorem banner_effect_first_call props l w b :
  available w = Some b → flag l w = false → loadBanner b props = Normal tt →
  w ⊢ banner_effect props l ⇓ Normal tt ⊣
    with_heap (<[l := VBool true]> (heap w)) (log_call props w).
Proof.
  intros Ha Hf Hb. by rewrite (banner_effect_call props l w b), Hb.
Qed.

(** C15: when [loadBanner] throws, the exception leaves the effect, the
    invocation has happened and [loaded.current] is still false. *)
Theorem banner_effect_throwing props l w b e :
  available w = Some b → flag l w = false → loadBanner b props = Throw e →
  w ⊢ banner_effect props l ⇓ Throw e ⊣ log_call props w.
Proof.
  intros Ha Hf Hb. by rewrite (banner_effect_call props l w b), Hb.
Qed.

(** C33: where the identifier [window] is not declared, [window?.] does
    not protect: the guard throws a ReferenceError and nothing else
    happens. *)
Theorem banner_effect_undeclared props l w :
  window w = Undeclared →
  w ⊢ banner_effect props l ⇓ Throw (ReferenceError "window") ⊣ w.
Proof.
  intros Hw. rewrite banner_effect_table. unfold effect_table. by rewrite Hw.
Qed.

(** One run of the effect appends at most one entry to the log of
    invocations, and that entry is the props it was created with. *)
Lemma banner_effect_log props l w :
  calls (banner_effect props l w).2 = calls w ∨
  calls (banner_effect props l w).2 = calls w ++ [props].
Proof. destruct (banner_effect_run props l w); auto. Qed.

(** After a run of the effect [loaded.current] is true exactly when
    it was true before or this run made a call that returned. *)
Lemma banner_effect_flag_iff props l w :
  flag l (banner_effect props l w).2 = true ↔
  flag l w = true ∨
  ((banner_effect props l w).1 = Normal tt ∧
   calls (banner_effect props l w).2 = calls w ++ [props]).
Proof.
  destruct (banner_effect_run props l w) as [Hw|Hw Hg|b Ha Hf Hb|b e Ha Hf Hb];
    simpl; autorewrite with banner; simpl; rewrite ?Hf.
  - split; [auto|]. by intros [?|[? _]].
  - split; [auto|]. intros [?|[_ Hc]]; [done|].
    apply (f_equal length) in Hc. rewrite length_app in Hc. simpl in Hc. lia.
  - split; auto.
  - split; [done|]. by intros [?|[? _]].
Qed.

(** A run of the effect that returns leaves the guard closed. *)
Lemma effect_run_settled props l w w1 :
  effect_run props l w (Normal tt, w1) →
  window w1 ≠ Undeclared ∧ guard_open l w1 = false.
Proof.
  inversion 1 as [|Hw Hg|b Ha Hf Hb|]; subst; [done|].
  split; [by apply available_declared in Ha|apply guard_open_marked].
Qed.

(** A second run of the effect, with any props, changes nothing once
    a first run has completed: the call is made at most once by flag, not
    by comparing configurations. *)
Lemma banner_effect_idempotent props props' l w w1 :
  w ⊢ banner_effect props l ⇓ Normal tt ⊣ w1 →
  w1 ⊢ banner_effect props' l ⇓ Normal tt ⊣ w1.
Proof.
  intros Hrun. pose proof (banner_effect_run props l w) as Hr.
  rewrite Hrun in Hr. apply effect_run_settled in Hr as [Hw Hg].
  by apply banner_effect_skip.
Qed.

(** The effect writes to no ref but its own and never to [window]. *)
Lemma banner_effect_frame props l l' w :
  l ≠ l' →
  heap (banner_effect props l w).2 !! l' = heap w !! l' ∧
  window (banner_effect props l w).2 = window w.
Proof.
  intros Hl. destruct (banner_effect_run props l w); simpl; auto.
  by rewrite lookup_insert_ne.
Qed.

(** Once the guard has let the effect pass, the optional chain of the
    call is never cut short: the call is made. *)
Lemma banner_load_after_guard props l w :
  w ⊢ banner_should_return l ⇓ Normal false ⊣ w →
  ∃ b, available w = Some b ∧
       banner_load props w = invoke_loadBanner b props w.
Proof.
  destruct w as [[| |[[b|]]] h cs]; banner_simpl; try done.
  intros _. by exists b.
Qed.

End effect.

(** ** The render *)

Section render.
Implicit Types (w : World) (l : loc).
Implicit Types props : object PrivacyConsentBannerProps.

(** Mounting allocates [loaded] at a free location, flags the effect and
    returns the script element. *)
Lemma render_mount props w :
  w ⊢ render_with_hooks ShopifyCookieBanner props None ⇓
    Normal (consent_script, banner_fiber (fresh (dom (heap w))) true props) ⊣
    with_heap (<[fresh (dom (heap w)) := VBool false]> (heap w)) w.
Proof. done. Qed.

(** An update keeps [loaded], flags the effect when the props object is
    another one, and leaves the page alone. *)
Lemma render_update props props' l fire w :
  w ⊢ render_with_hooks ShopifyCookieBanner props'
        (Some (banner_fiber l fire props)) ⇓
    Normal (consent_script,
            banner_fiber l (negb (bool_decide (identity props' = identity props)))
              props') ⊣ w.
Proof.
  unfold banner_fiber. banner_simpl. rewrite andb_true_r.
  by rewrite object_is_ref.
Qed.

(** A fiber determines its ref, its flag and the identity of its props. *)
Lemma banner_fiber_inj l fire props l' fire' props' :
  banner_fiber l fire props = banner_fiber l' fire' props' →
  l = l' ∧ fire = fire' ∧ identity props = identity props'.
Proof. unfold banner_fiber, banner_deps, ref_of. by intros [= -> -> _ ->]. Qed.

(** The component keeps the rules of hooks: a ref, then an effect. *)
#[export] Instance banner_static_hooks :
  StaticHooks ShopifyCookieBanner [KRef; KEffect].
Proof.
  split.
  - intros props w. do 3 eexists. split; [apply render_mount|done].
  - intros props [|[l|] [|[|f c d] [|]]] w Hk; simplify_eq/=.
    do 3 eexists. by banner_simpl.
Qed.

(** Every render returns the same element, and it asks for exactly
    one script: the banner script at its fixed address. *)
Lemma render_view props cur w :
  match render_with_hooks ShopifyCookieBanner props cur w with
  | (Normal (v, _), _) =>
      v = consent_script ∧ script_sources v = [consent_script_src]
  | (Throw e, _) => e = changed_hooks ∨ e = more_hooks ∨ e = fewer_hooks
  end.
Proof.
  destruct cur as [[|[l|] [|[|f c d] [|]]]|]; banner_simpl; auto.
Qed.

(** The ref [loaded] starts out false: a fresh mount has its flag
    unset whatever the page held before. *)
Lemma mount_flag_unset props w v hs w' :
  w ⊢ render_with_hooks ShopifyCookieBanner props None ⇓ Normal (v, hs) ⊣ w' →
  ∃ l, hs = banner_fiber l true props ∧ heap w !! l = None ∧
       flag l w' = false ∧ calls w' = calls w ∧ window w' = window w.
Proof.
  rewrite render_mount. intros [= <- <- <-]. eexists. split; [done|].
  autorewrite with banner. split_and!; try done.
  apply not_elem_of_dom, is_fresh.
Qed.

(** A render neither reads nor writes [window], and invokes nothing:
    it gives the same element and the same hooks whatever the global is,
    also where [window] is not declared, as on a server. *)
Lemma render_ignores_window props cur w g :
  render_with_hooks ShopifyCookieBanner props cur (with_window g w) =
    (let '(r, w') := render_with_hooks ShopifyCookieBanner props cur w in
     (r, with_window g w')) ∧
  calls (render_with_hooks ShopifyCookieBanner props cur w).2 = calls w.
Proof.
  destruct cur as [[|[l|] [|[|f c d] [|]]]|]; by banner_simpl.
Qed.

(** The module is well scoped: every render refers to the components
    it imports from Hydrogen and calls the hooks it imports from React,
    all of them and no others. *)
Lemma banner_well_scoped props cur w v hs w' :
  w ⊢ render_with_hooks ShopifyCookieBanner props cur ⇓ Normal (v, hs) ⊣ w' →
  components_of v = imported_from "@shopify/hydrogen" banner_imports ∧
  hook_name ∘ kind_of <$> hs ≡ₚ imported_from "react" banner_imports ∧
  banner_imports.*1 = ["@shopify/hydrogen"; "react"].
Proof.
  destruct cur as [[|[l|] [|[|f c d] [|]]]|]; banner_simpl; intros [= <- <- <-];
    split_and!; try done; apply perm_swap.
Qed.

End render.

(** ** The theorems at concrete pages *)

Lemma banner_effect_absent_witness :
  blank script_pending ⊢ banner_effect example_props 1 ⇓ Normal tt ⊣
    blank script_pending.
Proof. apply banner_effect_absent; done. Defined.

Lemma banner_effect_already_loaded_witness :
  flagged true (script_loaded banner_ok) ⊢
    banner_effect other_props 1 ⇓ Normal tt ⊣
    flagged true (script_loaded banner_ok).
Proof. apply banner_effect_already_loaded; done. Defined.

Lemma banner_effect_first_call_witness :
  flagged false (script_loaded banner_ok) ⊢
    banner_effect example_props 1 ⇓ Normal tt ⊣
    with_heap (<[1%positive := VBool true]> {[1%positive := VBool false]})
      (log_call example_props (flagged false (script_loaded banner_ok))).
Proof.
  by apply (banner_effect_first_call example_props 1
              (flagged false (script_loaded banner_ok)) banner_ok).
Defined.

Lemma banner_effect_throwing_witness :
  flagged false (script_loaded banner_failing) ⊢
    banner_effect example_props 1 ⇓ Throw (TypeError "loadBanner failed") ⊣
    log_call example_props (flagged false (script_loaded banner_failing)).
Proof.
  by apply (banner_effect_throwing example_props 1
              (flagged false (script_loaded banner_failing)) banner_failing).
Defined.

Lemma banner_effect_undeclared_witness :
  blank Undeclared ⊢ banner_effect example_props 1 ⇓
    Throw (ReferenceError "window") ⊣ blank Undeclared.
Proof. by apply banner_effect_undeclared. Defined.

