(* ===== verification/Lifecycle.v ===== *)
(** * Lifecycle: one banner instance on the host

    The host of [React] instantiated with [ShopifyCookieBanner]: what a
    mount, a re-render, an unmount and a change of the global do to the
    page, the invariant of the pages it reaches, and the properties of the
    invocation log over every sequence of events. *)

From S2P Require Import Prelude Js Browser React Banner.

Abbreviation banner_step := (step ShopifyCookieBanner).
Abbreviation banner_run := (run ShopifyCookieBanner).
Abbreviation banner_event := (event (object PrivacyConsentBannerProps)).

(** ** Definitions *)

(** The page after the effect of a render has run: the instance stays
    mounted when the effect returns and is unmounted when it throws. *)
Definition conclude (l : loc) (props : object PrivacyConsentBannerProps)
    (errs : list exn) (r : completion exn unit * World) : Page :=
  match r with
  | (Normal _, w) =>
      {| fiber := Some (banner_fiber l true props);
         view := Some consent_script; world := w; uncaught := errs |}
  | (Throw e, w) => unmounted w (errs ++ [e])
  end.

(** The page after a commit whose call returned. *)
Definition called (l : loc) (props : object PrivacyConsentBannerProps)
    (w : World) (errs : list exn) : Page :=
  {| fiber := Some (banner_fiber l true props); view := Some consent_script;
     world := with_heap (<[l := VBool true]> (heap w)) (log_call props w);
     uncaught := errs |}.

(** The pages of a banner: unmounted, or mounted with the fiber of some
    render, the script element on screen and a boolean in [loaded]. *)
Inductive page_ok : Page → Prop :=
  | page_unmounted w errs : page_ok (unmounted w errs)
  | page_mounted l fire props b w errs :
      heap w !! l = Some (VBool b) →
      page_ok {| fiber := Some (banner_fiber l fire props);
                 view := Some consent_script; world := w; uncaught := errs |}.

(** [loaded.current] of the mounted instance. *)
Definition loaded_of (pg : Page) : option bool :=
  match fiber pg with
  | Some (RefHook l :: _) => Some (flag l (world pg))
  | _ => None
  end.

(** The props object of the last render. *)
Definition rendered_with (pg : Page) : option loc :=
  match fiber pg with
  | Some [_; EffectHook _ _ (Some [VObj i])] => Some i
  | _ => None
  end.

(** The invocations the mounted instance may still make: one while its
    flag is unset. *)
Definition budget (pg : Page) : nat :=
  match loaded_of pg with Some false => 1 | _ => 0 end.

Definition is_mount (e : banner_event) : bool :=
  match e with Mount _ => true | _ => false end.

Definition mounts (es : list banner_event) : nat :=
  length (filter (λ e, is_mount e = true) es).

(** A mount that takes place: the event is a mount and no instance is
    mounted.  The host ignores a mount of a mounted instance. *)
Definition takes_mount (pg : Page) (e : banner_event) : bool :=
  is_mount e && bool_decide (fiber pg = None).

(** The mounts of a run that take place. *)
Fixpoint mounted_times (pg : Page) (es : list banner_event) : nat :=
  match es with
  | [] => 0
  | e :: es =>
      (if takes_mount pg e then 1 else 0) + mounted_times (banner_step pg e) es
  end.

(** The props object an event of the host renders the component with. *)
Definition props_of (e : banner_event) :
    list (object PrivacyConsentBannerProps) :=
  match e with Mount props | Rerender props => [props] | _ => [] end.

(** The ref objects allocated on the page so far. *)
Definition allocated (pg : Page) : nat := size (heap (world pg)).

(** The invocations so far. *)
Definition invocations (pg : Page) : list (object PrivacyConsentBannerProps) :=
  calls (world pg).

(** The scenario of the specification: the initializer is there at mount. *)
Definition scenario_page : Page :=
  banner_run (initial (script_loaded banner_ok)) [Mount example_props].

(** A mount before the script has run. *)
Definition early_page : Page :=
  banner_run (initial script_pending) [Mount example_props].

(** One page has at least the invocations of another. *)
Definition log_le (pg pg' : Page) : Prop :=
  invocations pg `prefix_of` invocations pg'.

#[export] Instance log_le_preorder : PreOrder log_le.
Proof.
  split; [intros pg; by unfold log_le|].
  intros pg1 pg2 pg3. unfold log_le. by etrans.
Qed.

(** An event under which the initializer stays out of reach. *)
Definition keeps_absent (e : banner_event) : bool :=
  match e with
  | Environment g => negb (truthy (available (blank g)))
  | _ => true
  end.

(** An event that brings no new props object: a change of the global, or a
    re-render with the object [i]. *)
Definition same_props (i : loc) (e : banner_event) : bool :=
  match e with
  | Environment _ => true
  | Rerender props => bool_decide (identity props = i)
  | _ => false
  end.

(** What a step of the host is for a banner, event by event. *)
Inductive step_view (pg : Page) : banner_event → Page → Prop :=
  | view_idle e :
      enabled e pg = false → step_view pg e pg
  | view_unmount :
      is_Some (fiber pg) →
      step_view pg Unmount (unmounted (world pg) (uncaught pg))
  | view_environment g :
      step_view pg (Environment g)
        {| fiber := fiber pg; view := view pg;
           world := with_window g (world pg); uncaught := uncaught pg |}
  | view_mount props :
      fiber pg = None →
      step_view pg (Mount props)
        (conclude (fresh (dom (heap (world pg)))) props (uncaught pg)
           (banner_effect props (fresh (dom (heap (world pg))))
              (with_heap
                 (<[fresh (dom (heap (world pg))) := VBool false]>
                    (heap (world pg)))
                 (world pg))))
  | view_same l fire props props' :
      fiber pg = Some (banner_fiber l fire props) →
      identity props' = identity props →
      step_view pg (Rerender props')
        {| fiber := Some (banner_fiber l false props');
           view := Some consent_script; world := world pg;
           uncaught := uncaught pg |}
  | view_changed l fire props props' :
      fiber pg = Some (banner_fiber l fire props) →
      identity props' ≠ identity props →
      step_view pg (Rerender props')
        (conclude l props' (uncaught pg)
           (banner_effect props' l (world pg))).

(** ** Steps *)

Section steps.
Implicit Types (pg : Page) (e : banner_event) (w : World) (l : loc).
Implicit Types props : object PrivacyConsentBannerProps.

Lemma settle_mount props pg :
  settle ShopifyCookieBanner None props pg =
  conclude (fresh (dom (heap (world pg)))) props (uncaught pg)
    (banner_effect props (fresh (dom (heap (world pg))))
       (with_heap
          (<[fresh (dom (heap (world pg))) := VBool false]> (heap (world pg)))
          (world pg))).
Proof.
  unfold settle, render_and_commit. st_unfold. rewrite render_mount. simpl.
  unfold commit_effects. simpl. st_unfold.
  by destruct (banner_effect _ _ _) as [[[]|]].
Qed.

Lemma settle_update props props' l fire pg :
  settle ShopifyCookieBanner (Some (banner_fiber l fire props)) props' pg =
  if bool_decide (identity props' = identity props)
  then {| fiber := Some (banner_fiber l false props');
          view := Some consent_script; world := world pg;
          uncaught := uncaught pg |}
  else conclude l props' (uncaught pg) (banner_effect props' l (world pg)).
Proof.
  unfold settle, render_and_commit. st_unfold. rewrite render_update. simpl.
  unfold commit_effects. case_bool_decide; simpl; [done|]. st_unfold.
  by destruct (banner_effect _ _ _) as [[[]|]].
Qed.

(** On a page of a banner every step is one of the six of [step_view]. *)
Lemma step_view_of pg e : page_ok pg → step_view pg e (banner_step pg e).
Proof.
  intros [w errs|l fire props b w errs Hl]; destruct e as [p|p| |g]; simpl;
    try (by constructor).
  - rewrite settle_mount. by constructor.
  - rewrite settle_update. case_bool_decide; by econstructor.
Qed.

End steps.

(** ** What the effect of a render leaves behind *)

Section conclude.
Implicit Types (w : World) (l : loc) (errs : list exn).
Implicit Types props : object PrivacyConsentBannerProps.

Lemma conclude_ok l props errs w b :
  heap w !! l = Some (VBool b) →
  page_ok (conclude l props errs (banner_effect props l w)).
Proof.
  intros Hl. destruct (banner_effect_run props l w); simpl;
    try (by econstructor).
  eapply page_mounted. simpl. apply lookup_insert_eq.
Qed.

(** The invocation made now is paid for by the flag that was unset. *)
Lemma conclude_budget l props errs w :
  length (invocations (conclude l props errs (banner_effect props l w))) +
    budget (conclude l props errs (banner_effect props l w)) ≤
  length (calls w) + (if flag l w then 0 else 1).
Proof.
  destruct (banner_effect_run props l w) as [| | |b e Ha Hf Hb];
    unfold invocations, budget, loaded_of; simpl;
    autorewrite with banner; simpl; rewrite ?length_app; simpl;
    repeat case_match; simplify_eq; lia.
Qed.

Lemma conclude_prefix l props errs w :
  calls w `prefix_of`
    invocations (conclude l props errs (banner_effect props l w)).
Proof.
  destruct (banner_effect_run props l w); unfold invocations; simpl;
    auto with banner.
Qed.

(** The effect of a render logs nothing, or the props of that render. *)
Lemma conclude_log l props errs w :
  ∃ new,
    invocations (conclude l props errs (banner_effect props l w)) =
      calls w ++ new ∧
    new `sublist_of` [props].
Proof.
  destruct (banner_effect_run props l w); unfold invocations; simpl;
    autorewrite with banner;
    first [by exists [props]|exists []; by rewrite app_nil_r; auto using sublist_nil_l].
Qed.

(** The effect allocates nothing: it writes to the ref it was given. *)
Lemma conclude_allocated l props errs w :
  is_Some (heap w !! l) →
  allocated (conclude l props errs (banner_effect props l w)) =
  size (heap w).
Proof.
  intros Hl. destruct (banner_effect_run props l w); try done.
  unfold allocated. simpl. by apply map_size_insert_Some.
Qed.

Lemma conclude_window l props errs w :
  window (world (conclude l props errs (banner_effect props l w))) = window w.
Proof. by destruct (banner_effect_run props l w). Qed.

Lemma conclude_uncaught l props errs w :
  errs `prefix_of`
    uncaught (conclude l props errs (banner_effect props l w)).
Proof. destruct (banner_effect_run props l w); simpl; auto with banner. Qed.

(** With the initializer out of reach the effect leaves the page alone. *)
Lemma conclude_absent l props errs w :
  available w = None →
  world (conclude l props errs (banner_effect props l w)) = w.
Proof.
  intros Ha. destruct (banner_effect_run props l w); simpl; congruence.
Qed.

(** A call that returns: the log has the props, the flag is set and the
    instance stays mounted. *)
Lemma conclude_call l props errs w b :
  available w = Some b → flag l w = false → loadBanner b props = Normal tt →
  conclude l props errs (banner_effect props l w) =
  {| fiber := Some (banner_fiber l true props); view := Some consent_script;
     world := with_heap (<[l := VBool true]> (heap w)) (log_call props w);
     uncaught := errs |}.
Proof. intros Ha Hf Hb. by rewrite (banner_effect_call props l w b), Hb. Qed.

(** A call that throws: the log has the props, the flag is not set and the
    instance is unmounted. *)
Lemma conclude_throw l props errs w b e :
  available w = Some b → flag l w = false → loadBanner b props = Throw e →
  conclude l props errs (banner_effect props l w) =
  unmounted (log_call props w) (errs ++ [e]).
Proof. intros Ha Hf Hb. by rewrite (banner_effect_call props l w b), Hb. Qed.

(** A ref that holds true keeps holding it. *)
Lemma conclude_keeps_true l props errs w l' :
  heap w !! l' = Some (VBool true) →
  heap (world (conclude l props errs (banner_effect props l w))) !! l' =
  Some (VBool true).
Proof.
  intros Hl'. destruct (banner_effect_run props l w); simpl; try done.
  destruct (decide (l = l')) as [->|]; [apply lookup_insert_eq|].
  by rewrite lookup_insert_ne.
Qed.

End conclude.

(** ** Invariants of a step *)

Section invariants.
Implicit Types (pg : Page) (e : banner_event) (es : list banner_event).

Lemma initial_ok g : page_ok (initial g).
Proof. constructor. Qed.

(** What the invariant says of a mounted page. *)
Lemma page_ok_mounted pg hs :
  page_ok pg → fiber pg = Some hs →
  ∃ l fire props b,
    hs = banner_fiber l fire props ∧ heap (world pg) !! l = Some (VBool b) ∧
    view pg = Some consent_script.
Proof. intros [|l f p b w errs Hl] [= <-]. by exists l, f, p, b. Qed.

(** The pages of a banner have the hooks the component promises. *)
(** What a page of a banner shows is the script element. *)
Lemma page_ok_view pg v : page_ok pg → view pg = Some v → v = consent_script.
Proof. intros [|l f p b w errs Hl]; simpl; congruence. Qed.

Lemma page_ok_shaped pg : page_ok pg → shaped [KRef; KEffect] pg.
Proof. by intros [|] hs [= <-]. Qed.

Lemma step_ok pg e : page_ok pg → page_ok (banner_step pg e).
Proof.
  intros Hok. destruct (step_view_of pg e Hok) as [| | |p Hf|l f p p' Hf|l f p p' Hf];
    try done.
  - constructor.
  - by destruct Hok; econstructor.
  - eapply conclude_ok. simpl. apply lookup_insert_eq.
  - destruct Hok as [|?????? Hl]; simplify_eq/=. by econstructor.
  - destruct Hok as [|?????? Hl]; simplify_eq/=. by eapply conclude_ok.
Qed.

Lemma run_ok pg es : page_ok pg → page_ok (banner_run pg es).
Proof. apply run_invariant, step_ok. Qed.

Lemma budget_fiber pg l fire props :
  fiber pg = Some (banner_fiber l fire props) →
  budget pg = if flag l (world pg) then 0 else 1.
Proof. unfold budget, loaded_of. by intros ->. Qed.

Lemma budget_unmounted pg : fiber pg = None → budget pg = 0.
Proof. unfold budget, loaded_of. by intros ->. Qed.

Lemma budget_environment pg g :
  budget {| fiber := fiber pg; view := view pg;
            world := with_window g (world pg); uncaught := uncaught pg |} =
  budget pg.
Proof. done. Qed.

(** A step makes an invocation only against the budget of the instance,
    and only a mount grants a new budget. *)
Lemma step_budget pg e :
  page_ok pg →
  length (invocations (banner_step pg e)) + budget (banner_step pg e) ≤
  length (invocations pg) + budget pg + (if is_mount e then 1 else 0).
Proof.
  intros Hok.
  destruct (step_view_of pg e Hok) as [| | |p Hf|l f p p' Hf|l f p p' Hf].
  - lia.
  - rewrite (budget_unmounted (unmounted _ _)) by done. unfold invocations.
    simpl. lia.
  - rewrite budget_environment. unfold invocations. simpl. lia.
  - etrans; [apply conclude_budget|]. autorewrite with banner.
    unfold invocations. simpl. lia.
  - rewrite (budget_fiber pg l f p) by done.
    erewrite budget_fiber by done. unfold invocations. simpl. lia.
  - etrans; [apply conclude_budget|]. rewrite (budget_fiber pg l f p) by done.
    unfold invocations. lia.
Qed.

(** Only a mount that takes place grants a budget. *)
Lemma step_budget_taken pg e :
  page_ok pg →
  length (invocations (banner_step pg e)) + budget (banner_step pg e) ≤
  length (invocations pg) + budget pg + (if takes_mount pg e then 1 else 0).
Proof.
  intros Hok. pose proof (step_budget pg e Hok) as Hb.
  destruct (step_view_of pg e Hok) as [| | |p Hf|l f p p' Hf|l f p p' Hf];
    try (simpl in Hb; lia).
  unfold takes_mount. by rewrite bool_decide_true.
Qed.

Lemma step_prefix pg e :
  page_ok pg → invocations pg `prefix_of` invocations (banner_step pg e).
Proof.
  intros Hok. destruct (step_view_of pg e Hok); try done.
  - apply (conclude_prefix _ _ _ (with_heap _ _)).
  - apply conclude_prefix.
Qed.

(** A step logs nothing, or the props of the render it is. *)
Lemma step_log pg e :
  page_ok pg →
  ∃ new, invocations (banner_step pg e) = invocations pg ++ new ∧
         new `sublist_of` props_of e.
Proof.
  intros Hok.
  destruct (step_view_of pg e Hok) as [e He| |g|p Hf|l f p p' Hf Hp|l f p p' Hf Hp];
    try (exists []; by rewrite app_nil_r; auto using sublist_nil_l).
  - apply (conclude_log _ _ _ (with_heap _ _)).
  - apply conclude_log.
Qed.

(** A mount allocates the ref [loaded]; nothing else allocates, and
    nothing is given back. *)
Lemma step_allocated pg e :
  page_ok pg →
  allocated (banner_step pg e) =
  allocated pg + (if bool_decide (is_mount e = true ∧ fiber pg = None)
                  then 1 else 0).
Proof.
  intros Hok.
  destruct (step_view_of pg e Hok) as [e He| [hs Hf] |g|p Hf|l f p p' Hf Hp|l f p p' Hf Hp].
  - rewrite bool_decide_false; [lia|]. intros [Hm Hf].
    destruct e; try done. unfold enabled in He. by rewrite Hf in He.
  - rewrite bool_decide_false by (by intros [? _]). unfold allocated. simpl. lia.
  - rewrite bool_decide_false by (by intros [? _]). unfold allocated. simpl. lia.
  - rewrite bool_decide_true by done.
    rewrite conclude_allocated by (simpl; by rewrite lookup_insert_eq).
    simpl. rewrite map_size_insert_None; [unfold allocated; lia|].
    apply not_elem_of_dom, is_fresh.
  - rewrite bool_decide_false by (by intros [? _]). unfold allocated. simpl. lia.
  - rewrite bool_decide_false by (by intros [? _]).
    destruct (page_ok_mounted pg _ Hok Hf) as (l0 & f0 & p0 & b & Hfib & Hl & _).
    apply banner_fiber_inj in Hfib as (-> & _ & _).
    rewrite conclude_allocated by (by rewrite Hl). unfold allocated. lia.
Qed.

Lemma step_uncaught pg e :
  page_ok pg → uncaught pg `prefix_of` uncaught (banner_step pg e).
Proof.
  intros Hok. destruct (step_view_of pg e Hok); try done;
    apply conclude_uncaught.
Qed.

End invariants.

(** ** Runs *)

Section runs.
Implicit Types (pg : Page) (e : banner_event) (es : list banner_event).
Implicit Types (w : World) (l : loc) (b : PrivacyBanner) (errs : list exn).
Implicit Types props : object PrivacyConsentBannerProps.

(** C16: every page the host reaches from a fresh one is a page of a
    banner: unmounted, or mounted with a ref that holds a boolean, the
    effect of the last render and the script element on screen. *)
Theorem run_from_initial_ok g es : page_ok (banner_run (initial g) es).
Proof. apply run_ok, initial_ok. Qed.

Lemma run_budget pg es :
  page_ok pg →
  length (invocations (banner_run pg es)) + budget (banner_run pg es) ≤
  length (invocations pg) + budget pg + mounts es.
Proof.
  intros Hok. unfold mounts. rewrite <-sum_list_indicator.
  apply (run_bounded banner_step page_ok
           (λ pg, length (invocations pg) + budget pg)); auto using step_ok.
  intros s e Hs. pose proof (step_budget s e Hs). lia.
Qed.

(** C1: over every sequence of mounts, re-renders, unmounts and changes
    of the global, [loadBanner] is invoked at most once per mount of the
    component, whether it returns or throws. *)
Theorem at_most_once_per_mount g es :
  length (invocations (banner_run (initial g) es)) ≤ mounts es.
Proof. pose proof (run_budget (initial g) es (initial_ok g)). simpl in *. lia. Qed.

Lemma run_budget_taken pg es :
  page_ok pg →
  length (invocations (banner_run pg es)) + budget (banner_run pg es) ≤
  length (invocations pg) + budget pg + mounted_times pg es.
Proof.
  revert pg. induction es as [|e es IH]; intros pg Hok; [simpl; lia|].
  rewrite run_cons. cbn [mounted_times].
  pose proof (IH _ (step_ok pg e Hok)).
  pose proof (step_budget_taken pg e Hok). lia.
Qed.

Lemma mounted_times_mounts pg es : mounted_times pg es ≤ mounts es.
Proof.
  revert pg. induction es as [|e es IH]; intros pg; [done|].
  cbn [mounted_times]. specialize (IH (banner_step pg e)).
  unfold mounts, takes_mount in *. rewrite filter_cons.
  destruct (is_mount e); simpl; repeat case_decide; try done;
    try case_bool_decide; simpl in *; lia.
Qed.

(** C10: [loadBanner] is invoked at most once per instance that was
    mounted: the invocations of a run are at most the mounts that took
    place, which are at most the mounts the host asked for (a mount of a
    mounted instance is ignored and grants nothing). *)
Theorem once_per_mounted_instance g es :
  length (invocations (banner_run (initial g) es)) ≤
    mounted_times (initial g) es ∧
  mounted_times (initial g) es ≤ mounts es.
Proof.
  split; [|apply mounted_times_mounts].
  pose proof (run_budget_taken (initial g) es (initial_ok g)).
  simpl in *. lia.
Qed.

(** The log of invocations only grows: what was invoked stays invoked, in
    the same order. *)
Lemma run_log_prefix pg es :
  page_ok pg → invocations pg `prefix_of` invocations (banner_run pg es).
Proof.
  intros Hok. apply (run_preorder banner_step page_ok (R := log_le)); [..|done].
  - apply step_ok.
  - apply step_prefix.
Qed.

(** C21: [loadBanner] is only ever invoked with the props object of a
    render: the invocations of a run are props of its mounts and re-renders,
    each used at most once and in the order of the renders. *)
Theorem invocations_rendered pg es :
  page_ok pg →
  ∃ new, invocations (banner_run pg es) = invocations pg ++ new ∧
         new `sublist_of` es ≫= props_of.
Proof.
  intros Hok.
  apply (run_emits banner_step page_ok invocations props_of);
    auto using step_ok, step_log.
Qed.

(** C27: the component allocates one ref object per mount and none
    otherwise: after every run the page holds at most as many more ref
    objects as the run has mounts, and at least as many as before. *)
Theorem allocations_bounded pg es :
  page_ok pg →
  allocated pg ≤ allocated (banner_run pg es) ≤ allocated pg + mounts es.
Proof.
  intros Hok. split.
  - apply (run_invariant banner_step
              (λ p, page_ok p ∧ allocated pg ≤ allocated p)); [|done].
    intros s e [Hs Hle]. split; [by apply step_ok|].
    rewrite (step_allocated s e Hs). lia.
  - unfold mounts. rewrite <-sum_list_indicator.
    apply (run_bounded banner_step page_ok allocated); auto using step_ok.
    intros s e Hs. rewrite (step_allocated s e Hs).
    case_bool_decide as Hm; [destruct Hm as [-> _]|]; destruct (is_mount e); lia.
Qed.

(** Without a mount no budget is granted. *)
Lemma run_budget_mounted pg es :
  page_ok pg → Forall (λ e, is_mount e = false) es →
  length (invocations (banner_run pg es)) + budget (banner_run pg es) ≤
  length (invocations pg) + budget pg.
Proof.
  intros Hok Hes. pose proof (run_budget pg es Hok) as Hb.
  unfold mounts in Hb. by rewrite length_filter_none, Nat.add_0_r in Hb.
Qed.

(** An instance without budget makes no invocation until the next mount. *)
Lemma run_settled pg es :
  page_ok pg → budget pg = 0 → Forall (λ e, is_mount e = false) es →
  invocations (banner_run pg es) = invocations pg.
Proof.
  intros Hok Hb Hes. symmetry. apply prefix_length_eq.
  - by apply run_log_prefix.
  - pose proof (run_budget_mounted pg es Hok Hes). lia.
Qed.

Lemma budget_loaded pg : loaded_of pg = Some true → budget pg = 0.
Proof. unfold budget. by intros ->. Qed.

(** While the instance stays mounted it makes at most one invocation,
    however often it is re-rendered and whatever the props are. *)
Lemma one_invocation_while_mounted pg es :
  page_ok pg → Forall (λ e, is_mount e = false) es →
  length (invocations (banner_run pg es)) ≤ length (invocations pg) + budget pg
  ∧ budget pg ≤ 1.
Proof.
  intros Hok Hes. pose proof (run_budget_mounted pg es Hok Hes).
  split; [lia|]. unfold budget. repeat case_match; lia.
Qed.

(** C2: once [loaded.current] is true, no re-render, change of props or
    change of the global makes the instance invoke [loadBanner] again. *)
Theorem loaded_is_final pg es :
  page_ok pg → loaded_of pg = Some true →
  Forall (λ e, is_mount e = false) es →
  invocations (banner_run pg es) = invocations pg.
Proof. intros Hok Hl Hes. by apply run_settled; [|apply budget_loaded|]. Qed.

(** *** The initializer is out of reach *)

Lemma step_absent pg e :
  page_ok pg → available (world pg) = None → keeps_absent e = true →
  available (world (banner_step pg e)) = None ∧
  invocations (banner_step pg e) = invocations pg.
Proof.
  intros Hok Ha He. unfold invocations.
  destruct (step_view_of pg e Hok); simpl in *;
    rewrite ?conclude_absent by done; try done.
  rewrite available_with_window. by destruct (available (blank g)).
Qed.

(** With the initializer out of reach the effect does not set the flag:
    the instance is left mounted as it was, or unmounted when [window] is
    not declared. *)
Lemma conclude_absent_flag l props errs w :
  available w = None → flag l w = false →
  loaded_of (conclude l props errs (banner_effect props l w)) ≠ Some true.
Proof.
  intros Ha Hf. destruct (banner_effect_run props l w); unfold loaded_of;
    simpl; congruence.
Qed.

(** A flag that is not set stays so while the initializer is out of
    reach. *)
Lemma step_absent_flag pg e :
  page_ok pg → available (world pg) = None →
  loaded_of pg ≠ Some true → loaded_of (banner_step pg e) ≠ Some true.
Proof.
  intros Hok Ha Hl.
  destruct (step_view_of pg e Hok) as [| | |p Hf|l f p p' Hf|l f p p' Hf];
    try done.
  - apply conclude_absent_flag; [by rewrite available_with_heap|].
    unfold flag. simpl. by rewrite lookup_insert_eq.
  - unfold loaded_of in *. simpl. by rewrite Hf in Hl.
  - unfold loaded_of in Hl. rewrite Hf in Hl. simpl in Hl.
    apply conclude_absent_flag; [done|]. by destruct (flag l (world pg)).
Qed.

(** C22: as long as [window.privacyBanner] is absent at every commit,
    nothing the host does makes the component invoke anything, and nothing
    sets the flag: an instance that had not loaded has not loaded after
    the run, so the initializer, when it arrives, still finds an instance
    that will call it. *)
Theorem absent_never_invokes pg es :
  page_ok pg → available (world pg) = None →
  Forall (λ e, keeps_absent e = true) es →
  invocations (banner_run pg es) = invocations pg ∧
  (loaded_of pg ≠ Some true → loaded_of (banner_run pg es) ≠ Some true).
Proof.
  intros Hok Ha Hes.
  apply (run_invariant_where banner_step (λ e, keeps_absent e = true)
    (λ pg', page_ok pg' ∧ available (world pg') = None ∧
            (invocations pg' = invocations pg ∧
             (loaded_of pg ≠ Some true → loaded_of pg' ≠ Some true))));
    [|done..].
  intros s e He (Hs & Hsa & Hsi & Hsl).
  destruct (step_absent s e Hs Hsa He) as [? Hi].
  split_and!; [by apply step_ok|done|congruence|].
  intros Hl. by apply step_absent_flag; [..|apply Hsl].
Qed.

(** *** The props object does not change *)

Lemma rendered_with_mounted pg l fire props :
  fiber pg = Some (banner_fiber l fire props) →
  rendered_with pg = Some (identity props).
Proof. unfold rendered_with. by intros ->. Qed.

Lemma rendered_with_fiber pg i :
  page_ok pg → rendered_with pg = Some i →
  ∃ l fire props, fiber pg = Some (banner_fiber l fire props) ∧
                  identity props = i.
Proof. intros [|l f p] [= <-]. by exists l, f, p. Qed.

Lemma step_same_props pg e i :
  page_ok pg → rendered_with pg = Some i → same_props i e = true →
  rendered_with (banner_step pg e) = Some i ∧
  invocations (banner_step pg e) = invocations pg ∧
  heap (world (banner_step pg e)) = heap (world pg).
Proof.
  intros Hok Hi He.
  destruct (rendered_with_fiber pg i Hok Hi) as (l0 & f0 & p0 & Hf0 & <-).
  destruct (step_view_of pg e Hok) as [| | |p Hf|l f p p' Hf Hp|l f p p' Hf Hp];
    try done.
  - rewrite Hf0 in Hf. apply (inj Some), banner_fiber_inj in Hf as (_ & _ & Hid).
    unfold rendered_with. simpl. by rewrite Hp, Hid.
  - rewrite Hf0 in Hf. apply (inj Some), banner_fiber_inj in Hf as (_ & _ & Hid).
    simpl in He. case_bool_decide; congruence.
Qed.

(** C5: a re-render with the same props object never runs the effect
    again, so it never re-checks for the initializer: neither the log nor
    the flag changes, even if the script has arrived in the meantime. *)
Theorem same_object_never_rechecks pg es i :
  page_ok pg → rendered_with pg = Some i →
  Forall (λ e, same_props i e = true) es →
  invocations (banner_run pg es) = invocations pg ∧
  heap (world (banner_run pg es)) = heap (world pg).
Proof.
  intros Hok Hi Hes.
  cut (page_ok (banner_run pg es) ∧ rendered_with (banner_run pg es) = Some i ∧
       invocations (banner_run pg es) = invocations pg ∧
       heap (world (banner_run pg es)) = heap (world pg)); [tauto|].
  apply (run_invariant_where banner_step (λ e, same_props i e = true)
    (λ pg', page_ok pg' ∧ rendered_with pg' = Some i ∧
            invocations pg' = invocations pg ∧
            heap (world pg') = heap (world pg))); [|done..].
  intros s e He (Hs & Hsi & Hsc & Hsh).
  destruct (step_same_props s e i Hs Hsi He) as (? & ? & ?).
  split_and!; [by apply step_ok|done|congruence..].
Qed.

(** *** The commits that invoke *)

Lemma called_ok l props w errs : page_ok (called l props w errs).
Proof. eapply page_mounted. simpl. apply lookup_insert_eq. Qed.

Lemma called_budget l props w errs : budget (called l props w errs) = 0.
Proof. unfold budget, loaded_of. simpl. by autorewrite with banner. Qed.

Lemma step_mount_call w errs props b :
  available w = Some b → loadBanner b props = Normal tt →
  banner_step (unmounted w errs) (Mount props) =
  called (fresh (dom (heap w))) props
    (with_heap (<[fresh (dom (heap w)) := VBool false]> (heap w)) w) errs.
Proof.
  intros Ha Hb. simpl. rewrite settle_mount.
  by erewrite conclude_call; [|by autorewrite with banner..].
Qed.

Lemma step_rerender_call pg l fire props props' b :
  fiber pg = Some (banner_fiber l fire props) → flag l (world pg) = false →
  available (world pg) = Some b → loadBanner b props' = Normal tt →
  identity props' ≠ identity props →
  banner_step pg (Rerender props') = called l props' (world pg) (uncaught pg).
Proof.
  intros Hf Hl Ha Hb Hp. simpl. rewrite Hf, settle_update.
  rewrite bool_decide_false by done. by erewrite conclude_call.
Qed.

(** A commit that finds the guard closed leaves the page alone. *)
Lemma conclude_skip l props errs w :
  window w ≠ Undeclared → guard_open l w = false →
  conclude l props errs (banner_effect props l w) =
  {| fiber := Some (banner_fiber l true props); view := Some consent_script;
     world := w; uncaught := errs |}.
Proof. intros Hw Hg. by rewrite banner_effect_skip. Qed.

(** A mount before the initializer is there: the instance is mounted with
    its flag unset, and nothing else has happened. *)
Lemma step_mount_absent w errs props :
  window w ≠ Undeclared → available w = None →
  banner_step (unmounted w errs) (Mount props) =
  {| fiber := Some (banner_fiber (fresh (dom (heap w))) true props);
     view := Some consent_script;
     world := with_heap (<[fresh (dom (heap w)) := VBool false]> (heap w)) w;
     uncaught := errs |}.
Proof.
  intros Hw Ha. simpl. rewrite settle_mount. apply conclude_skip; [done|].
  unfold guard_open. by rewrite available_with_heap, Ha.
Qed.

(** A re-render with the props object of the last render replaces the
    effect of the fiber and touches nothing else. *)
Lemma step_rerender_same pg props :
  page_ok pg → rendered_with pg = Some (identity props) →
  ∃ l fire props0,
    fiber pg = Some (banner_fiber l fire props0) ∧
    banner_step pg (Rerender props) =
    {| fiber := Some (banner_fiber l false props);
       view := Some consent_script; world := world pg;
       uncaught := uncaught pg |}.
Proof.
  intros Hok Hi.
  destruct (rendered_with_fiber pg _ Hok Hi) as (l & fire & p0 & Hf & Hid).
  exists l, fire, p0. split; [done|]. simpl.
  by rewrite Hf, settle_update, bool_decide_true.
Qed.

(** A re-render before the initializer is there: the fiber takes the props
    of the render, and nothing else changes. *)
Lemma step_rerender_absent pg l fire props props' :
  fiber pg = Some (banner_fiber l fire props) →
  window (world pg) ≠ Undeclared → available (world pg) = None →
  ∃ fire',
    banner_step pg (Rerender props') =
    {| fiber := Some (banner_fiber l fire' props');
       view := Some consent_script; world := world pg;
       uncaught := uncaught pg |}.
Proof.
  intros Hf Hw Ha. simpl. rewrite Hf, settle_update.
  case_bool_decide; [by eexists|]. exists true.
  apply conclude_skip; [done|]. unfold guard_open. by rewrite Ha.
Qed.

(** Without the initializer, in a browser, no step raises anything. *)
Lemma step_absent_uncaught pg e :
  page_ok pg → window (world pg) ≠ Undeclared →
  available (world pg) = None →
  uncaught (banner_step pg e) = uncaught pg.
Proof.
  intros Hok Hw Ha.
  destruct (step_view_of pg e Hok) as [| | |p Hf|l f p p' Hf|l f p p' Hf];
    try done.
  - rewrite conclude_skip; [done..|].
    unfold guard_open. by rewrite available_with_heap, Ha.
  - rewrite conclude_skip; [done..|]. unfold guard_open. by rewrite Ha.
Qed.

(** A mount with the initializer present and returning invokes it
    once with the props of the mount, sets the flag and raises nothing. *)
Lemma mount_invokes w errs props b :
  available w = Some b → loadBanner b props = Normal tt →
  invocations (banner_step (unmounted w errs) (Mount props)) =
    calls w ++ [props] ∧
  loaded_of (banner_step (unmounted w errs) (Mount props)) = Some true ∧
  uncaught (banner_step (unmounted w errs) (Mount props)) = errs.
Proof.
  intros Ha Hb. rewrite (step_mount_call w errs props b) by done.
  unfold invocations, loaded_of. simpl. by autorewrite with banner.
Qed.

(** A re-render with a new props object, the initializer present and
    the flag unset invokes it once, with the props of that render. *)
Lemma rerender_invokes pg l fire props props' b :
  fiber pg = Some (banner_fiber l fire props) → flag l (world pg) = false →
  available (world pg) = Some b → loadBanner b props' = Normal tt →
  identity props' ≠ identity props →
  invocations (banner_step pg (Rerender props')) =
    invocations pg ++ [props'] ∧
  loaded_of (banner_step pg (Rerender props')) = Some true.
Proof.
  intros Hf Hl Ha Hb Hp.
  rewrite (step_rerender_call pg l fire props props' b) by done.
  unfold invocations, loaded_of. simpl. by autorewrite with banner.
Qed.

(** C34: a mount whose [loadBanner] throws leaves the instance unmounted,
    the exception with the host, the invocation in the log, and no flag
    set. *)
Theorem mount_throwing w errs props b (x : exn) :
  available w = Some b → loadBanner b props = Throw x →
  fiber (banner_step (unmounted w errs) (Mount props)) = None ∧
  uncaught (banner_step (unmounted w errs) (Mount props)) = errs ++ [x] ∧
  invocations (banner_step (unmounted w errs) (Mount props)) =
    calls w ++ [props] ∧
  flag (fresh (dom (heap w)))
    (world (banner_step (unmounted w errs) (Mount props))) = false.
Proof.
  intros Ha Hb. simpl. rewrite settle_mount.
  erewrite conclude_throw; [|by autorewrite with banner..].
  unfold invocations. simpl. by autorewrite with banner.
Qed.

(** *** Scenarios of the specification *)

(** C18: initializer present at mount: [loadBanner] is invoked once with
    exactly the props object of the mount, and no later re-render, with the
    same or another configuration, adds an invocation. *)
Theorem present_at_mount b props es :
  loadBanner b props = Normal tt →
  Forall (λ e, is_mount e = false) es →
  invocations (banner_run (initial (script_loaded b)) (Mount props :: es)) =
    [props].
Proof.
  intros Hb Hes. rewrite run_cons.
  unfold initial. rewrite (step_mount_call _ _ props b) by done.
  by rewrite run_settled by auto using called_ok, called_budget.
Qed.

(** C17: the initializer arrives after the mount: the first re-render
    with a new props object invokes it once, with the props of that render,
    and nothing after that adds an invocation while the instance stays
    mounted. *)
Theorem arrives_later pg l fire props props' b es :
  page_ok pg → fiber pg = Some (banner_fiber l fire props) →
  flag l (world pg) = false → loadBanner b props' = Normal tt →
  identity props' ≠ identity props →
  Forall (λ e, is_mount e = false) es →
  invocations
    (banner_run pg (Environment (script_loaded b) :: Rerender props' :: es)) =
  invocations pg ++ [props'].
Proof.
  intros Hok Hf Hl Hb Hp Hes. rewrite !run_cons.
  rewrite (step_rerender_call _ l fire props props' b) by done.
  by rewrite run_settled by auto using called_ok, called_budget.
Qed.

(** C32: unmounting and mounting again gives a fresh flag: the new
    instance invokes [loadBanner] once more, with its own props. *)
Theorem remount_invokes_again pg props b :
  is_Some (fiber pg) → available (world pg) = Some b →
  loadBanner b props = Normal tt →
  invocations (banner_run pg [Unmount; Mount props]) =
    invocations pg ++ [props] ∧
  loaded_of (banner_run pg [Unmount; Mount props]) = Some true.
Proof.
  intros [hs Hf] Ha Hb. rewrite !run_cons, run_nil.
  replace (banner_step pg Unmount) with (unmounted (world pg) (uncaught pg))
    by (simpl; by rewrite Hf).
  rewrite (step_mount_call _ _ props b) by done.
  unfold invocations, loaded_of. simpl. by autorewrite with banner.
Qed.

(** *** What the component leaves alone *)

(** The component never writes to [window]: only the environment changes
    the global. *)
Lemma step_window pg e :
  page_ok pg →
  window (world (banner_step pg e)) =
  match e with Environment g => g | _ => window (world pg) end.
Proof.
  intros Hok.
  destruct (step_view_of pg e Hok) as [e He| |g|p Hf|l f p p' Hf Hp|l f p p' Hf Hp];
    try done.
  - by destruct e.
  - apply (conclude_window _ _ _ (with_heap _ _)).
  - apply conclude_window.
Qed.

Lemma step_keeps_true pg e l :
  page_ok pg → heap (world pg) !! l = Some (VBool true) →
  heap (world (banner_step pg e)) !! l = Some (VBool true).
Proof.
  intros Hok Hl.
  destruct (step_view_of pg e Hok) as [e He| |g|p Hf|l0 f p p' Hf Hp|l0 f p p' Hf Hp];
    try done.
  - apply conclude_keeps_true. simpl. rewrite lookup_insert_ne; [done|].
    intros <-. by rewrite (not_elem_of_dom_1 _ _ (is_fresh _)) in Hl.
  - by apply conclude_keeps_true.
Qed.

(** The transition of the flag is one-way: a ref that holds true
    holds true after every run, also across unmounts and mounts. *)
Lemma flag_never_reset pg es l :
  page_ok pg → heap (world pg) !! l = Some (VBool true) →
  heap (world (banner_run pg es)) !! l = Some (VBool true).
Proof.
  intros Hok Hl.
  cut (page_ok (banner_run pg es) ∧
       heap (world (banner_run pg es)) !! l = Some (VBool true)); [tauto|].
  apply (run_invariant banner_step
    (λ pg', page_ok pg' ∧ heap (world pg') !! l = Some (VBool true)));
    [|done].
  intros s e [Hs Hsl]. split; [by apply step_ok|by apply step_keeps_true].
Qed.

(** On every page of a banner, so on every page the host reaches,
    a render of the component completes: it never calls more, fewer or
    other hooks than the fiber holds. *)
Lemma render_never_fails pg props w :
  page_ok pg →
  is_normal
    (render_with_hooks ShopifyCookieBanner props (fiber pg) w).1 = true.
Proof.
  intros Hok.
  by apply (render_completes ShopifyCookieBanner [KRef; KEffect]),
    page_ok_shaped.
Qed.

(** [loaded] is one object for the life of an instance: a re-render that
    leaves the instance mounted leaves it with the ref it had. *)
Lemma rerender_keeps_loaded pg props cur hs :
  page_ok pg → fiber pg = Some cur →
  fiber (banner_step pg (Rerender props)) = Some hs →
  refs_of hs = refs_of cur.
Proof.
  intros Hok. apply (rerender_refs ShopifyCookieBanner [KRef; KEffect]).
  by apply page_ok_shaped.
Qed.

(** *** The relation *)

(** Every page reachable by the rules of the host from a fresh page
    is a page of a banner: the invariant, by induction on the rules. *)
Lemma reachable_ok g pg :
  reachable ShopifyCookieBanner (initial g) pg → page_ok pg.
Proof.
  revert pg. apply rtc_ind_r.
  - apply initial_ok.
  - intros pg1 pg2 _ [e He] IH.
    apply lifecycle_step in He as [_ <-]. by apply step_ok.
Qed.

End runs.

(** ** The theorems at concrete pages *)

Lemma invocations_rendered_witness :
  ∃ new,
    invocations
      (banner_run early_page
         [Rerender example_props; Environment (script_loaded banner_ok);
          Rerender other_props; Unmount; Mount example_props]) =
      invocations early_page ++ new ∧
    new `sublist_of`
      [Rerender example_props; Environment (script_loaded banner_ok);
       Rerender other_props; Unmount; Mount example_props] ≫= props_of.
Proof. apply invocations_rendered, run_ok, initial_ok. Defined.

Lemma allocations_bounded_witness :
  allocated early_page ≤
    allocated
      (banner_run early_page
         [Rerender other_props; Unmount; Mount example_props;
          Mount other_props]) ≤
    allocated early_page +
      mounts [Rerender other_props; Unmount; Mount example_props;
              Mount other_props].
Proof. apply allocations_bounded, run_ok, initial_ok. Defined.

Lemma loaded_is_final_witness :
  invocations
    (banner_run scenario_page
       [Rerender other_props; Environment script_pending;
        Environment (script_loaded banner_ok); Rerender example_props;
        Unmount]) =
  invocations scenario_page.
Proof.
  apply loaded_is_final; [apply run_ok, initial_ok|done|by repeat constructor].
Defined.

Lemma absent_never_invokes_witness :
  invocations
    (banner_run early_page
       [Rerender other_props; Environment Nullish; Rerender example_props;
        Unmount; Mount other_props]) =
  invocations early_page ∧
  (loaded_of early_page ≠ Some true →
   loaded_of
     (banner_run early_page
        [Rerender other_props; Environment Nullish; Rerender example_props;
         Unmount; Mount other_props]) ≠ Some true).
Proof.
  apply absent_never_invokes; [apply run_ok, initial_ok|done|].
  by repeat constructor.
Defined.

Lemma same_object_never_rechecks_witness :
  invocations
    (banner_run early_page
       [Environment (script_loaded banner_ok); Rerender example_props;
        Rerender example_props]) =
    invocations early_page ∧
  heap (world
          (banner_run early_page
             [Environment (script_loaded banner_ok); Rerender example_props;
              Rerender example_props])) =
    heap (world early_page).
Proof.
  apply (same_object_never_rechecks early_page _ 100);
    [apply run_ok, initial_ok|done|by repeat constructor].
Defined.

Lemma mount_throwing_witness :
  fiber
    (banner_step (unmounted (blank (script_loaded banner_failing)) [])
       (Mount example_props)) = None ∧
  uncaught
    (banner_step (unmounted (blank (script_loaded banner_failing)) [])
       (Mount example_props)) = [] ++ [TypeError "loadBanner failed"] ∧
  invocations
    (banner_step (unmounted (blank (script_loaded banner_failing)) [])
       (Mount example_props)) =
    calls (blank (script_loaded banner_failing)) ++ [example_props] ∧
  flag (fresh (dom (heap (blank (script_loaded banner_failing)))))
    (world
       (banner_step (unmounted (blank (script_loaded banner_failing)) [])
          (Mount example_props))) = false.
Proof. by apply (mount_throwing _ _ _ banner_failing). Defined.

Lemma present_at_mount_witness :
  invocations
    (banner_run (initial (script_loaded banner_ok))
       (Mount example_props ::
        [Rerender example_props; Rerender other_props])) =
  [example_props].
Proof. apply present_at_mount; [done|by repeat constructor]. Defined.

Lemma arrives_later_witness :
  invocations
    (banner_run early_page
       (Environment (script_loaded banner_ok) :: Rerender other_props ::
        [Rerender example_props; Rerender other_props])) =
  invocations early_page ++ [other_props].
Proof.
  apply (arrives_later early_page 1 true example_props other_props banner_ok);
    [apply run_ok, initial_ok|done..|by repeat constructor].
Defined.

Lemma remount_invokes_again_witness :
  invocations (banner_run scenario_page [Unmount; Mount other_props]) =
    invocations scenario_page ++ [other_props] ∧
  loaded_of (banner_run scenario_page [Unmount; Mount other_props]) =
    Some true.
Proof. by apply (remount_invokes_again scenario_page other_props banner_ok). Defined.

