(* ===== verification/Contract.v ===== *)
(** * Contract: the loader of the specification and the refinement to it

    The specification describes the component as a machine with two phases,
    not-initialized and initialized, and one one-way transition, taken when
    a check finds the initializer present.  This file states that machine,
    maps the pages and events of [Lifecycle] to it, and proves that the
    implementation refines it wherever the specification speaks: in a
    browser, with an initializer that returns.  A re-render is a check of
    the machine when it brings a new props object ([seen_as]); read as a
    check at every re-render ([seen_naively]), the machine and the
    component differ at exactly one event ([missed_check]). *)

From S2P Require Import Prelude Js Browser React Banner Lifecycle.

(** ** The abstract machine *)

Inductive phase : Type := NotInitialized | Initialized.

#[export] Instance phase_eq_dec : EqDecision phase.
Proof. solve_decision. Defined.

(** [instance]: the phase of the mounted instance, [None] without one.
    [issued]: the configurations the initializer was called with. *)
Record loader : Type := {
  instance : option phase;
  issued : list (object PrivacyConsentBannerProps);
}.

(** What the loader is asked to do: start an instance and check, check
    again, nothing, or drop the instance.  A check carries whether the
    initializer is available and the configuration of the render. *)
Inductive action : Type :=
  | Instantiate (present : bool) (config : object PrivacyConsentBannerProps)
  | Recheck (present : bool) (config : object PrivacyConsentBannerProps)
  | Idle
  | Dispose.

Definition phase_of (b : bool) : phase :=
  if b then Initialized else NotInitialized.

(** One check: the only transition is from not-initialized, with the
    initializer present, and it issues one call. *)
Definition check (present : bool) (config : object PrivacyConsentBannerProps)
    (ph : phase) (s : loader) : loader :=
  match ph, present with
  | NotInitialized, true =>
      {| instance := Some Initialized; issued := issued s ++ [config] |}
  | _, _ => {| instance := Some ph; issued := issued s |}
  end.

Definition loader_step (s : loader) (a : action) : loader :=
  match a, instance s with
  | Instantiate present config, None => check present config NotInitialized s
  | Recheck present config, Some ph => check present config ph s
  | Dispose, Some _ => {| instance := None; issued := issued s |}
  | _, _ => s
  end.

Definition loader_run (s : loader) (acts : list action) : loader :=
  foldl loader_step s acts.

Definition loader_initial : loader := {| instance := None; issued := [] |}.

(** The two halves of a step: where the phase goes, and what is called. *)
Definition next_phase (ph : option phase) (a : action) : option phase :=
  match a, ph with
  | Instantiate present _, None => Some (phase_of present)
  | Recheck present _, Some NotInitialized => Some (phase_of present)
  | Dispose, Some _ => None
  | _, _ => ph
  end.

Definition emitted (ph : option phase) (a : action) :
    list (object PrivacyConsentBannerProps) :=
  match a, ph with
  | Instantiate true config, None
  | Recheck true config, Some NotInitialized => [config]
  | _, _ => []
  end.

(** ** From the implementation to the machine *)

(** The loader a page stands for. *)
Definition abstraction (pg : Page) : loader :=
  {| instance := phase_of <$> loaded_of pg; issued := invocations pg |}.

(** How the loader sees an event delivered to a page.  A re-render with
    the props object of the last render is no check at all. *)
Definition seen_as (pg : Page) (e : banner_event) : action :=
  match e, fiber pg with
  | Mount props, None => Instantiate (truthy (available (world pg))) props
  | Rerender props, Some _ =>
      if bool_decide (rendered_with pg = Some (identity props)) then Idle
      else Recheck (truthy (available (world pg))) props
  | Unmount, Some _ => Dispose
  | _, _ => Idle
  end.

(** The reading the text of the specification suggests: every re-render
    checks. *)
Definition seen_naively (pg : Page) (e : banner_event) : action :=
  match e, fiber pg with
  | Mount props, None => Instantiate (truthy (available (world pg))) props
  | Rerender props, Some _ => Recheck (truthy (available (world pg))) props
  | Unmount, Some _ => Dispose
  | _, _ => Idle
  end.

(** The actions of a run, each seen on the page it is delivered to. *)
Fixpoint trace (pg : Page) (es : list banner_event) : list action :=
  match es with
  | [] => []
  | e :: es => seen_as pg e :: trace (banner_step pg e) es
  end.

(** The actions of a run under the reading in which every re-render
    checks. *)
Fixpoint naive_trace (pg : Page) (es : list banner_event) : list action :=
  match es with
  | [] => []
  | e :: es => seen_naively pg e :: naive_trace (banner_step pg e) es
  end.

(** An event that is no re-render with the props object of the last
    render. *)
Definition renewing (pg : Page) (e : banner_event) : bool :=
  match e with
  | Rerender props =>
      negb (bool_decide (rendered_with pg = Some (identity props)))
  | _ => true
  end.

(** Every re-render of a run brings a props object of its own: what a
    parent does that builds the element of the banner anew at each of its
    renders.  The component has no state and reads no context, so in
    production nothing else makes React render it again. *)
Fixpoint renews (pg : Page) (es : list banner_event) : bool :=
  match es with
  | [] => true
  | e :: es => renewing pg e && renews (banner_step pg e) es
  end.

(** The check the component does not make: a re-render with the props
    object of the last render while the instance has not loaded and the
    initializer is in reach. *)
Definition missed_check (pg : Page) (e : banner_event) : bool :=
  match e with
  | Rerender props =>
      bool_decide (rendered_with pg = Some (identity props)) &&
      bool_decide (loaded_of pg = Some false) &&
      truthy (available (world pg))
  | _ => false
  end.

(** The specification speaks of a browser ([window] is declared) and of an
    initializer that returns. *)
Definition tame (g : global Window) : Prop :=
  g ≠ Undeclared ∧
  ∀ b props, available (blank g) = Some b → loadBanner b props = Normal tt.

Definition tame_event (e : banner_event) : Prop :=
  match e with Environment g => tame g | _ => True end.

(** ** Refinement *)

Section simulation.
Implicit Types (pg : Page) (e : banner_event) (es : list banner_event).
Implicit Types (w : World) (l : loc) (errs : list exn).
Implicit Types props : object PrivacyConsentBannerProps.

Lemma tame_script_loaded b :
  (∀ props, loadBanner b props = Normal tt) → tame (script_loaded b).
Proof. intros Hb. split; [done|]. by intros b' props [= <-]. Qed.

Lemma tame_script_pending : tame script_pending.
Proof. by split. Qed.

Lemma tame_world w b props :
  tame (window w) → available w = Some b → loadBanner b props = Normal tt.
Proof. intros [_ Ht]. apply Ht. Qed.

(** A commit of the implementation is a check of the loader. *)
Lemma conclude_abstraction l props errs w :
  tame (window w) →
  abstraction (conclude l props errs (banner_effect props l w)) =
  check (truthy (available w)) props (phase_of (flag l w))
    {| instance := None; issued := calls w |}.
Proof.
  intros Hw.
  destruct (banner_effect_run props l w) as [Hu|_ Hg|b Ha Hf Hb|b x Ha Hf Hb].
  - by destruct Hw.
  - unfold abstraction, loaded_of, invocations, check, guard_open in *. simpl.
    destruct (available w), (flag l w); simplify_eq/=; done.
  - unfold abstraction, loaded_of, invocations, check. simpl.
    autorewrite with banner. by rewrite Ha, Hf.
  - by rewrite (tame_world w b props Hw Ha) in Hb.
Qed.

Lemma abstraction_mounted pg l fire props :
  fiber pg = Some (banner_fiber l fire props) →
  abstraction pg =
  {| instance := Some (phase_of (flag l (world pg)));
     issued := invocations pg |}.
Proof. unfold abstraction, loaded_of. by intros ->. Qed.

Lemma abstraction_unmounted pg :
  fiber pg = None →
  abstraction pg = {| instance := None; issued := invocations pg |}.
Proof. unfold abstraction, loaded_of. by intros ->. Qed.

Lemma loader_step_idle (s : loader) : loader_step s Idle = s.
Proof. unfold loader_step. by destruct (instance s). Qed.

Lemma seen_as_rerender pg l fire props props' :
  fiber pg = Some (banner_fiber l fire props) →
  seen_as pg (Rerender props') =
  if bool_decide (identity props' = identity props) then Idle
  else Recheck (truthy (available (world pg))) props'.
Proof.
  intros Hf. unfold seen_as. rewrite (rendered_with_mounted pg l fire props Hf).
  rewrite Hf. apply (f_equal (λ b : bool, if b then _ else _)).
  apply bool_decide_ext. split; congruence.
Qed.

Lemma seen_as_disabled pg e : enabled e pg = false → seen_as pg e = Idle.
Proof. unfold enabled, seen_as. by destruct e, (fiber pg). Qed.

(** One step of the implementation is one step of the loader of the
    specification: a mount is an instantiation with a check, a re-render
    with a new props object is a check, an unmount drops the instance, and
    the invocations are the calls the loader issues. *)
Lemma refinement_step pg e :
  page_ok pg → tame (window (world pg)) →
  abstraction (banner_step pg e) = loader_step (abstraction pg) (seen_as pg e).
Proof.
  intros Hok Hw.
  destruct (step_view_of pg e Hok) as [e He| [hs Hf] |g|p Hf|l f p p' Hf Hp|l f p p' Hf Hp].
  - by rewrite seen_as_disabled, loader_step_idle.
  - destruct (page_ok_mounted pg hs Hok Hf) as (l & f & p & b & -> & _).
    unfold seen_as. rewrite Hf, (abstraction_mounted pg l f p Hf).
    by rewrite abstraction_unmounted.
  - by rewrite loader_step_idle.
  - rewrite conclude_abstraction by done. unfold seen_as.
    rewrite Hf, (abstraction_unmounted pg Hf). simpl.
    by autorewrite with banner.
  - rewrite (seen_as_rerender pg l f p p' Hf), bool_decide_true by done.
    by rewrite loader_step_idle, (abstraction_mounted pg l f p Hf).
  - rewrite conclude_abstraction by done.
    rewrite (seen_as_rerender pg l f p p' Hf), bool_decide_false by done.
    rewrite (abstraction_mounted pg l f p Hf). simpl.
    by destruct (flag l (world pg)), (truthy _).
Qed.

Lemma step_tame pg e :
  page_ok pg → tame (window (world pg)) → tame_event e →
  tame (window (world (banner_step pg e))).
Proof. intros Hok Hw He. rewrite step_window by done. by destruct e. Qed.

Lemma run_refines pg es :
  page_ok pg → tame (window (world pg)) → Forall tame_event es →
  abstraction (banner_run pg es) = loader_run (abstraction pg) (trace pg es).
Proof.
  intros Hok Hw Hes. revert pg Hok Hw.
  induction Hes as [|e es He _ IH]; intros pg Hok Hw; [done|].
  rewrite run_cons. simpl. rewrite <-refinement_step by done.
  apply IH; [by apply step_ok|by apply step_tame].
Qed.

(** C3: every run of the implementation in a browser, with initializers
    that return, is a run of the loader of the specification. *)
Theorem refinement pg es :
  page_ok pg → tame (window (world pg)) → Forall tame_event es →
  abstraction (banner_run pg es) = loader_run (abstraction pg) (trace pg es).
Proof. apply run_refines. Qed.

(** A re-render with an object of its own is a check under both
    readings. *)
Lemma seen_naively_renewing pg e :
  renewing pg e = true → seen_naively pg e = seen_as pg e.
Proof.
  destruct e as [props|props| |g]; try done. unfold seen_naively, seen_as.
  simpl. intros ?%negb_true_iff. by case_bool_decide.
Qed.

Lemma naive_trace_renews pg es :
  renews pg es = true → naive_trace pg es = trace pg es.
Proof.
  revert pg. induction es as [|e es IH]; intros pg; [done|].
  simpl. intros [He Hes]%andb_true_iff.
  by rewrite seen_naively_renewing, IH.
Qed.

(** Read with every re-render as a check, as the text of the contract
    has it, the loader is refined by every run in which each re-render
    brings a props object of its own: what a parent does that builds the
    element anew at each of its renders. *)
Lemma naive_refinement pg es :
  page_ok pg → tame (window (world pg)) → Forall tame_event es →
  renews pg es = true →
  abstraction (banner_run pg es) =
  loader_run (abstraction pg) (naive_trace pg es).
Proof.
  intros Hok Hw Hes Hr. rewrite naive_trace_renews by done.
  by apply run_refines.
Qed.

(** A re-render with the props object of the last render, read as a
    check: the loader calls when it has not called yet and the initializer
    is there, and does nothing otherwise. *)
Lemma naive_recheck pg props :
  page_ok pg → rendered_with pg = Some (identity props) →
  loader_step (abstraction pg) (seen_naively pg (Rerender props)) =
  if missed_check pg (Rerender props)
  then {| instance := Some Initialized; issued := invocations pg ++ [props] |}
  else abstraction pg.
Proof.
  intros Hok Hi.
  destruct (rendered_with_fiber pg _ Hok Hi) as (l & fire & p0 & Hf & _).
  unfold missed_check, seen_naively. rewrite bool_decide_true by done.
  rewrite Hf, (abstraction_mounted pg l fire p0 Hf). unfold loaded_of.
  rewrite Hf. simpl.
  by destruct (flag l (world pg)), (truthy (available (world pg))).
Qed.

(** The implementation at such a re-render does nothing. *)
Lemma same_object_abstraction pg props :
  page_ok pg → tame (window (world pg)) →
  rendered_with pg = Some (identity props) →
  abstraction (banner_step pg (Rerender props)) = abstraction pg.
Proof.
  intros Hok Hw Hi. rewrite refinement_step by done.
  destruct (rendered_with_fiber pg _ Hok Hi) as (l & fire & p0 & Hf & _).
  unfold seen_as. by rewrite Hf, bool_decide_true, loader_step_idle.
Qed.

(** C9: where the component departs from the contract as its text reads:
    with every re-render read as a check, a step of the component is the
    step of the loader, in a browser whose initializers return, for every
    event but one: a re-render with the props object of the last render
    while the instance has not loaded and the initializer is in reach.
    There the loader calls and the component does nothing. *)
Theorem missed_check_exact pg e :
  page_ok pg → tame (window (world pg)) →
  abstraction (banner_step pg e) =
    loader_step (abstraction pg) (seen_naively pg e)
  ↔ missed_check pg e = false.
Proof.
  intros Hok Hw. destruct (renewing pg e) eqn:Hr.
  - rewrite seen_naively_renewing by done. split; [|by intros; apply refinement_step].
    intros _. destruct e; try done. simpl in *.
    apply negb_true_iff in Hr. by rewrite Hr.
  - destruct e as [|props| |]; try done.
    apply negb_false_iff, bool_decide_eq_true in Hr.
    rewrite (same_object_abstraction pg props), (naive_recheck pg props)
      by done.
    destruct (missed_check pg (Rerender props)); [|done].
    split; [|done]. intros [= _ Hiss]. unfold invocations in Hiss.
    by apply (f_equal length) in Hiss; rewrite length_app in Hiss; simpl in *; lia.
Qed.

(** The refinement does not hold if every re-render is read as a
    check, as the text of the contract has it: a re-render with the same
    props object, after the script has arrived, checks nothing, where the
    loader would call. *)
Lemma every_rerender_is_not_a_check :
  ∃ pg e,
    page_ok pg ∧ tame (window (world pg)) ∧ tame_event e ∧
    issued (abstraction (banner_step pg e)) = [] ∧
    issued (loader_step (abstraction pg) (seen_naively pg e)) = [example_props].
Proof.
  exists (banner_step early_page (Environment (script_loaded banner_ok))),
    (Rerender example_props).
  split_and!; [apply step_ok, run_ok, initial_ok| |done..].
  by apply tame_script_loaded.
Qed.

End simulation.

(** ** The machine by itself *)

Section loader.
Implicit Types (s : loader) (a : action) (acts : list action).

(** A step moves the phase and appends what it calls; neither depends on
    the calls made before. *)
Lemma loader_step_split s a :
  loader_step s a =
  {| instance := next_phase (instance s) a;
     issued := issued s ++ emitted (instance s) a |}.
Proof.
  destruct s as [[[]|] cs], a as [[]|[]| |]; simpl; unfold check; simpl;
    by rewrite ?app_nil_r.
Qed.

(** The phase only moves forward while the instance lives. *)
Lemma loader_step_one_way s a :
  instance s = Some Initialized → a ≠ Dispose →
  instance (loader_step s a) = Some Initialized ∧
  issued (loader_step s a) = issued s.
Proof.
  intros Hs Ha. destruct a as [present config|present config| |]; simpl;
    rewrite Hs; unfold check; simpl; try done.
Qed.

End loader.

(** ** The theorems at concrete pages *)

Lemma refinement_witness :
  abstraction
    (banner_run (initial script_pending)
       [Mount example_props; Environment (script_loaded banner_ok);
        Rerender example_props; Rerender other_props; Unmount]) =
  loader_run (abstraction (initial script_pending))
    (trace (initial script_pending)
       [Mount example_props; Environment (script_loaded banner_ok);
        Rerender example_props; Rerender other_props; Unmount]).
Proof.
  apply refinement; [apply initial_ok|apply tame_script_pending|].
  repeat first [apply Forall_nil_2|apply Forall_cons_2]; try exact I.
  by apply tame_script_loaded.
Defined.

Lemma missed_check_exact_witness :
  abstraction
    (banner_step (banner_step early_page (Environment (script_loaded banner_ok)))
       (Rerender example_props)) =
    loader_step
      (abstraction
         (banner_step early_page (Environment (script_loaded banner_ok))))
      (seen_naively
         (banner_step early_page (Environment (script_loaded banner_ok)))
         (Rerender example_props))
  ↔ missed_check
      (banner_step early_page (Environment (script_loaded banner_ok)))
      (Rerender example_props) = false.
Proof.
  apply missed_check_exact; [apply step_ok, run_ok, initial_ok|].
  by apply tame_script_loaded.
Defined.
