(* ===== verification/Strict.v ===== *)
(** * Strict: the second pass of StrictMode

    In development React's StrictMode runs the effects of a component a
    second time right after its mount, on the same fiber: the ref objects
    are kept, so a flag set by the first pass is seen by the second.  The
    ref [loaded] of [ShopifyCookieBanner] makes the second pass a no-op.
    The double call of the component function itself, whose first result
    is dropped before any effect runs, is the matter of [Twice]. *)

From S2P Require Import Prelude Js Browser React Banner Lifecycle.

(** ** The second pass *)

(** Every effect of a fiber, flagged or not, in call order. *)
Definition all_effects (hs : list hook) : list (Eff unit) :=
  omap (λ h, match h with
             | EffectHook _ create _ => Some create
             | _ => None
             end) hs.

Section strict.
Context {P : Type} (C : P → Render node).

(** Run the effects of the mounted instance again.  An exception reaches
    the host, which unmounts the instance. *)
Definition replay (pg : Page) : Page :=
  match fiber pg with
  | Some hs =>
      match st_seq (all_effects hs) (world pg) with
      | (Normal _, w) =>
          {| fiber := Some hs; view := view pg; world := w;
             uncaught := uncaught pg |}
      | (Throw e, w) => unmounted w (uncaught pg ++ [e])
      end
  | None => pg
  end.

(** The host under StrictMode: a mount is followed by the second pass. *)
Definition strict_step (pg : Page) (e : event P) : Page :=
  match e, fiber pg with
  | Mount _, None => replay (step C pg e)
  | _, _ => step C pg e
  end.

Definition strict_run (pg : Page) (es : list (event P)) : Page :=
  foldl strict_step pg es.

End strict.

(** ** The banner under StrictMode *)

Section banner.
Implicit Types (pg : Page) (e : banner_event) (es : list banner_event).
Implicit Types (w : World) (l : loc) (errs : list exn).
Implicit Types props : object PrivacyConsentBannerProps.

(** The second pass of a banner is one more run of its effect. *)
Lemma replay_banner l fire props v w errs :
  replay {| fiber := Some (banner_fiber l fire props); view := v; world := w;
            uncaught := errs |} =
  match banner_effect props l w with
  | (Normal _, w') =>
      {| fiber := Some (banner_fiber l fire props); view := v; world := w';
         uncaught := errs |}
  | (Throw x, w') => unmounted w' (errs ++ [x])
  end.
Proof.
  unfold replay. simpl. st_unfold.
  by destruct (banner_effect props l w) as [[[]|x] w'].
Qed.

(** The second pass changes nothing on a page whose effect has just run. *)
Lemma replay_conclude l props errs w :
  replay (conclude l props errs (banner_effect props l w)) =
  conclude l props errs (banner_effect props l w).
Proof.
  pose proof (banner_effect_run props l w) as Hr.
  destruct (banner_effect props l w) as [[[]|x] w1]; [|done].
  apply effect_run_settled in Hr as [Hw Hg].
  simpl. by rewrite replay_banner, banner_effect_skip.
Qed.

Lemma strict_step_banner pg e :
  strict_step ShopifyCookieBanner pg e = banner_step pg e.
Proof.
  destruct e as [props|props| |g]; try done.
  unfold strict_step. destruct (fiber pg) eqn:Hf; [done|].
  simpl. rewrite Hf, settle_mount. apply replay_conclude.
Qed.

(** StrictMode cannot be observed on the banner: with the second pass
    of the effects after every mount, every run of the host ends on the
    page it ends on without it, so [loadBanner] is invoked no second
    time. *)
Lemma strict_mode_unobservable pg es :
  strict_run ShopifyCookieBanner pg es = banner_run pg es.
Proof.
  revert pg. induction es as [|e es IH]; intros pg; [done|].
  simpl. by rewrite strict_step_banner, IH.
Qed.

(** A second pass on a page where the initializer has arrived since
    the last commit is a check like any other: it invokes [loadBanner] with
    the props of the last render and sets the flag. *)
Lemma replay_checks l fire props v w errs b :
  available w = Some b → flag l w = false → loadBanner b props = Normal tt →
  replay {| fiber := Some (banner_fiber l fire props); view := v; world := w;
            uncaught := errs |} =
  {| fiber := Some (banner_fiber l fire props); view := v;
     world := with_heap (<[l := VBool true]> (heap w)) (log_call props w);
     uncaught := errs |}.
Proof.
  intros Ha Hf Hb. by rewrite replay_banner, (banner_effect_call props l w b), Hb.
Qed.

End banner.
