(* ===== verification/Twice.v ===== *)
(** * Twice: the double render of StrictMode

    In a development build React 18 calls a component function twice at
    every render under StrictMode: [renderWithHooks] runs a second time
    over the same committed fiber, and the hooks and the element of the
    first call are dropped.  What the first call did to the page is not
    undone: at a mount it has allocated the object of [useRef], which no
    fiber keeps.  (React 19 keeps the hooks of the first call for the
    second; the double render then allocates nothing and is the render of
    [React].)

    The file states the host of a development build ([dev_step]: the
    double render at every render, and after a mount the second pass of
    the effects of [Strict]), shows that for the banner it is the plain
    host on a page that holds one object more ([spare]), and that nothing
    the host or the user observes tells the two apart: the ref of the
    instance is another object with the same content ([similar], a
    partial equivalence that the host and the observations respect). *)

From S2P Require Import Prelude Js Browser React Banner Lifecycle Strict.

(** ** The host of a development build *)

Section twice.
Context {P : Type} (C : P → Render node).

(** A render whose result is dropped, then the render that counts.  An
    exception of the first call reaches the host like one of the second. *)
Definition settle_twice (cur : option (list hook)) (props : P) (pg : Page) :
    Page :=
  match render_with_hooks C props cur (world pg) with
  | (Normal _, w) =>
      settle C cur props
        {| fiber := fiber pg; view := view pg; world := w;
           uncaught := uncaught pg |}
  | (Throw e, w) => unmounted w (uncaught pg ++ [e])
  end.

(** The host under StrictMode: every render is double, and a mount is
    followed by the second pass of its effects. *)
Definition dev_step (pg : Page) (e : event P) : Page :=
  match e, fiber pg with
  | Mount props, None => replay (settle_twice None props pg)
  | Rerender props, Some hs => settle_twice (Some hs) props pg
  | _, _ => step C pg e
  end.

Definition dev_run (pg : Page) (es : list (event P)) : Page :=
  foldl dev_step pg es.

End twice.

(** ** Pages up to the object of the ref *)

(** The page on which the first call of a mount has left its object. *)
Definition spare (pg : Page) (e : banner_event) : Page :=
  match e, fiber pg with
  | Mount _, None =>
      {| fiber := None; view := view pg;
         world := (ref_alloc loaded_initial (world pg)).2;
         uncaught := uncaught pg |}
  | _, _ => pg
  end.

(** Two worlds an instance cannot tell apart: the same global, the same
    invocations, and the same content in its ref, which is the object [l]
    in one and [l'] in the other. *)
Definition alike (l l' : loc) (w w' : World) : Prop :=
  window w = window w' ∧ calls w = calls w' ∧ heap w !! l = heap w' !! l'.

(** Two pages that differ in the objects of their heaps only. *)
Inductive similar : relation Page :=
  | similar_unmounted w w' errs :
      window w = window w' → calls w = calls w' →
      similar (unmounted w errs) (unmounted w' errs)
  | similar_mounted l l' fire props w w' errs :
      alike l l' w w' →
      similar
        {| fiber := Some (banner_fiber l fire props);
           view := Some consent_script; world := w; uncaught := errs |}
        {| fiber := Some (banner_fiber l' fire props);
           view := Some consent_script; world := w'; uncaught := errs |}.

(** What the host and the user have of a page: the element on screen, the
    exceptions that reached the host, the invocations, the flag, the props
    object of the last render, and the global. *)
Definition observe (pg : Page) :
    option node * list exn * list (object PrivacyConsentBannerProps) *
    option bool * option loc * global Window :=
  (view pg, uncaught pg, invocations pg, loaded_of pg, rendered_with pg,
   window (world pg)).

(** ** The effect does not know its object *)

Section similar.
Implicit Types (pg : Page) (e : banner_event) (es : list banner_event).
Implicit Types (w : World) (l : loc) (errs : list exn).
Implicit Types props : object PrivacyConsentBannerProps.

Lemma alike_flag l l' w w' :
  alike l l' w w' → available w = available w' ∧ flag l w = flag l' w'.
Proof. intros (Hw & _ & Hl). unfold available, flag. by rewrite Hw, Hl. Qed.

(** A run of the effect ends the same way in worlds that are alike, and
    leaves them alike. *)
Lemma effect_alike props l l' w w' :
  alike l l' w w' →
  (banner_effect props l w).1 = (banner_effect props l' w').1 ∧
  alike l l' (banner_effect props l w).2 (banner_effect props l' w').2.
Proof.
  intros Ha. destruct (alike_flag _ _ _ _ Ha) as [Hav Hfl].
  destruct Ha as (Hw & Hc & Hl).
  rewrite !banner_effect_table. unfold effect_table.
  rewrite <-Hw, <-Hav, <-Hfl.
  destruct (window w) eqn:?, (available w) as [b|], (flag l w);
    try destruct (loadBanner b props) as [[]|x]; simpl;
    unfold alike; simpl; rewrite ?lookup_insert_eq;
    split_and!; congruence.
Qed.

Lemma conclude_similar props l l' w w' errs :
  alike l l' w w' →
  similar (conclude l props errs (banner_effect props l w))
          (conclude l' props errs (banner_effect props l' w')).
Proof.
  intros Ha. destruct (effect_alike props l l' w w' Ha) as [Hr Ha'].
  destruct (banner_effect props l w) as [[[]|x] w1],
    (banner_effect props l' w') as [[[]|x'] w1']; simplify_eq/=.
  - by constructor.
  - destruct Ha' as (? & ? & _). by constructor.
Qed.

(** The host cannot tell similar pages apart. *)
Lemma similar_step pg pg' e :
  similar pg pg' → similar (banner_step pg e) (banner_step pg' e).
Proof.
  intros [w w' errs Hw Hc|l l' fire p w w' errs Ha];
    destruct e as [props|props| |g]; simpl; try by constructor.
  - rewrite !settle_mount. apply conclude_similar.
    unfold alike. simpl. by rewrite !lookup_insert_eq.
  - rewrite !settle_update. case_bool_decide; [by constructor|].
    by apply conclude_similar.
  - destruct Ha as (? & ? & _). by constructor.
  - destruct Ha as (? & ? & ?). by constructor.
Qed.

Lemma similar_spare pg pg' e : similar pg pg' → similar pg (spare pg' e).
Proof.
  intros [w w' errs Hw Hc|l l' fire p w w' errs Ha];
    destruct e as [props|props| |g]; by constructor.
Qed.

Lemma similar_refl pg : page_ok pg → similar pg pg.
Proof. intros [|]; by constructor. Qed.

(** The effect of a render remembers its props: a run in a browser with
    the initializer in reach logs them. *)
Lemma banner_effect_inj props props' l l' :
  banner_effect props l = banner_effect props' l' → props = props'.
Proof.
  intros H.
  apply (f_equal (λ f, calls (f (blank (script_loaded banner_ok))).2)) in H.
  rewrite !(banner_effect_call _ _ _ banner_ok) in H by done.
  simpl in H. by simplify_list_eq.
Qed.

Lemma banner_fiber_props l fire props l' fire' props' :
  banner_fiber l fire props = banner_fiber l' fire' props' →
  l = l' ∧ fire = fire' ∧ props = props'.
Proof.
  intros H. destruct (banner_fiber_inj _ _ _ _ _ _ H) as (-> & -> & _).
  split_and!; [done..|]. unfold banner_fiber in H.
  injection H as H. by apply banner_effect_inj in H.
Qed.

(** Similarity is a partial equivalence, reflexive on the pages of a
    banner. *)
#[export] Instance similar_symmetric : Symmetric similar.
Proof.
  intros pg pg' [w w' errs Hw Hc|l l' fire p w w' errs (? & ? & ?)];
    by constructor.
Qed.

#[export] Instance similar_transitive : Transitive similar.
Proof.
  intros pg1 pg2 pg3 H12 H23.
  destruct H12 as [w1 w2 errs Hw Hc|l1 l2 fire p w1 w2 errs (Hw & Hc & Hl)];
    inversion H23 as [|? l3 ? p' ? w3 ? (Hw' & Hc' & Hl')]; subst.
  - constructor; congruence.
  - match goal with H : banner_effect _ _ = _ |- _ =>
      apply banner_effect_inj in H as ->
    end.
    constructor. split_and!; congruence.
Qed.

#[export] Instance banner_step_similar :
  Proper (similar ==> (=) ==> similar) banner_step.
Proof. intros pg pg' Hs e ? <-. by apply similar_step. Qed.

#[export] Instance banner_run_similar :
  Proper (similar ==> (=) ==> similar) banner_run.
Proof.
  intros pg pg' Hs es ? <-. revert pg pg' Hs.
  induction es as [|e es IH]; intros pg pg' Hs; [done|].
  rewrite !run_cons. by apply IH, similar_step.
Qed.

Lemma similar_observe pg pg' : similar pg pg' → observe pg = observe pg'.
Proof.
  intros [w w' errs Hw Hc|l l' fire p w w' errs Ha].
  - unfold observe, invocations. simpl. by rewrite Hw, Hc.
  - destruct (alike_flag _ _ _ _ Ha) as [_ Hfl]. destruct Ha as (Hw & Hc & _).
    unfold observe, invocations, loaded_of. simpl. by rewrite Hw, Hc, Hfl.
Qed.

#[export] Instance observe_similar : Proper (similar ==> (=)) observe.
Proof. intros pg pg'. apply similar_observe. Qed.

(** ** The double render of the banner *)

(** The render of an update changes nothing on the page, whatever the
    fiber it finds. *)
Lemma render_update_world props hs w :
  (render_with_hooks ShopifyCookieBanner props (Some hs) w).2 = w.
Proof. destruct hs as [|[l|] [|[|f c d] [|]]]; by banner_simpl. Qed.

Lemma settle_twice_mount props pg :
  settle_twice ShopifyCookieBanner None props pg =
  banner_step (spare pg (Mount props)) (Mount props) ∨ is_Some (fiber pg).
Proof.
  destruct (fiber pg) eqn:Hf; [by right|left].
  unfold settle_twice. rewrite render_mount. simpl. by rewrite Hf.
Qed.

Lemma settle_twice_update props hs pg :
  fiber pg = Some hs →
  settle_twice ShopifyCookieBanner (Some hs) props pg =
  settle ShopifyCookieBanner (Some hs) props pg.
Proof.
  intros Hf. unfold settle_twice.
  pose proof (render_update_world props hs (world pg)) as Hw.
  destruct (render_with_hooks _ _ _ _) as [[[v hs']|x] w] eqn:Hr;
    simpl in Hw; subst w.
  - by destruct pg.
  - unfold settle, render_and_commit. st_unfold. by rewrite Hr.
Qed.

(** A step of the development build is a step of the plain host on the
    page with the spare object. *)
Lemma dev_step_spare pg e :
  dev_step ShopifyCookieBanner pg e = banner_step (spare pg e) e.
Proof.
  destruct e as [props|props| |g]; unfold dev_step, spare;
    destruct (fiber pg) as [hs|] eqn:Hf; simpl; rewrite ?Hf; try done.
  - destruct (settle_twice_mount props pg) as [->|[? ?]]; [|congruence].
    unfold spare. rewrite Hf. simpl. rewrite settle_mount.
    apply replay_conclude.
  - by apply settle_twice_update.
Qed.

Lemma dev_step_similar pg pg' e :
  similar pg pg' →
  similar (banner_step pg e) (dev_step ShopifyCookieBanner pg' e).
Proof.
  intros Hs. rewrite dev_step_spare. by apply similar_step, similar_spare.
Qed.

Lemma dev_run_similar pg pg' es :
  similar pg pg' →
  similar (banner_run pg es) (dev_run ShopifyCookieBanner pg' es).
Proof.
  revert pg pg'. induction es as [|e es IH]; intros pg pg' Hs; [done|].
  simpl. by apply IH, dev_step_similar.
Qed.

(** ** What the double render costs *)

Lemma spare_ok pg e : page_ok pg → page_ok (spare pg e).
Proof. intros [|]; destruct e; by econstructor. Qed.

Lemma dev_step_ok pg e :
  page_ok pg → page_ok (dev_step ShopifyCookieBanner pg e).
Proof. intros Hok. rewrite dev_step_spare. by apply step_ok, spare_ok. Qed.

Lemma spare_allocated pg e :
  allocated (spare pg e) =
  allocated pg +
  (if bool_decide (is_mount e = true ∧ fiber pg = None) then 1 else 0).
Proof.
  destruct e as [props|props| |g], (fiber pg) as [hs|] eqn:Hf;
    unfold spare; rewrite ?Hf;
    try (rewrite bool_decide_false by (by intros [? ?]); lia).
  rewrite bool_decide_true by done. unfold allocated. simpl.
  rewrite map_size_insert_None; [lia|]. apply not_elem_of_dom, is_fresh.
Qed.

Lemma spare_fiber pg e : fiber (spare pg e) = fiber pg.
Proof. destruct e; unfold spare; by destruct (fiber pg) eqn:Hf. Qed.

(** A mount of the development build allocates two objects, and nothing
    else allocates. *)
Lemma dev_step_allocated pg e :
  page_ok pg →
  allocated (dev_step ShopifyCookieBanner pg e) =
  allocated pg +
  (if bool_decide (is_mount e = true ∧ fiber pg = None) then 2 else 0).
Proof.
  intros Hok. rewrite dev_step_spare, step_allocated by by apply spare_ok.
  rewrite spare_allocated, spare_fiber. case_bool_decide; lia.
Qed.

Lemma similar_fiber pg pg' :
  similar pg pg' → fiber pg = None ↔ fiber pg' = None.
Proof. by intros [|]. Qed.

Lemma dev_run_allocated pg pg' es :
  page_ok pg → page_ok pg' → similar pg pg' →
  allocated (dev_run ShopifyCookieBanner pg' es) + 2 * allocated pg =
  allocated pg' + 2 * allocated (banner_run pg es).
Proof.
  revert pg pg'. induction es as [|e es IH]; intros pg pg' Hok Hok' Hs;
    [simpl; lia|].
  simpl. specialize (IH (banner_step pg e) (dev_step ShopifyCookieBanner pg' e)
    (step_ok _ _ Hok) (dev_step_ok _ _ Hok') (dev_step_similar _ _ e Hs)).
  rewrite step_allocated, dev_step_allocated in IH by done.
  apply similar_fiber in Hs.
  repeat case_bool_decide; try lia; tauto.
Qed.

(** C7: a development build cannot be observed on the banner: with every
    render made twice and the effects of every mount run twice, every run
    of the host shows the same element, the same exceptions, the same
    invocations of [loadBanner], the same flag and the same props as the
    run of a production build. *)
Theorem double_render_unobservable g es :
  observe (dev_run ShopifyCookieBanner (initial g) es) =
  observe (banner_run (initial g) es).
Proof.
  symmetry. apply similar_observe, dev_run_similar, similar_refl, initial_ok.
Qed.

(** The double render costs one object per mount: a run of a
    development build has allocated twice the objects of the same run of a
    production build, the second object of each mount being the ref of a
    call whose result was dropped. *)
Lemma double_render_allocates g es :
  allocated (dev_run ShopifyCookieBanner (initial g) es) =
  2 * allocated (banner_run (initial g) es).
Proof.
  pose proof (dev_run_allocated (initial g) (initial g) es (initial_ok g)
    (initial_ok g) (similar_refl _ (initial_ok g))) as H.
  change (allocated (initial g)) with 0 in H. lia.
Qed.

End similar.
