(* ===== verification/Host.v ===== *)
(** * Host: what the host of one banner owes the page around it

    A page holds more than one instance: other banners, and whatever else
    the host renders.  What they need of the host of one banner does not
    depend on how that host renders: that it keeps the page of the banner
    well formed, that it makes an invocation only against the budget of its
    instance, that it writes to the ref of its instance and to no other
    object that is already there, that the ref of its instance after a
    step is the one it had or a new one, that it leaves the global to the
    environment, and that each of its steps is the step the loader of the
    specification takes.  The class [BannerHost] states these six laws.
    The host of [React], the host under the second pass of StrictMode
    ([Strict]) and the host of a development build ([Twice]) are
    instances, each proved from the effect of the component; the lemmas
    on the page with several instances ([Site]) and on its family of
    loaders ([Composite]) are proved against the class, and their
    theorems are stated for the three builds ([every_build]). *)

From S2P Require Import Prelude Js Browser React Banner Lifecycle Contract.
From S2P Require Import Strict Twice.

(** ** The interface *)

(** The ref [loaded] of an instance. *)
Definition own_ref (hs : option (list hook)) : option loc :=
  match hs with
  | Some (RefHook l :: _) => Some l
  | _ => None
  end.

Class BannerHost (step : Page → banner_event → Page) : Prop := {
  host_ok pg e : page_ok pg → page_ok (step pg e);
  host_budget pg e :
    page_ok pg →
    length (invocations (step pg e)) + budget (step pg e) ≤
    length (invocations pg) + budget pg + (if is_mount e then 1 else 0);
  host_frame pg e l :
    page_ok pg → is_Some (heap (world pg) !! l) →
    own_ref (fiber pg) ≠ Some l →
    heap (world (step pg e)) !! l = heap (world pg) !! l;
  host_own_ref pg e l :
    page_ok pg → own_ref (fiber (step pg e)) = Some l →
    own_ref (fiber pg) = Some l ∨ heap (world pg) !! l = None;
  host_window pg e :
    page_ok pg →
    window (world (step pg e)) =
    match e with Environment g => g | _ => window (world pg) end;
  host_refines pg e :
    page_ok pg → tame (window (world pg)) →
    abstraction (step pg e) = loader_step (abstraction pg) (seen_as pg e);
}.

#[export] Hint Mode BannerHost ! : typeclass_instances.

(** A run of a host. *)
Definition host_run (step : Page → banner_event → Page) (pg : Page)
    (es : list banner_event) : Page :=
  foldl step pg es.

(** The actions of a run of a host, each seen on the page it is delivered
    to. *)
Fixpoint actions (step : Page → banner_event → Page) (pg : Page)
    (es : list banner_event) : list action :=
  match es with
  | [] => []
  | e :: es => seen_as pg e :: actions step (step pg e) es
  end.

(** The builds the component runs in: production, a tree under StrictMode
    (its effects run a second time after the mount) and a development
    build (the component function is called twice per render).  A property
    of every build is that property of the three hosts. *)
Definition every_build (P : (Page → banner_event → Page) → Prop) : Prop :=
  P banner_step ∧ P (strict_step ShopifyCookieBanner) ∧
  P (dev_step ShopifyCookieBanner).

(** ** One instance among others *)

Section frame.
Implicit Types (pg : Page) (e : banner_event) (w : World) (l : loc).
Implicit Types props : object PrivacyConsentBannerProps.

(** The effect of a render writes to no ref but its own. *)
Lemma conclude_frame l props errs w l' :
  l ≠ l' →
  heap (world (conclude l props errs (banner_effect props l w))) !! l' =
  heap w !! l'.
Proof.
  intros Hl. destruct (banner_effect_run props l w); simpl; try done.
  by rewrite lookup_insert_ne.
Qed.

(** A step writes to the ref of its instance and to none that another
    instance holds. *)
Lemma step_frame pg e l' :
  page_ok pg → is_Some (heap (world pg) !! l') → own_ref (fiber pg) ≠ Some l' →
  heap (world (banner_step pg e)) !! l' = heap (world pg) !! l'.
Proof.
  intros Hok Hl' Hown.
  destruct (step_view_of pg e Hok) as [| | |p Hf|l f p p' Hf|l f p p' Hf];
    try done.
  - rewrite conclude_frame; [by apply ref_alloc_frame|].
    intros <-. apply elem_of_dom in Hl'. by apply is_fresh in Hl'.
  - rewrite conclude_frame; [done|]. intros ->. by rewrite Hf in Hown.
Qed.

(** The ref of an instance after a step is the one it had, or a new one. *)
Lemma step_own_ref pg e l :
  page_ok pg → own_ref (fiber (banner_step pg e)) = Some l →
  own_ref (fiber pg) = Some l ∨ heap (world pg) !! l = None.
Proof.
  intros Hok.
  destruct (step_view_of pg e Hok) as [| | |p Hf|l0 f p p' Hf|l0 f p p' Hf];
    simpl; try by auto.
  - destruct (banner_effect _ _ _) as [[[]|x] w']; simpl; [|done].
    intros [= <-]. right. apply not_elem_of_dom, is_fresh.
  - rewrite Hf. auto.
  - rewrite Hf. destruct (banner_effect _ _ _) as [[[]|x] w']; simpl; auto.
    done.
Qed.

(** A page of a banner stays one when the rest of the page changes around
    its ref. *)
Lemma page_ok_frame pg w errs :
  page_ok pg →
  (∀ l, own_ref (fiber pg) = Some l → heap w !! l = heap (world pg) !! l) →
  page_ok {| fiber := fiber pg; view := view pg; world := w; uncaught := errs |}.
Proof.
  intros [|l f p b w0 errs0 Hl] Hw; simpl in *; [constructor|].
  apply (page_mounted _ _ _ b). by rewrite Hw.
Qed.

Lemma budget_frame pg w errs :
  (∀ l, own_ref (fiber pg) = Some l → heap w !! l = heap (world pg) !! l) →
  budget {| fiber := fiber pg; view := view pg; world := w; uncaught := errs |}
  = budget pg.
Proof.
  intros Hw. unfold budget, loaded_of, flag. simpl.
  destruct (fiber pg) as [[|[l|] hs]|]; try done.
  by rewrite (Hw l).
Qed.

Lemma page_ok_own_ref pg l :
  page_ok pg → own_ref (fiber pg) = Some l →
  ∃ b, heap (world pg) !! l = Some (VBool b).
Proof. intros [|l0 f p b w errs Hl]; simpl; [done|]. intros [= <-]. eauto. Qed.

(** What the loader sees of an event depends on the hooks of its instance
    and on the global, and on nothing else of the page. *)
Lemma seen_as_ext pg pg' e :
  fiber pg = fiber pg' → window (world pg) = window (world pg') →
  seen_as pg e = seen_as pg' e.
Proof.
  intros Hf Hw. unfold seen_as, rendered_with, available. by rewrite Hf, Hw.
Qed.

(** ** The page with the spare object *)

Lemma spare_window pg e : window (world (spare pg e)) = window (world pg).
Proof. destruct e; unfold spare; by destruct (fiber pg) eqn:Hf. Qed.

Lemma spare_abstraction pg e : abstraction (spare pg e) = abstraction pg.
Proof.
  unfold abstraction, loaded_of, invocations, spare.
  destruct e, (fiber pg) eqn:Hf; simpl; by rewrite ?Hf.
Qed.

Lemma spare_seen_as pg e e' : seen_as (spare pg e) e' = seen_as pg e'.
Proof. apply seen_as_ext; [apply spare_fiber|apply spare_window]. Qed.

Lemma spare_budget pg e : budget (spare pg e) = budget pg.
Proof.
  unfold budget, loaded_of, spare.
  destruct e, (fiber pg) eqn:Hf; simpl; by rewrite ?Hf.
Qed.

Lemma spare_invocations pg e : invocations (spare pg e) = invocations pg.
Proof. destruct e; unfold spare; by destruct (fiber pg) eqn:Hf. Qed.

(** The spare object is a new one: what was on the page stays. *)
Lemma spare_frame pg e l :
  is_Some (heap (world pg) !! l) →
  heap (world (spare pg e)) !! l = heap (world pg) !! l.
Proof.
  intros Hl. destruct e; unfold spare; destruct (fiber pg) eqn:Hf; try done.
  by apply ref_alloc_frame.
Qed.

Lemma spare_free pg e l :
  heap (world (spare pg e)) !! l = None → heap (world pg) !! l = None.
Proof.
  destruct e; unfold spare; destruct (fiber pg) eqn:Hf; try done.
  unfold ref_alloc. simpl. by intros [? _]%lookup_insert_None.
Qed.

End frame.

(** ** The three hosts *)

#[export] Instance banner_host : BannerHost banner_step.
Proof.
  split; [apply step_ok|apply step_budget|apply step_frame|apply step_own_ref|
          apply step_window|apply refinement_step].
Qed.

#[export] Instance strict_host : BannerHost (strict_step ShopifyCookieBanner).
Proof. split; intros pg e; rewrite strict_step_banner; apply banner_host. Qed.

#[export] Instance dev_host : BannerHost (dev_step ShopifyCookieBanner).
Proof.
  split; intros pg e; rewrite dev_step_spare.
  - intros Hok. by apply step_ok, spare_ok.
  - intros Hok. rewrite <-(spare_budget pg e), <-(spare_invocations pg e).
    by apply step_budget, spare_ok.
  - intros l Hok Hl Hown. rewrite <-(spare_frame pg e l Hl).
    apply step_frame; [by apply spare_ok|by rewrite spare_frame|].
    by rewrite spare_fiber.
  - intros l Hok Hown.
    apply step_own_ref in Hown as [Hown|Hnone]; [| |by apply spare_ok].
    + left. by rewrite spare_fiber in Hown.
    + right. by apply (spare_free pg e).
  - intros Hok. rewrite step_window by by apply spare_ok.
    by rewrite spare_window.
  - intros Hok Hw. rewrite <-(spare_abstraction pg e), <-(spare_seen_as pg e e).
    apply refinement_step; [by apply spare_ok|by rewrite spare_window].
Qed.

(** ** What every host that keeps the laws does *)

Section hosted.
Context {step : Page → banner_event → Page} `{!BannerHost step}.
Implicit Types (pg : Page) (e : banner_event) (es : list banner_event).

Lemma host_tame pg e :
  page_ok pg → tame (window (world pg)) → tame_event e →
  tame (window (world (step pg e))).
Proof.
  intros Hok Hw He. rewrite (host_window (step := step)) by done.
  by destruct e.
Qed.

Lemma host_run_ok pg es : page_ok pg → page_ok (host_run step pg es).
Proof. apply run_invariant, host_ok. Qed.

Lemma host_run_refines pg es :
  page_ok pg → tame (window (world pg)) → Forall tame_event es →
  abstraction (host_run step pg es) =
  loader_run (abstraction pg) (actions step pg es).
Proof.
  intros Hok Hw Hes. revert pg Hok Hw.
  induction Hes as [|e es He _ IH]; intros pg Hok Hw; [done|].
  unfold host_run, loader_run. simpl.
  rewrite <-(host_refines (step := step)) by done.
  apply IH; [by apply host_ok|by apply host_tame].
Qed.

(** Under every host [loadBanner] is invoked at most once per mount. *)
Lemma host_run_budget pg es :
  page_ok pg →
  length (invocations (host_run step pg es)) + budget (host_run step pg es) ≤
  length (invocations pg) + budget pg + mounts es.
Proof.
  intros Hok. unfold mounts. rewrite <-sum_list_indicator.
  apply (run_bounded step page_ok
           (λ pg, length (invocations pg) + budget pg));
    [apply host_ok| |done].
  intros s e Hs. pose proof (host_budget (step := step) s e Hs). lia.
Qed.

Lemma host_at_most_once g es :
  length (invocations (host_run step (initial g) es)) ≤ mounts es.
Proof.
  pose proof (host_run_budget (initial g) es (initial_ok g)). simpl in *. lia.
Qed.

End hosted.

(** ** The three builds *)

(** What holds of every host that keeps the laws holds of the three
    builds. *)
Lemma every_build_host (P : (Page → banner_event → Page) → Prop) :
  (∀ step, BannerHost step → P step) → every_build P.
Proof. intros H. split_and!; apply H, _. Qed.

(** C8: every build of the banner refines the loader of the
    specification: in production, under the second pass of StrictMode and
    in a development build that calls the component twice per render,
    every run from a page of a banner, in a browser whose initializers
    return, is a run of the two-state loader, event by event. *)
Theorem every_host_refines pg es :
  page_ok pg → tame (window (world pg)) → Forall tame_event es →
  every_build (λ step,
    abstraction (host_run step pg es) =
    loader_run (abstraction pg) (actions step pg es)).
Proof.
  intros Hok Hw Hes. apply every_build_host. intros step ?.
  by apply host_run_refines.
Qed.

Lemma every_host_refines_witness :
  every_build (λ step,
    abstraction
      (host_run step (initial script_pending)
         [Mount example_props; Environment (script_loaded banner_ok);
          Rerender example_props; Rerender other_props; Unmount;
          Mount other_props]) =
    loader_run (abstraction (initial script_pending))
      (actions step (initial script_pending)
         [Mount example_props; Environment (script_loaded banner_ok);
          Rerender example_props; Rerender other_props; Unmount;
          Mount other_props])).
Proof.
  apply every_host_refines; [apply initial_ok|apply tame_script_pending|].
  repeat first [apply Forall_nil_2|apply Forall_cons_2]; try exact I.
  by apply tame_script_loaded.
Defined.
