(* ===== verification/Site.v ===== *)
(** * Site: several banners on one page

    A page may render [ShopifyCookieBanner] more than once.  The instances
    share the page ([window], the heap, the log of invocations) and each has
    a fiber of its own, so each has a ref [loaded] of its own: the flag is
    per instance, and so is the invocation.

    The host of each instance is a parameter ([step]).  The invariant, the
    separation of the instances and the bound on the invocations are
    lemmas for every host that keeps the laws of [BannerHost]; the
    theorems state them for the three builds of the component (the host
    of [React], the host under StrictMode's second pass and the host of a
    development build), on the pages the host reaches from
    [site_initial]. *)

From S2P Require Import Prelude Js Browser React Banner Lifecycle.
From S2P Require Import Strict Twice Host.

(** ** The host of several instances *)

(** What the host keeps per instance. *)
Record slot : Type := {
  slot_fiber : option (list hook);
  slot_view : option node;
}.

Definition empty_slot : slot := {| slot_fiber := None; slot_view := None |}.

Record Site : Type := {
  slots : list slot;
  shared : World;
  site_uncaught : list exn;
}.

(** The page as the instance in [sl] sees it. *)
Definition page_at (s : Site) (sl : slot) : Page :=
  {| fiber := slot_fiber sl; view := slot_view sl; world := shared s;
     uncaught := site_uncaught s |}.

Definition slot_of (pg : Page) : slot :=
  {| slot_fiber := fiber pg; slot_view := view pg |}.

(** An event for the instance at an index; an index out of range is
    ignored. *)
Definition site_event : Type := nat * banner_event.

Definition site_step (step : Page → banner_event → Page) (s : Site)
    (ie : site_event) : Site :=
  match slots s !! ie.1 with
  | Some sl =>
      let pg := step (page_at s sl) ie.2 in
      {| slots := <[ie.1 := slot_of pg]> (slots s); shared := world pg;
         site_uncaught := uncaught pg |}
  | None => s
  end.

Definition site_run (step : Page → banner_event → Page) (s : Site)
    (es : list site_event) : Site :=
  foldl (site_step step) s es.

(** A page with room for [n] instances, none mounted. *)
Definition site_initial (n : nat) (g : global Window) : Site :=
  {| slots := replicate n empty_slot; shared := blank g;
     site_uncaught := [] |}.

(** ** Invariant and observations *)

(** Every instance is a page of a banner, and no two share their ref. *)
Record site_ok (s : Site) : Prop := {
  slots_ok i sl : slots s !! i = Some sl → page_ok (page_at s sl);
  slots_apart i j sl sl' l :
    i ≠ j → slots s !! i = Some sl → slots s !! j = Some sl' →
    own_ref (slot_fiber sl) = Some l → own_ref (slot_fiber sl') ≠ Some l;
}.

(** The invocations all instances together may still make. *)
Definition site_budget (s : Site) : nat :=
  sum_list ((λ sl, budget (page_at s sl)) <$> slots s).

Definition site_mounts (es : list site_event) : nat :=
  length (filter (λ ie, is_mount ie.2 = true) es).

(** The instances that are mounted. *)
Definition mounted (s : Site) : list slot :=
  filter (λ sl, is_Some (slot_fiber sl)) (slots s).

(** The elements on the page, one per mounted instance. *)
Definition site_views (s : Site) : list node := omap slot_view (slots s).

(** The scripts on the page: those of the element of every instance. *)
Definition site_scripts (s : Site) : list string :=
  site_views s ≫= script_sources.

(** The instance at an index. *)
Definition slot_at (s : Site) (i : nat) : slot :=
  default empty_slot (slots s !! i).

(** [loaded.current] of the instance at an index. *)
Definition flag_at (s : Site) (i : nat) : option bool :=
  loaded_of (page_at s (slot_at s i)).

(** A page for two banners with the initializer there, after the mount of
    the first and after the mount of both. *)
Definition one_banner : Site :=
  site_run banner_step (site_initial 2 (script_loaded banner_ok))
    [(0, Mount example_props)].

Definition two_banners : Site :=
  site_run banner_step one_banner [(1, Mount other_props)].

(** ** Steps of the site *)

Section site.
Context {step : Page → banner_event → Page} `{!BannerHost step}.
Implicit Types (s : Site) (sl : slot) (ie : site_event) (e : banner_event).
Implicit Types (es : list site_event) (l : loc).

Lemma page_at_slot_of pg slots0 :
  page_at {| slots := slots0; shared := world pg;
             site_uncaught := uncaught pg |} (slot_of pg) = pg.
Proof. by destruct pg. Qed.

Lemma site_step_out s i e : slots s !! i = None → site_step step s (i, e) = s.
Proof. unfold site_step. simpl. by intros ->. Qed.

Lemma site_step_in s i e sl :
  slots s !! i = Some sl →
  site_step step s (i, e) =
  {| slots := <[i := slot_of (step (page_at s sl) e)]> (slots s);
     shared := world (step (page_at s sl) e);
     site_uncaught := uncaught (step (page_at s sl) e) |}.
Proof. unfold site_step. simpl. by intros ->. Qed.

(** A step of one instance leaves the ref of every other instance as it
    is. *)
Lemma site_step_frame s i e sl j sl' l :
  site_ok s → slots s !! i = Some sl → i ≠ j → slots s !! j = Some sl' →
  own_ref (slot_fiber sl') = Some l →
  heap (world (step (page_at s sl) e)) !! l = heap (shared s) !! l.
Proof.
  intros Hok Hi Hij Hj Hl. apply host_frame.
  - by apply (slots_ok s Hok i).
  - destruct (page_ok_own_ref (page_at s sl') l) as [b Hb];
      [by apply (slots_ok s Hok j)|done|by exists (VBool b)].
  - simpl. intros Hown. by apply (slots_apart s Hok i j sl sl' l).
Qed.

(** The ref of the instance that stepped is none of the others'. *)
Lemma site_step_apart s i e sl j sl' l :
  site_ok s → slots s !! i = Some sl → i ≠ j → slots s !! j = Some sl' →
  own_ref (slot_fiber sl') = Some l →
  own_ref (fiber (step (page_at s sl) e)) ≠ Some l.
Proof.
  intros Hok Hi Hij Hj Hl Hown.
  apply host_own_ref in Hown as [Hown|Hnone]; [..|by apply (slots_ok s Hok i)].
  - by apply (slots_apart s Hok i j sl sl' l).
  - destruct (page_ok_own_ref (page_at s sl') l) as [b Hb];
      [by apply (slots_ok s Hok j)|done|]. simpl in *. congruence.
Qed.

(** The flag of an instance that did not step stays. *)
Lemma site_step_loaded s i j e sl :
  site_ok s → i ≠ j → slots s !! j = Some sl →
  loaded_of (page_at (site_step step s (i, e)) sl) = loaded_of (page_at s sl).
Proof.
  intros Hok Hij Hj.
  destruct (slots s !! i) as [sl0|] eqn:Hi; [|by rewrite site_step_out].
  rewrite (site_step_in s i e sl0 Hi). unfold loaded_of, flag. simpl.
  destruct (slot_fiber sl) as [[|[l|] hs]|] eqn:Hf; try done.
  by rewrite (site_step_frame s i e sl0 j sl l) by (by rewrite ?Hf).
Qed.

Lemma site_step_ok s ie : site_ok s → site_ok (site_step step s ie).
Proof.
  intros Hok. destruct ie as [i e].
  destruct (slots s !! i) as [sl|] eqn:Hi; [|by rewrite site_step_out].
  rewrite (site_step_in s i e sl Hi). split; simpl.
  - intros k slk Hk. destruct (decide (k = i)) as [->|Hne].
    + apply list_lookup_insert_Some in Hk as [(_ & <- & _)|[? _]]; [|done].
      rewrite page_at_slot_of. by apply host_ok, (slots_ok s Hok i).
    + rewrite list_lookup_insert_ne in Hk by done.
      apply (page_ok_frame (page_at s slk)); [by apply (slots_ok s Hok k)|].
      intros l Hl. by apply (site_step_frame s i e sl k slk).
  - intros j1 j2 sl1 sl2 l Hne H1 H2 Hl1 Hl2.
    destruct (decide (j1 = i)) as [->|Hn1], (decide (j2 = i)) as [->|Hn2];
      [done|..].
    + apply list_lookup_insert_Some in H1 as [(_ & <- & _)|[? _]]; [|done].
      rewrite list_lookup_insert_ne in H2 by done.
      by apply (site_step_apart s i e sl j2 sl2 l Hok Hi).
    + apply list_lookup_insert_Some in H2 as [(_ & <- & _)|[? _]]; [|done].
      rewrite list_lookup_insert_ne in H1 by done.
      by apply (site_step_apart s i e sl j1 sl1 l Hok Hi).
    + rewrite list_lookup_insert_ne in H1, H2 by done.
      by apply (slots_apart s Hok j1 j2 sl1 sl2 l).
Qed.

(** An invocation is paid for by the budget of the instance that made it;
    the budgets of the others stay. *)
Lemma site_step_budget s ie :
  site_ok s →
  length (calls (shared (site_step step s ie))) +
    site_budget (site_step step s ie) ≤
  length (calls (shared s)) + site_budget s + (if is_mount ie.2 then 1 else 0).
Proof.
  intros Hok. destruct ie as [i e].
  destruct (slots s !! i) as [sl|] eqn:Hi; [|rewrite site_step_out by done; lia].
  rewrite (site_step_in s i e sl Hi). unfold site_budget. simpl.
  set (pg' := step (page_at s sl) e).
  pose proof (sum_list_update (λ sl0, budget (page_at s sl0))
    (λ sl0, budget (page_at {| slots := <[i := slot_of pg']> (slots s);
                               shared := world pg';
                               site_uncaught := uncaught pg' |} sl0))
    (slots s) i sl (slot_of pg') Hi) as Hsum.
  cbv beta in Hsum. rewrite page_at_slot_of in Hsum.
  pose proof (host_budget (step := step) (page_at s sl) e (slots_ok s Hok i sl Hi)) as Hb.
  unfold invocations in Hb. simpl in Hb. fold pg' in Hb.
  assert (∀ j z, j ≠ i → slots s !! j = Some z →
    budget (page_at {| slots := <[i := slot_of pg']> (slots s);
                       shared := world pg'; site_uncaught := uncaught pg' |} z)
    = budget (page_at s z)) as Hothers.
  { intros j z Hj Hz. apply (budget_frame (page_at s z)).
    intros l Hl. by apply (site_step_frame s i e sl j z). }
  specialize (Hsum Hothers). unfold site_budget in *. lia.
Qed.

Lemma site_initial_ok n g : site_ok (site_initial n g).
Proof.
  split; simpl.
  - intros i sl [-> _]%lookup_replicate. constructor.
  - by intros i j sl sl' l _ [-> _]%lookup_replicate.
Qed.

Lemma site_initial_budget n g : site_budget (site_initial n g) = 0.
Proof. unfold site_budget. simpl. by induction n as [|n IH]; [|simpl]. Qed.

Lemma site_run_ok s es : site_ok s → site_ok (site_run step s es).
Proof. apply run_invariant, site_step_ok. Qed.

Lemma site_run_budget s es :
  site_ok s →
  length (calls (shared (site_run step s es))) +
    site_budget (site_run step s es) ≤
  length (calls (shared s)) + site_budget s + site_mounts es.
Proof.
  intros Hok. unfold site_mounts.
  rewrite <-(sum_list_indicator (λ ie, is_mount ie.2)).
  apply (run_bounded (site_step step) site_ok
           (λ s, length (calls (shared s)) + site_budget s));
    auto using site_step_ok.
  intros s0 ie Hs. pose proof (site_step_budget s0 ie Hs). lia.
Qed.

End site.

(** ** The instances together *)

Section hosted.
Context {step : Page → banner_event → Page} `{!BannerHost step}.
Implicit Types (s : Site) (sl : slot) (e : banner_event).
Implicit Types (es : list site_event).

Lemma site_run_cons s ie es :
  site_run step s (ie :: es) = site_run step (site_step step s ie) es.
Proof. done. Qed.

Lemma site_run_initial_ok n g es :
  site_ok (site_run step (site_initial n g) es).
Proof. apply site_run_ok, site_initial_ok. Qed.

Lemma site_run_initial_budget n g es :
  length (calls (shared (site_run step (site_initial n g) es))) ≤
  site_mounts es.
Proof.
  pose proof (site_run_budget (step := step) (site_initial n g) es
    (site_initial_ok n g)) as H.
  rewrite site_initial_budget in H. simpl in H. lia.
Qed.

(** A step of one instance leaves every other instance as it is: its
    hooks, its view and its flag. *)
Lemma site_step_isolated s i j e :
  site_ok s → i ≠ j →
  slot_at (site_step step s (i, e)) j = slot_at s j ∧
  loaded_of (page_at (site_step step s (i, e)) (slot_at s j)) =
    loaded_of (page_at s (slot_at s j)).
Proof.
  intros Hok Hij. unfold slot_at at 1 2.
  destruct (slots s !! i) as [sl0|] eqn:Hi; [|by rewrite site_step_out].
  split.
  - rewrite (site_step_in s i e sl0 Hi). simpl.
    by rewrite list_lookup_insert_ne.
  - unfold slot_at. destruct (slots s !! j) as [sl|] eqn:Hj; [|done].
    by apply (site_step_loaded s i j).
Qed.

(** So do any number of steps of other instances. *)
Lemma site_run_isolated s es j :
  site_ok s → Forall (λ ie, ie.1 ≠ j) es →
  slot_at (site_run step s es) j = slot_at s j ∧
  loaded_of (page_at (site_run step s es) (slot_at s j)) =
    loaded_of (page_at s (slot_at s j)).
Proof.
  intros Hok Hes. revert s Hok.
  induction Hes as [|[i e] es Hi _ IH]; intros s Hok; [done|].
  rewrite site_run_cons.
  destruct (site_step_isolated s i j e Hok Hi) as [Hsl Hfl].
  destruct (IH (site_step step s (i, e)) (site_step_ok s (i, e) Hok))
    as [Hsl' Hfl'].
  rewrite Hsl in Hsl', Hfl'. split; congruence.
Qed.

(** The elements of a list of instances, each a page of a banner. *)
Lemma views_of_slots s sls :
  Forall (λ sl, page_ok (page_at s sl)) sls →
  omap slot_view sls =
  replicate (length (filter (λ sl, is_Some (slot_fiber sl)) sls))
    consent_script.
Proof.
  induction 1 as [|sl sls Hsl _ IH]; [done|].
  rewrite filter_cons. destruct sl as [hs v].
  by inversion Hsl; simplify_eq/=; rewrite IH.
Qed.

(** On a well-formed site every mounted instance shows the element of the
    banner. *)
Lemma site_ok_scripts s :
  site_ok s →
  site_views s = replicate (length (mounted s)) consent_script ∧
  site_scripts s = replicate (length (mounted s)) consent_script_src.
Proof.
  intros Hok. assert (site_views s = replicate (length (mounted s))
    consent_script) as Hv.
  { apply (views_of_slots s), Forall_lookup. intros i sl.
    apply (slots_ok s Hok). }
  split; [done|]. unfold site_scripts. rewrite Hv.
  by apply replicate_bind_singleton.
Qed.

End hosted.

Section instances.
Implicit Types (s : Site) (sl : slot) (e : banner_event).
Implicit Types (es : list site_event) (b : PrivacyBanner).
Implicit Types props : object PrivacyConsentBannerProps.

(** Each instance invokes for itself: the mount of an instance with
    the initializer present and returning adds one invocation with its
    props, whatever the other instances have loaded. *)
Lemma each_instance_invokes s j sl props b :
  slots s !! j = Some sl → slot_fiber sl = None →
  available (shared s) = Some b → loadBanner b props = Normal tt →
  calls (shared (site_step banner_step s (j, Mount props))) =
  calls (shared s) ++ [props].
Proof.
  intros Hj Hf Ha Hb. rewrite (site_step_in s j _ sl Hj). simpl.
  rewrite Hf, settle_mount. simpl.
  by rewrite (conclude_call _ _ _ _ b) by (by autorewrite with banner).
Qed.

(** C24: on a page with any number of banners, whatever the host does to
    which of them, in production, under StrictMode and in a development
    build, every instance is a page of a banner (unmounted, or mounted
    with a boolean in its ref and the script element on screen) and no two
    instances share their ref [loaded]. *)
Theorem site_run_from_initial_ok n g es :
  every_build (λ step, site_ok (site_run step (site_initial n g) es)).
Proof. apply every_build_host. intros step ?. apply site_run_initial_ok. Qed.

(** C12: [loadBanner] is invoked at most once per mount, all instances
    of the page taken together, in production, under StrictMode and in a
    development build: neither the second pass of effects nor the second
    call of the component adds an invocation. *)
Theorem site_at_most_once n g es :
  every_build (λ step,
    length (calls (shared (site_run step (site_initial n g) es))) ≤
    site_mounts es).
Proof.
  apply every_build_host. intros step ?. apply site_run_initial_budget.
Qed.

(** C26: the flag is per instance: on every page the host reaches,
    whatever it then does to the other instances (mounts them, lets them
    call, unmounts and mounts them again), the instance at [j] keeps its
    hooks, its view and its flag, in every build. *)
Theorem instances_isolated n g es es' j :
  Forall (λ ie, ie.1 ≠ j) es' →
  every_build (λ step,
    let s := site_run step (site_initial n g) es in
    slot_at (site_run step s es') j = slot_at s j ∧
    flag_at (site_run step s es') j = flag_at s j).
Proof.
  intros Hes. apply every_build_host. intros step ?. simpl.
  destruct (site_run_isolated (step := step)
    (site_run step (site_initial n g) es) es' j) as [Hsl Hfl];
    [apply site_run_initial_ok|done|].
  split; [done|]. unfold flag_at. by rewrite Hsl.
Qed.

(** C29: every mounted instance brings a script element of its own: on
    every page the host reaches, in every build, the page holds the
    element of the banner as many times as it has mounted instances, each
    with the same [id] and the same address, and so it asks for the script
    as many times. *)
Theorem script_per_instance n g es :
  every_build (λ step,
    site_views (site_run step (site_initial n g) es) =
      replicate (length (mounted (site_run step (site_initial n g) es)))
        consent_script ∧
    site_scripts (site_run step (site_initial n g) es) =
      replicate (length (mounted (site_run step (site_initial n g) es)))
        consent_script_src).
Proof.
  apply every_build_host. intros step ?.
  apply site_ok_scripts, site_run_initial_ok.
Qed.

End instances.

(** ** The theorems at concrete pages *)

Lemma instances_isolated_witness :
  every_build (λ step,
    let s := site_run step (site_initial 2 (script_loaded banner_ok))
               [(0, Mount example_props); (1, Mount other_props)] in
    slot_at
      (site_run step s
         [(0, Rerender other_props); (0, Unmount); (0, Mount example_props)])
      1 = slot_at s 1 ∧
    flag_at
      (site_run step s
         [(0, Rerender other_props); (0, Unmount); (0, Mount example_props)])
      1 = flag_at s 1).
Proof.
  apply (instances_isolated 2 (script_loaded banner_ok)
           [(0, Mount example_props); (1, Mount other_props)]
           [(0, Rerender other_props); (0, Unmount); (0, Mount example_props)]
           1).
  by repeat constructor.
Defined.
