(* ===== verification/Stutter.v ===== *)
(** * Stutter: pages up to what no step reads

    The flag of an effect cell says whether the commit in progress runs the
    effect, and the cell keeps the function of the last render; once the
    commit is over no step of the host reads either: the next render brings
    its own function and computes its own flag from the dependencies.  (The
    second pass of StrictMode does read the function, right after a mount:
    [Strict] compares pages themselves.)  Pages
    that differ in these only are the same page to the host, to the
    component and to the contract.  A re-render with the props object of
    the last render changes nothing else, so such re-renders, and the
    events the host ignores, can be left out of a run ([compress]); a host
    that does not deliver them, as React's bail-out does, is a
    [BannerHost] whose runs end on the same pages ([bailout_step]). *)

From S2P Require Import Prelude Js Browser React Banner Lifecycle Contract.
From S2P Require Import Host.

(** ** Pages up to flags *)

(** A hook cell after its commit: the flag cleared and the function
    forgotten; the dependencies stay, the next render compares with them. *)
Definition calm_hook (h : hook) : hook :=
  match h with
  | EffectHook _ _ deps => EffectHook false (mret tt) deps
  | RefHook l => RefHook l
  end.

(** A page after its commit: no effect is waiting. *)
Definition calm (pg : Page) : Page :=
  {| fiber := fmap (M := list) calm_hook <$> fiber pg; view := view pg;
     world := world pg; uncaught := uncaught pg |}.

(** Two pages are equivalent when they are the same after their commit. *)
#[export] Instance page_equiv : Equiv Page := λ pg1 pg2, calm pg1 = calm pg2.

#[export] Instance page_equivalence : Equivalence (≡@{Page}).
Proof.
  unfold equiv, page_equiv. split; [by intros ?|by intros ??|].
  intros ???. apply eq_trans.
Qed.

(** ** Events that change nothing *)

(** An event the host ignores, or a re-render with the props object of the
    last render. *)
Definition stutters (pg : Page) (e : banner_event) : bool :=
  negb (enabled e pg) ||
  match e with
  | Rerender props => bool_decide (rendered_with pg = Some (identity props))
  | _ => false
  end.

(** The events of a run from [pg] that change something, each judged on
    the page it is delivered to. *)
Fixpoint compress (pg : Page) (es : list banner_event) : list banner_event :=
  match es with
  | [] => []
  | e :: es =>
      if stutters pg e then compress pg es
      else e :: compress (banner_step pg e) es
  end.

(** The host with React's bail-out: an event that stutters is not
    delivered.  (React skips the render of a component whose element is
    the one of the render before, props object included.) *)
Definition bailout_step (pg : Page) (e : banner_event) : Page :=
  if stutters pg e then pg else banner_step pg e.

(** ** The component does not read the flags *)

Section calm.
Implicit Types (pg : Page) (e : banner_event) (es : list banner_event).
Implicit Types props : object PrivacyConsentBannerProps.

Lemma calm_idemp pg : calm (calm pg) = calm pg.
Proof.
  unfold calm. simpl. f_equal. destruct (fiber pg) as [hs|]; [|done].
  simpl. f_equal. rewrite <-list_fmap_compose. apply list_fmap_ext.
  by intros i [].
Qed.

Lemma calm_equiv pg : calm pg ≡ pg.
Proof. apply calm_idemp. Qed.

Lemma render_calm props hs w :
  render_with_hooks ShopifyCookieBanner props (Some (calm_hook <$> hs)) w =
  render_with_hooks ShopifyCookieBanner props (Some hs) w.
Proof. destruct hs as [|[l|] [|[|f c d] [|]]]; by banner_simpl. Qed.

(** A render and its commit look at the page through [calm]. *)
Lemma settle_calm props hs pg pg' :
  world pg = world pg' → uncaught pg = uncaught pg' →
  settle ShopifyCookieBanner (Some (calm_hook <$> hs)) props pg =
  settle ShopifyCookieBanner (Some hs) props pg'.
Proof.
  intros Hw He. unfold settle, render_and_commit. st_unfold.
  by rewrite render_calm, Hw, He.
Qed.

Lemma step_calm pg e : banner_step (calm pg) e ≡ banner_step pg e.
Proof.
  destruct pg as [[hs|] v w errs], e as [p|p| |g]; try done.
  - apply calm_equiv.
  - simpl. by rewrite (settle_calm p hs _ (Build_Page (Some hs) v w errs)).
  - apply (calm_equiv (Build_Page (Some hs) v (with_window g w) errs)).
Qed.

(** The host cannot tell equivalent pages apart. *)
#[export] Instance banner_step_proper :
  Proper ((≡) ==> (=) ==> (≡)) banner_step.
Proof.
  intros pg1 pg2 Hpg e ? <-.
  rewrite <-(step_calm pg1), <-(step_calm pg2). by rewrite Hpg.
Qed.

#[export] Instance banner_run_proper :
  Proper ((≡) ==> (=) ==> (≡)) banner_run.
Proof.
  intros pg1 pg2 Hpg es ? <-. revert pg1 pg2 Hpg.
  induction es as [|e es IH]; intros pg1 pg2 Hpg; [done|].
  rewrite !run_cons. apply IH. by rewrite Hpg.
Qed.

(** Nor can the observations of the development. *)
#[export] Instance invocations_proper : Proper ((≡) ==> (=)) invocations.
Proof. intros pg1 pg2 Hpg. unfold invocations. by injection Hpg as _ _ ->. Qed.

#[export] Instance uncaught_proper : Proper ((≡) ==> (=)) uncaught.
Proof. intros pg1 pg2 Hpg. by injection Hpg. Qed.

#[export] Instance loaded_of_proper : Proper ((≡) ==> (=)) loaded_of.
Proof.
  intros [[[|[l|] hs]|] v w errs] [[[|[l'|] hs']|] v' w' errs'] Hpg;
    unfold equiv, page_equiv, calm in Hpg; by simplify_eq/=.
Qed.

#[export] Instance abstraction_proper : Proper ((≡) ==> (=)) abstraction.
Proof.
  intros pg1 pg2 Hpg. unfold abstraction, phase_of.
  rewrite (loaded_of_proper pg1 pg2 Hpg).
  by rewrite (invocations_proper pg1 pg2 Hpg).
Qed.

Lemma enabled_calm e pg : enabled e (calm pg) = enabled e pg.
Proof. by destruct e, pg as [[hs|] v w errs]. Qed.

Lemma rendered_with_calm pg : rendered_with (calm pg) = rendered_with pg.
Proof. by destruct pg as [[[|h1 [|[l|f c d] [|h3 hs]]]|] v w errs]. Qed.

#[export] Instance stutters_proper : Proper ((≡) ==> (=) ==> (=)) stutters.
Proof.
  intros pg1 pg2 Hpg e ? <-. unfold stutters.
  rewrite <-(enabled_calm e pg1), <-(rendered_with_calm pg1), Hpg.
  by rewrite enabled_calm, rendered_with_calm.
Qed.

#[export] Instance compress_proper : Proper ((≡) ==> (=) ==> (=)) compress.
Proof.
  intros pg1 pg2 Hpg es ? <-. revert pg1 pg2 Hpg.
  induction es as [|e es IH]; intros pg1 pg2 Hpg; [done|]. cbn [compress].
  rewrite (stutters_proper pg1 pg2 Hpg e e eq_refl).
  destruct (stutters pg2 e); [by apply IH|]. f_equal. apply IH. by rewrite Hpg.
Qed.

End calm.

(** ** Re-renders that change nothing *)

Section stutter.
Implicit Types (pg : Page) (e : banner_event) (es : list banner_event).
Implicit Types (l : loc) (props : object PrivacyConsentBannerProps).

(** An event that stutters leaves the page as it is, up to the cell of
    the effect. *)
Lemma stutter_step pg e :
  page_ok pg → stutters pg e = true → banner_step pg e ≡ pg.
Proof.
  intros Hok [He|He]%orb_true_iff.
  - by rewrite step_disabled by (by apply negb_true_iff).
  - destruct e as [|props| |]; try done. apply bool_decide_eq_true in He.
    destruct (step_rerender_same pg props Hok He) as (l & f & p0 & Hf & ->).
    destruct (rendered_with_fiber pg _ Hok He) as (l' & f' & p1 & Hf' & Hid).
    destruct (page_ok_mounted pg _ Hok Hf) as (_ & _ & _ & _ & _ & _ & Hv).
    destruct pg as [fb v w errs]. unfold equiv, page_equiv, calm. simpl in *.
    rewrite Hv. simplify_eq/=. unfold banner_deps, ref_of. congruence.
Qed.

(** A re-render with the props object of the last render leaves the page
    as it is, up to the cell of the effect. *)
Lemma rerender_same_object pg l fire props :
  page_ok pg → fiber pg = Some (banner_fiber l fire props) →
  banner_step pg (Rerender props) ≡ pg.
Proof.
  intros Hok Hf. apply stutter_step; [done|]. unfold stutters.
  rewrite (rendered_with_mounted pg l fire props Hf), bool_decide_true by done.
  apply orb_true_r.
Qed.

Lemma compress_cons pg e es :
  compress pg (e :: es) =
  if stutters pg e then compress pg es else e :: compress (banner_step pg e) es.
Proof. done. Qed.

(** A run and its compressed form end on the same page, up to the cell of
    the effect. *)
Lemma compress_equiv pg es :
  page_ok pg → banner_run pg (compress pg es) ≡ banner_run pg es.
Proof.
  revert pg. induction es as [|e es IH]; intros pg Hok; [done|].
  rewrite compress_cons, (run_cons _ pg e es).
  destruct (stutters pg e) eqn:He.
  - by rewrite IH, (stutter_step pg e).
  - rewrite run_cons. by apply IH, step_ok.
Qed.

(** What is left has nothing to leave out. *)
Lemma compress_idemp pg es : compress pg (compress pg es) = compress pg es.
Proof.
  revert pg. induction es as [|e es IH]; intros pg; [done|].
  rewrite compress_cons. destruct (stutters pg e) eqn:He; [apply IH|].
  by rewrite compress_cons, He, IH.
Qed.

Lemma compress_sublist pg es : compress pg es `sublist_of` es.
Proof.
  revert pg. induction es as [|e es IH]; intros pg; [done|].
  rewrite compress_cons. destruct (stutters pg e).
  - by apply sublist_cons.
  - by apply sublist_skip.
Qed.

(** Re-renders with the props object of the last render can be left
    out of a run: the page the run ends on is the same, up to the flag of
    the effect, so the host, the log and the contract see no difference. *)
Lemma same_object_stutters pg l fire props n es :
  page_ok pg → fiber pg = Some (banner_fiber l fire props) →
  calm (banner_run pg (replicate n (Rerender props) ++ es)) =
    calm (banner_run pg es) ∧
  abstraction (banner_run pg (replicate n (Rerender props) ++ es)) =
    abstraction (banner_run pg es).
Proof.
  intros Hok Hf.
  assert (banner_run pg (replicate n (Rerender props) ++ es) ≡ banner_run pg es)
    as Hrun; [|split; [done|by rewrite Hrun]].
  induction n as [|n IH]; [done|].
  rewrite replicate_S, <-app_comm_cons, run_cons.
  by rewrite (rerender_same_object pg l fire props).
Qed.

(** C31: the events the host ignores and the re-renders with the props
    object of the last render can be left out of every run: the run ends on
    the same page up to the cell of the effect, so the log, the flag, the
    errors and the contract see no difference; what is left has no such
    event any more. *)
Theorem compress_run pg es :
  page_ok pg →
  calm (banner_run pg (compress pg es)) = calm (banner_run pg es) ∧
  abstraction (banner_run pg (compress pg es)) =
    abstraction (banner_run pg es) ∧
  compress pg (compress pg es) = compress pg es.
Proof.
  intros Hok. pose proof (compress_equiv pg es Hok) as Hrun.
  split_and!; [done|by rewrite Hrun|apply compress_idemp].
Qed.

(** ** The host that bails out *)

(** A run with the bail-out is the run of the events that are left. *)
Lemma bailout_run_compress pg es :
  host_run bailout_step pg es = banner_run pg (compress pg es).
Proof.
  revert pg. induction es as [|e es IH]; intros pg; [done|].
  rewrite compress_cons. unfold host_run. cbn [foldl]. unfold bailout_step at 2.
  destruct (stutters pg e); [apply IH|]. rewrite run_cons. apply IH.
Qed.

(** With or without the bail-out a run ends on the same page, up to the
    cell of the effect. *)
Lemma bailout_run_equiv pg es :
  page_ok pg → host_run bailout_step pg es ≡ banner_run pg es.
Proof. intros Hok. rewrite bailout_run_compress. by apply compress_equiv. Qed.

Lemma seen_as_stutters pg e : stutters pg e = true → seen_as pg e = Idle.
Proof.
  intros [He|He]%orb_true_iff.
  - by apply seen_as_disabled, negb_true_iff.
  - destruct e as [|props| |]; try done. unfold seen_as.
    destruct (fiber pg); [|done]. by rewrite He.
Qed.

#[export] Instance bailout_host : BannerHost bailout_step.
Proof.
  split; intros pg e; unfold bailout_step;
    destruct (stutters pg e) eqn:He;
    try (apply banner_host); try by auto.
  - intros _. destruct (is_mount e); lia.
  - intros _. by destruct e.
  - intros _ _. by rewrite seen_as_stutters, loader_step_idle.
Qed.

End stutter.

(** ** The theorems at concrete pages *)

Lemma compress_run_witness :
  calm
    (banner_run scenario_page
       (compress scenario_page
          [Rerender example_props; Mount other_props; Rerender other_props;
           Rerender other_props; Unmount; Unmount])) =
    calm
      (banner_run scenario_page
         [Rerender example_props; Mount other_props; Rerender other_props;
          Rerender other_props; Unmount; Unmount]) ∧
  abstraction
    (banner_run scenario_page
       (compress scenario_page
          [Rerender example_props; Mount other_props; Rerender other_props;
           Rerender other_props; Unmount; Unmount])) =
    abstraction
      (banner_run scenario_page
         [Rerender example_props; Mount other_props; Rerender other_props;
          Rerender other_props; Unmount; Unmount]) ∧
  compress scenario_page
    (compress scenario_page
       [Rerender example_props; Mount other_props; Rerender other_props;
        Rerender other_props; Unmount; Unmount]) =
    compress scenario_page
      [Rerender example_props; Mount other_props; Rerender other_props;
       Rerender other_props; Unmount; Unmount].
Proof. apply compress_run, run_ok, initial_ok. Defined.
