(* ===== verification/Composite.v ===== *)
(** * Composite: the loaders of a page with several banners

    The specification describes one loader.  A page that renders the
    component more than once is a family of loaders, one per instance, that
    have nothing in common but the initializer they call: this file states
    that family as a machine ([loaders_step]), maps the sites of [Site] to
    it, and proves that a site refines it, instance by instance, from the
    refinement of one instance and the separation of the instances: as
    lemmas for every host that keeps the laws of [BannerHost], as
    theorems for the three builds of the component. *)

From S2P Require Import Prelude Js Browser React Banner Lifecycle Contract.
From S2P Require Import Strict Twice Host Site.

(** ** The family of loaders *)

(** The phase of each instance, and the calls all of them have issued, in
    the order they were made. *)
Record loaders : Type := {
  phases : list (option phase);
  all_issued : list (object PrivacyConsentBannerProps);
}.

(** One loader of the family, with the calls of all. *)
Definition loader_at (s : loaders) (ph : option phase) : loader :=
  {| instance := ph; issued := all_issued s |}.

(** An action for the loader at an index: the others keep their phase. *)
Definition loaders_step (s : loaders) (ia : nat * action) : loaders :=
  match phases s !! ia.1 with
  | Some ph =>
      {| phases :=
           <[ia.1 := instance (loader_step (loader_at s ph) ia.2)]> (phases s);
         all_issued := issued (loader_step (loader_at s ph) ia.2) |}
  | None => s
  end.

Definition loaders_run (s : loaders) (acts : list (nat * action)) : loaders :=
  foldl loaders_step s acts.

(** [n] loaders without an instance. *)
Definition loaders_initial (n : nat) : loaders :=
  {| phases := replicate n None; all_issued := [] |}.

(** ** From a site to its loaders *)

(** The phase of the instance in a slot. *)
Definition phase_at (s : Site) (sl : slot) : option phase :=
  instance (abstraction (page_at s sl)).

Definition site_abstraction (s : Site) : loaders :=
  {| phases := phase_at s <$> slots s; all_issued := calls (shared s) |}.

(** How the loaders see an event of the site: the loader of the instance
    sees it as the instance's page does. *)
Definition site_seen_as (s : Site) (ie : site_event) : nat * action :=
  (ie.1, seen_as (page_at s (slot_at s ie.1)) ie.2).

(** An event of one instance: everything but a change of the global, which
    all instances see. *)
Definition is_local (e : banner_event) : bool :=
  match e with Environment _ => false | _ => true end.

Fixpoint site_trace (step : Page → banner_event → Page) (s : Site)
    (es : list site_event) : list (nat * action) :=
  match es with
  | [] => []
  | ie :: es => site_seen_as s ie :: site_trace step (site_step step s ie) es
  end.

(** ** One step *)

Section simulation.
Context {step : Page → banner_event → Page} `{!BannerHost step}.
Implicit Types (s : Site) (sl : slot) (ie : site_event) (e : banner_event).
Implicit Types (es : list site_event).

Lemma loader_at_abstraction s sl :
  loader_at (site_abstraction s) (phase_at s sl) = abstraction (page_at s sl).
Proof. done. Qed.

Lemma site_abstraction_out s i a :
  slots s !! i = None →
  loaders_step (site_abstraction s) (i, a) = site_abstraction s.
Proof.
  intros Hi. unfold loaders_step. simpl. by rewrite list_lookup_fmap, Hi.
Qed.

(** The phases of the instances that did not step stay. *)
Lemma phase_at_frame s i e sl j sl' :
  site_ok s → slots s !! i = Some sl → j ≠ i → slots s !! j = Some sl' →
  phase_at (site_step step s (i, e)) sl' = phase_at s sl'.
Proof.
  intros Hok Hi Hj Hj'. unfold phase_at, abstraction. simpl. f_equal.
  by apply (site_step_loaded s i j e sl').
Qed.

(** A step of a site is a step of the loader of the instance it goes to,
    and of no other. *)
Lemma site_refinement_step s ie :
  site_ok s → tame (window (shared s)) →
  site_abstraction (site_step step s ie) =
  loaders_step (site_abstraction s) (site_seen_as s ie).
Proof.
  intros Hok Hw. destruct ie as [i e]. unfold site_seen_as, slot_at. simpl.
  destruct (slots s !! i) as [sl|] eqn:Hi; simpl;
    [|by rewrite site_step_out, site_abstraction_out].
  unfold loaders_step. simpl. rewrite list_lookup_fmap, Hi. simpl.
  rewrite loader_at_abstraction.
  rewrite <-(host_refines (step := step) (page_at s sl) e)
    by (by try apply (slots_ok s Hok i)).
  unfold site_abstraction at 1. f_equal.
  - rewrite (site_step_in s i e sl Hi) at 2. simpl.
    rewrite (fmap_insert_agree (phase_at s)).
    + f_equal. rewrite (site_step_in s i e sl Hi). unfold phase_at.
      by rewrite page_at_slot_of.
    + intros j z Hj Hz. by apply (phase_at_frame s i e sl j).
  - by rewrite (site_step_in s i e sl Hi).
Qed.

Lemma site_step_tame s ie :
  site_ok s → tame (window (shared s)) → tame_event ie.2 →
  tame (window (shared (site_step step s ie))).
Proof.
  intros Hok Hw He. destruct ie as [i e].
  destruct (slots s !! i) as [sl|] eqn:Hi; [|by rewrite site_step_out].
  rewrite (site_step_in s i e sl Hi). simpl.
  by apply (host_tame (page_at s sl)); [apply (slots_ok s Hok i)|..].
Qed.

(** A run of a site is a run of the family, action by action. *)
Lemma site_run_refines s es :
  site_ok s → tame (window (shared s)) → Forall (λ ie, tame_event ie.2) es →
  site_abstraction (site_run step s es) =
  loaders_run (site_abstraction s) (site_trace step s es).
Proof.
  intros Hok Hw Hes. revert s Hok Hw.
  induction Hes as [|ie es He _ IH]; intros s Hok Hw; [done|].
  unfold site_run, loaders_run. simpl. rewrite <-site_refinement_step by done.
  apply IH; [by apply site_step_ok|by apply site_step_tame].
Qed.

End simulation.

(** ** The family by itself *)

Section loaders.
Implicit Types (s : loaders) (ia : nat * action) (acts : list (nat * action)).
Implicit Types (a b : action).

Lemma loaders_step_split s i a :
  loaders_step s (i, a) =
  match phases s !! i with
  | Some ph =>
      {| phases := <[i := next_phase ph a]> (phases s);
         all_issued := all_issued s ++ emitted ph a |}
  | None => s
  end.
Proof.
  unfold loaders_step. simpl. destruct (phases s !! i); [|done].
  by rewrite loader_step_split.
Qed.

(** An action for one loader leaves the phase of every other as it is. *)
Lemma loaders_step_frame s i a j :
  i ≠ j → phases (loaders_step s (i, a)) !! j = phases s !! j.
Proof.
  intros Hij. rewrite loaders_step_split.
  destruct (phases s !! i); [|done]. simpl. by rewrite list_lookup_insert_ne.
Qed.

(** Actions for two loaders can be taken in either order: the phases are
    the same, and so are the calls, up to their order. *)
Lemma loaders_commute s i j a b :
  i ≠ j →
  phases (loaders_run s [(i, a); (j, b)]) =
    phases (loaders_run s [(j, b); (i, a)]) ∧
  all_issued (loaders_run s [(i, a); (j, b)]) ≡ₚ
    all_issued (loaders_run s [(j, b); (i, a)]).
Proof.
  intros Hij. unfold loaders_run. cbn [foldl].
  rewrite (loaders_step_split (loaders_step s (i, a)) j b).
  rewrite (loaders_step_split (loaders_step s (j, b)) i a).
  rewrite (loaders_step_frame s i a j), (loaders_step_frame s j b i) by done.
  rewrite (loaders_step_split s i a), (loaders_step_split s j b).
  destruct (phases s !! i) as [phi|], (phases s !! j) as [phj|]; simpl;
    try done.
  split; [by apply list_insert_insert_ne|].
  rewrite <-!(assoc_L (++)). f_equiv. apply Permutation_app_comm.
Qed.

End loaders.

(** ** Interleaving *)

Section interleaving.
Context {step : Page → banner_event → Page} `{!BannerHost step}.
Implicit Types (s : Site) (sl : slot) (e : banner_event).

(** An event of one instance does not change what the loader of another
    sees. *)
Lemma site_seen_as_frame s i e j e' :
  site_ok s → i ≠ j → is_local e = true →
  site_seen_as (site_step step s (i, e)) (j, e') = site_seen_as s (j, e').
Proof.
  intros Hok Hij He. unfold site_seen_as. simpl. f_equal.
  destruct (slots s !! i) as [sl|] eqn:Hi; [|by rewrite site_step_out].
  rewrite (site_step_in s i e sl Hi). unfold slot_at. simpl.
  rewrite list_lookup_insert_ne by done. apply seen_as_ext; [done|]. simpl.
  rewrite (host_window (step := step)) by (by apply (slots_ok s Hok i)).
  by destruct e.
Qed.

Lemma local_tame e : is_local e = true → tame_event e.
Proof. by destruct e. Qed.

(** Two events of different instances are two actions, each as its loader
    sees it before either. *)
Lemma site_pair_refines s i e j e' :
  site_ok s → tame (window (shared s)) → i ≠ j → is_local e = true →
  site_abstraction (site_run step s [(i, e); (j, e')]) =
  loaders_run (site_abstraction s)
    [site_seen_as s (i, e); site_seen_as s (j, e')].
Proof.
  intros Hok Hw Hij He. unfold site_run, loaders_run. cbn [foldl].
  rewrite site_refinement_step;
    [|by apply site_step_ok|by apply site_step_tame; [..|apply local_tame]].
  by rewrite site_seen_as_frame, site_refinement_step.
Qed.

(** Two events of different instances, in either order. *)
Lemma site_pair_commutes s i j e e' :
  site_ok s → tame (window (shared s)) → i ≠ j →
  is_local e = true → is_local e' = true →
  phases (site_abstraction (site_run step s [(i, e); (j, e')])) =
    phases (site_abstraction (site_run step s [(j, e'); (i, e)])) ∧
  calls (shared (site_run step s [(i, e); (j, e')])) ≡ₚ
    calls (shared (site_run step s [(j, e'); (i, e)])).
Proof.
  intros Hok Hw Hij He He'.
  change (calls (shared ?s0)) with (all_issued (site_abstraction s0)).
  rewrite (site_pair_refines s i e j e'), (site_pair_refines s j e' i e)
    by done.
  by apply loaders_commute.
Qed.

End interleaving.

(** ** The three builds *)

Section builds.
Implicit Types (s : Site) (e : banner_event) (es : list site_event).

(** C20: a page with several banners is a family of loaders of the
    specification, in production, under StrictMode and in a development
    build: every run of the site in a browser, with initializers that
    return, is a run of the family, in which an event for one instance is
    an action of its loader and of no other. *)
Theorem site_refinement s es :
  site_ok s → tame (window (shared s)) → Forall (λ ie, tame_event ie.2) es →
  every_build (λ step,
    site_abstraction (site_run step s es) =
    loaders_run (site_abstraction s) (site_trace step s es)).
Proof.
  intros Hok Hw Hes. apply every_build_host. intros step ?.
  by apply site_run_refines.
Qed.

(** C30: in a browser whose initializers return, the order in which the
    host renders two instances matters for the order of the calls only:
    after a mount, re-render or unmount of one instance and one of
    another, taken in either order, every instance is in the same phase
    and the same calls of [loadBanner] have been made, in every build.
    (A change of the global is an event of all instances and is left
    out.) *)
Theorem instances_commute s i j e e' :
  site_ok s → tame (window (shared s)) → i ≠ j →
  is_local e = true → is_local e' = true →
  every_build (λ step,
    phases (site_abstraction (site_run step s [(i, e); (j, e')])) =
      phases (site_abstraction (site_run step s [(j, e'); (i, e)])) ∧
    calls (shared (site_run step s [(i, e); (j, e')])) ≡ₚ
      calls (shared (site_run step s [(j, e'); (i, e)]))).
Proof.
  intros Hok Hw Hij He He'. apply every_build_host. intros step ?.
  by apply site_pair_commutes.
Qed.

End builds.

(** ** The theorems at concrete pages *)

Lemma site_refinement_witness :
  every_build (λ step,
    site_abstraction
      (site_run step (site_initial 2 script_pending)
         [(0, Mount example_props); (1, Environment (script_loaded banner_ok));
          (1, Mount other_props); (0, Rerender other_props); (1, Unmount)]) =
    loaders_run (site_abstraction (site_initial 2 script_pending))
      (site_trace step (site_initial 2 script_pending)
         [(0, Mount example_props); (1, Environment (script_loaded banner_ok));
          (1, Mount other_props); (0, Rerender other_props); (1, Unmount)])).
Proof.
  apply site_refinement; [apply site_initial_ok|apply tame_script_pending|].
  repeat first [apply Forall_nil_2|apply Forall_cons_2]; try exact I.
  by apply tame_script_loaded.
Defined.

Lemma instances_commute_witness :
  every_build (λ step,
    phases
      (site_abstraction
         (site_run step one_banner
            [(0, Rerender other_props); (1, Mount other_props)])) =
      phases
        (site_abstraction
           (site_run step one_banner
              [(1, Mount other_props); (0, Rerender other_props)])) ∧
    calls
      (shared
         (site_run step one_banner
            [(0, Rerender other_props); (1, Mount other_props)]))
      ≡ₚ calls
           (shared
              (site_run step one_banner
                 [(1, Mount other_props); (0, Rerender other_props)]))).
Proof.
  apply instances_commute; [|by apply tame_script_loaded|done..].
  apply (site_run_ok (step := banner_step)), site_initial_ok.
Defined.
