(* ===== verification/Document.v ===== *)
(** * Document: the script element, the document and the life of the script

    What the specification says around the component: the element it
    returns causes a request for the script at a fixed address; the script
    loads at some later point, or never; once it has run, the initializer is
    there.  Hydrogen's [<Script>], the attributes React writes, the way a
    browser treats a script element and the requests of a document are not
    code of this repository; they are modelled from the specification and
    the documented behaviour of the libraries.

    A document is a page of [Lifecycle] together with the requests its
    commits have made.  Its events are those of the host, the hydration of a
    served page, and the two ways a request ends. *)

From S2P Require Import Prelude Js Browser React Banner Lifecycle.

(** ** Markup *)

(** Hydrogen's [<Script>]: a [script] element with the props it was given
    and the nonce of the page's content security policy. *)
Definition hydrogen_Script (nonce : option string)
    (props : list (string * prop_value)) : node :=
  Element (Host "script")
    (props ++ from_option (λ n, [("nonce", PString n)]) [] nonce) [].

(** A tree with Hydrogen's components replaced by what they render. *)
Fixpoint expand (nonce : option string) (n : node) : node :=
  match n with
  | Text s => Text s
  | Element ty props children =>
      match ty with
      | Component "Script" => hydrogen_Script nonce props
      | _ => Element ty props (expand nonce <$> children)
      end
  end.

(** The attribute React writes for a prop: a string as it is, [true] as an
    attribute without value, [false] as no attribute; styles are not
    attributes of their own here. *)
Definition html_attr (kv : string * prop_value) : option (string * string) :=
  match kv.2 with
  | PString s => Some (kv.1, s)
  | PBool true => Some (kv.1, EmptyString)
  | PBool false => None
  | PStyle _ => None
  end.

(** How a browser runs a classic script with a [src] that it finds in the
    markup: out of order with [async], after parsing with [defer], and
    otherwise at once, holding up the parser. *)
Inductive script_mode : Type := Blocking | Deferred | Async.

#[export] Instance script_mode_eq_dec : EqDecision script_mode.
Proof. solve_decision. Defined.

Definition script_mode_of (attrs : list (string * string)) : script_mode :=
  if bool_decide ("async" ∈ attrs.*1) then Async
  else if bool_decide ("defer" ∈ attrs.*1) then Deferred
  else Blocking.

(** The attributes of the first script element of a tree. *)
Fixpoint script_attrs (n : node) : option (list (string * string)) :=
  match n with
  | Text _ => None
  | Element ty props children =>
      match ty with
      | Host "script" => Some (omap html_attr props)
      | _ => head (omap script_attrs children)
      end
  end.

(** ** The document *)

(** [requests]: the addresses of the scripts the document has asked for,
    oldest first.  [pending]: those not yet answered. *)
Record Doc : Type := {
  page : Page;
  requests : list string;
  pending : list string;
  nonce : option string;
}.

Inductive doc_event : Type :=
  | DMount (props : object PrivacyConsentBannerProps)
  | DHydrate (props : object PrivacyConsentBannerProps)
  | DRerender (props : object PrivacyConsentBannerProps)
  | DUnmount
  | DExecutes (b : PrivacyBanner)
  | DFails.

(** The list without the first occurrence of [x]. *)
Fixpoint remove_one (x : string) (l : list string) : list string :=
  match l with
  | [] => []
  | y :: l => if bool_decide (x = y) then l else y :: remove_one x l
  end.

(** The scripts of the element a render returns. *)
Definition rendered_scripts (nonce : option string)
    (props : object PrivacyConsentBannerProps) (cur : option (list hook))
    (w : World) : list string :=
  match render_with_hooks ShopifyCookieBanner props cur w with
  | (Normal (v, _), _) => script_sources (expand nonce v)
  | (Throw _, _) => []
  end.

(** What the host is told when the document sees [e]: a mount for a mount
    and for a hydration, a change of the global when the script runs, and
    nothing when a request fails or when no request is waiting. *)
Definition delivers (d : Doc) (e : doc_event) : option banner_event :=
  match e with
  | DMount props | DHydrate props => Some (Mount props)
  | DRerender props => Some (Rerender props)
  | DUnmount => Some Unmount
  | DExecutes b =>
      if bool_decide (consent_script_src ∈ pending d)
      then Some (Environment (script_loaded b))
      else None
  | DFails => None
  end.

(** The scripts a commit inserts: all of them at a mount, none at a
    hydration (the markup holds them already), the new ones at a
    re-render. *)
Definition inserts (d : Doc) (e : doc_event) : list string :=
  match e, fiber (page d) with
  | DMount props, None =>
      rendered_scripts (nonce d) props None (world (page d))
  | DRerender props, Some hs =>
      list_difference
        (rendered_scripts (nonce d) props (Some hs) (world (page d)))
        (from_option (λ v, script_sources (expand (nonce d) v)) []
           (view (page d)))
  | _, _ => []
  end.

Arguments inserts : simpl never.

(** The request that ends with [e]. *)
Definition settles (e : doc_event) : option string :=
  match e with
  | DExecutes _ | DFails => Some consent_script_src
  | _ => None
  end.

Definition doc_step (d : Doc) (e : doc_event) : Doc :=
  {| page := from_option (banner_step (page d)) (page d) (delivers d e);
     requests := requests d ++ inserts d e;
     pending :=
       from_option (λ x, remove_one x (pending d)) (pending d) (settles e)
       ++ inserts d e;
     nonce := nonce d |}.

Definition doc_run (d : Doc) (es : list doc_event) : Doc :=
  foldl doc_step d es.

(** A page the client builds by itself: nothing is mounted, nothing has
    been asked for, the initializer is not there. *)
Definition fresh_doc (nonce : option string) : Doc :=
  {| page := initial script_pending; requests := []; pending := [];
     nonce := nonce |}.

(** A page that came from the server: the markup holds the script element,
    so the parser has asked for the script before anything is mounted. *)
Definition served_doc (nonce : option string) : Doc :=
  {| page := initial script_pending; requests := [consent_script_src];
     pending := [consent_script_src]; nonce := nonce |}.

(** A visit that starts on the client: the component is mounted on a
    fresh page. *)
Definition client_visit : Doc :=
  doc_run (fresh_doc None) [DMount example_props].

(** ** Invariant and observations *)

(** The initializer is in reach only after a request for its script, from
    a [window] that is bound; every request is for that script. *)
Record doc_ok (d : Doc) : Prop := {
  doc_page_ok : page_ok (page d);
  doc_window : window (world (page d)) ≠ Undeclared;
  doc_caused :
    is_Some (available (world (page d))) → consent_script_src ∈ requests d;
  doc_pending : pending d ⊆ requests d;
  doc_requests : Forall (λ x, x = consent_script_src) (requests d);
}.

(** The host events of a run of the document. *)
Fixpoint host_trace (d : Doc) (es : list doc_event) : list banner_event :=
  match es with
  | [] => []
  | e :: es => option_list (delivers d e) ++ host_trace (doc_step d e) es
  end.

(** An event that neither brings a new props object nor unmounts: a
    re-render with the object [i], or the end of a request. *)
Definition dormant (i : loc) (e : doc_event) : bool :=
  match e with
  | DRerender props => bool_decide (identity props = i)
  | DExecutes _ | DFails => true
  | _ => false
  end.

(** A re-render with the object [i]. *)
Definition idle (i : loc) (e : doc_event) : bool :=
  match e with
  | DRerender props => bool_decide (identity props = i)
  | _ => false
  end.

(** A re-render, with any props. *)
Definition rerenders (e : doc_event) : bool :=
  match e with DRerender _ => true | _ => false end.

(** An event that leaves the instance mounted and brings no script: a
    re-render, or the failure of a request. *)
Definition keeps_mounted (e : doc_event) : bool :=
  match e with DRerender _ | DFails => true | _ => false end.

(** The props object of the last render, [i] being that of the last
    render before [es]. *)
Definition last_rendered (i : loc) (es : list doc_event) : loc :=
  foldl (λ i e, match e with DRerender props => identity props | _ => i end)
    i es.

(** A mount of either kind. *)
Definition remounts (e : doc_event) : bool :=
  match e with
  | DMount _ | DHydrate _ => true
  | _ => false
  end.

(** The instance is mounted with the props object [i] and has not called
    yet. *)
Definition waiting (i : loc) (d : Doc) : Prop :=
  doc_ok d ∧ rendered_with (page d) = Some i ∧
  loaded_of (page d) = Some false.

(** The instance has called once since [d], and its flag is set. *)
Definition loaded_since (d d' : Doc) : Prop :=
  loaded_of (page d') = Some true ∧
  ∃ props, invocations (page d') = invocations (page d) ++ [props].

(** [P] holds of the document at some point of the schedule [es]. *)
Inductive eventually (P : Doc → Prop) : Doc → list doc_event → Prop :=
  | eventually_now d es : P d → eventually P d es
  | eventually_later d e es :
      eventually P (doc_step d e) es → eventually P d (e :: es).

(** ** The script element *)

Section markup.
Implicit Types (nonce : option string) (w : World).
Implicit Types props : object PrivacyConsentBannerProps.

Lemma expand_consent_script nonce :
  expand nonce consent_script = hydrogen_Script nonce consent_script_props.
Proof. done. Qed.

(** The nonce adds no script and takes none away. *)
Lemma script_sources_expand nonce :
  script_sources (expand nonce consent_script) = [consent_script_src].
Proof. by destruct nonce. Qed.

(** Every render of the banner asks for the one script. *)
Lemma rendered_scripts_mount nonce props w :
  rendered_scripts nonce props None w = [consent_script_src].
Proof.
  unfold rendered_scripts. rewrite render_mount. apply script_sources_expand.
Qed.

Lemma rendered_scripts_update nonce props props' l fire w :
  rendered_scripts nonce props' (Some (banner_fiber l fire props)) w =
  [consent_script_src].
Proof.
  unfold rendered_scripts. rewrite render_update. apply script_sources_expand.
Qed.

End markup.

(** ** Steps of the document *)

Section steps.
Implicit Types (d : Doc) (e : doc_event) (es : list doc_event).
Implicit Types (pg : Page) (i : loc).

Lemma remove_one_subseteq x l : remove_one x l ⊆ l.
Proof.
  intros z. induction l as [|y l IH]; simpl; [done|].
  rewrite elem_of_cons. case_bool_decide; [by right|].
  intros [->|Hz]%elem_of_cons; [by left|]. right. by apply IH.
Qed.

Lemma remove_one_length x l : x ∈ l → S (length (remove_one x l)) = length l.
Proof.
  induction l as [|y l IH]; simpl; [by intros ?%elem_of_nil|].
  case_bool_decide as Hxy; [done|].
  intros [->|Hx]%elem_of_cons; [done|]. simpl. by rewrite IH.
Qed.

(** On a page of a banner, a mount inserts the script element and nothing
    else inserts anything. *)
Lemma inserts_ok d e :
  page_ok (page d) →
  inserts d e =
  match e, fiber (page d) with
  | DMount _, None => [consent_script_src]
  | _, _ => []
  end.
Proof.
  unfold inserts. destruct 1 as [w errs|l fire props b w errs Hl], e;
    cbn [fiber view world unmounted from_option]; try done.
  - apply rendered_scripts_mount.
  - rewrite rendered_scripts_update, script_sources_expand.
    by vm_compute.
Qed.

Lemma inserts_requests d e :
  page_ok (page d) → Forall (λ x, x = consent_script_src) (inserts d e).
Proof.
  intros Hok. rewrite (inserts_ok d e Hok).
  destruct e, (fiber (page d)); by repeat constructor.
Qed.

Lemma doc_run_cons d e es : doc_run d (e :: es) = doc_run (doc_step d e) es.
Proof. done. Qed.

Lemma doc_run_app d es1 es2 :
  doc_run d (es1 ++ es2) = doc_run (doc_run d es1) es2.
Proof. apply foldl_app. Qed.

(** A run of the document is, on the page, a run of the host. *)
Lemma doc_run_host d es :
  page (doc_run d es) = banner_run (page d) (host_trace d es).
Proof.
  revert d. induction es as [|e es IH]; intros d; [done|].
  rewrite doc_run_cons, IH. simpl. rewrite run_app.
  by destruct (delivers d e).
Qed.

Lemma page_step_ok d e : page_ok (page d) → page_ok (page (doc_step d e)).
Proof. intros Hok. simpl. destruct (delivers d e); [by apply step_ok|done]. Qed.

(** The initializer in reach depends on [window] alone. *)
Lemma available_window pg pg' :
  window (world pg) = window (world pg') →
  available (world pg) = available (world pg').
Proof. unfold available. by intros ->. Qed.

(** Only the script changes [window]. *)
Lemma doc_step_window d e :
  page_ok (page d) →
  window (world (page (doc_step d e))) =
  match delivers d e with
  | Some (Environment g) => g
  | _ => window (world (page d))
  end.
Proof.
  intros Hok. simpl. destruct (delivers d e) as [he|]; [|done].
  simpl. by rewrite step_window.
Qed.

Lemma delivers_environment d e g :
  delivers d e = Some (Environment g) →
  ∃ b, e = DExecutes b ∧ g = script_loaded b ∧ consent_script_src ∈ pending d.
Proof.
  destruct e; simpl; try done. case_bool_decide; [|done].
  intros [= <-]. eauto.
Qed.

Lemma doc_step_ok d e : doc_ok d → doc_ok (doc_step d e).
Proof.
  intros [Hok Hw Hc Hp Hr]. pose proof (doc_step_window d e Hok) as Hwin.
  split.
  - by apply page_step_ok.
  - rewrite Hwin. destruct (delivers d e) as [[| | |g]|] eqn:He; try done.
    by apply delivers_environment in He as (b & _ & -> & _).
  - intros Ha. simpl. apply elem_of_app. left.
    destruct (delivers d e) as [[| | |g]|] eqn:He;
      try (apply Hc; by rewrite (available_window _ (page (doc_step d e)))).
    apply delivers_environment in He as (b & _ & _ & Hin). by apply Hp.
  - simpl. intros x [Hx|Hx]%elem_of_app; apply elem_of_app; [left|by right].
    apply Hp. destruct (settles e); simpl in Hx; [|done].
    by apply remove_one_subseteq in Hx.
  - simpl. apply Forall_app. by auto using inserts_requests.
Qed.

Lemma fresh_doc_ok nonce : doc_ok (fresh_doc nonce).
Proof. split; simpl; [constructor|done|by intros [? [=]]|done|done]. Qed.

Lemma served_doc_ok nonce : doc_ok (served_doc nonce).
Proof.
  split; simpl; [constructor|done|by intros [? [=]]|done|by repeat constructor].
Qed.

Lemma doc_run_ok d es : doc_ok d → doc_ok (doc_run d es).
Proof. apply run_invariant, doc_step_ok. Qed.

End steps.

(** ** What a schedule does to a mounted instance *)

Section schedules.
Implicit Types (d : Doc) (e : doc_event) (es : list doc_event).
Implicit Types (i : loc) (b : PrivacyBanner).
Implicit Types props : object PrivacyConsentBannerProps.

Lemma eventually_app (P : Doc → Prop) d es1 es2 :
  eventually P (doc_run d es1) es2 → eventually P d (es1 ++ es2).
Proof.
  revert d. induction es1 as [|e es1 IH]; intros d; [done|].
  rewrite doc_run_cons. intros ?%IH. by constructor.
Qed.

Lemma eventually_mono (P Q : Doc → Prop) d es :
  (∀ d', P d' → Q d') → eventually P d es → eventually Q d es.
Proof.
  intros HPQ. induction 1 as [d es HP|d e es _ IH];
    [apply eventually_now|apply eventually_later]; auto.
Qed.

(** What is delivered under a dormant event leaves the props object. *)
Lemma delivers_dormant d e i he :
  dormant i e = true → delivers d e = Some he → same_props i he = true.
Proof.
  destruct e; simpl; try done.
  - by intros ? [= <-].
  - case_bool_decide; [|done]. by intros _ [= <-].
Qed.

Lemma doc_step_dormant d e i :
  doc_ok d → rendered_with (page d) = Some i → dormant i e = true →
  rendered_with (page (doc_step d e)) = Some i ∧
  invocations (page (doc_step d e)) = invocations (page d).
Proof.
  intros Hok Hi He. simpl. destruct (delivers d e) as [he|] eqn:Hd; [|done].
  destruct (step_same_props (page d) he i) as (? & ? & _);
    eauto using doc_page_ok, delivers_dormant.
Qed.

(** A re-render with the props object of the last render. *)
Lemma doc_step_idle d e i :
  waiting i d → idle i e = true →
  waiting i (doc_step d e) ∧
  world (page (doc_step d e)) = world (page d) ∧
  pending (doc_step d e) = pending d.
Proof.
  intros (Hok & Hi & Hl) He. destruct e as [|?|props| | |]; try done.
  apply bool_decide_eq_true in He as <-.
  pose proof (doc_step_ok d (DRerender props) Hok) as Hok'.
  destruct (step_rerender_same (page d) props) as (l & fire & p0 & Hf & Hs);
    [by apply doc_page_ok|done|].
  assert (pending (doc_step d (DRerender props)) = pending d) as Hpd.
  { simpl. by rewrite (inserts_ok d (DRerender props)), app_nil_r
      by apply Hok. }
  unfold waiting. rewrite Hpd.
  change (page (doc_step d (DRerender props)))
    with (banner_step (page d) (Rerender props)).
  rewrite Hs. split_and!; try done.
  unfold loaded_of in *. by rewrite Hf in Hl.
Qed.

Lemma doc_run_idle d es i :
  waiting i d → Forall (λ e, idle i e = true) es →
  waiting i (doc_run d es) ∧
  world (page (doc_run d es)) = world (page d) ∧
  pending (doc_run d es) = pending d.
Proof.
  intros Hd Hes. revert d Hd.
  induction Hes as [|e es He _ IH]; intros d Hd; [done|].
  rewrite doc_run_cons.
  destruct (doc_step_idle d e i Hd He) as (Hd' & <- & <-). by apply IH.
Qed.

(** The script runs: the initializer is there, and nothing else has
    changed for the instance. *)
Lemma doc_step_executes d b i :
  waiting i d → consent_script_src ∈ pending d →
  waiting i (doc_step d (DExecutes b)) ∧
  available (world (page (doc_step d (DExecutes b)))) = Some b ∧
  invocations (page (doc_step d (DExecutes b))) = invocations (page d).
Proof.
  intros (Hok & Hi & Hl) Hp.
  pose proof (doc_step_ok d (DExecutes b) Hok) as Hok'.
  assert (page (doc_step d (DExecutes b)) =
          banner_step (page d) (Environment (script_loaded b))) as Hpg.
  { simpl. by rewrite bool_decide_true. }
  unfold waiting. rewrite Hpg. by split_and!.
Qed.

(** The check that finds the initializer. *)
Lemma doc_step_check d props b i :
  waiting i d → available (world (page d)) = Some b →
  loadBanner b props = Normal tt → identity props ≠ i →
  loaded_of (page (doc_step d (DRerender props))) = Some true ∧
  invocations (page (doc_step d (DRerender props))) =
    invocations (page d) ++ [props].
Proof.
  intros (Hok & Hi & Hl) Ha Hb Hid.
  destruct (rendered_with_fiber (page d) i) as (l & fire & p0 & Hf & <-);
    [by apply doc_page_ok|done|].
  change (page (doc_step d (DRerender props)))
    with (banner_step (page d) (Rerender props)).
  rewrite (step_rerender_call (page d) l fire p0 props b); try done.
  - unfold invocations, loaded_of. simpl. by autorewrite with banner.
  - unfold loaded_of in Hl. rewrite Hf in Hl. by injection Hl.
Qed.

(** A re-render before the script has run: the instance waits on, with
    the props object of this render. *)
Lemma doc_step_rerender_absent d props i :
  waiting i d → available (world (page d)) = None →
  waiting (identity props) (doc_step d (DRerender props)) ∧
  world (page (doc_step d (DRerender props))) = world (page d) ∧
  pending (doc_step d (DRerender props)) = pending d.
Proof.
  intros (Hok & Hi & Hl) Ha.
  pose proof (doc_step_ok d (DRerender props) Hok) as Hok'.
  destruct (rendered_with_fiber (page d) i) as (l & fire & p0 & Hf & _);
    [by apply doc_page_ok|done|].
  destruct (step_rerender_absent (page d) l fire p0 props) as [fire' Hs];
    [done|by apply doc_window|done|].
  assert (pending (doc_step d (DRerender props)) = pending d) as Hpd.
  { simpl. by rewrite (inserts_ok d (DRerender props)), app_nil_r
      by apply Hok. }
  unfold waiting. rewrite Hpd.
  change (page (doc_step d (DRerender props)))
    with (banner_step (page d) (Rerender props)).
  rewrite Hs. split_and!; try done.
  unfold loaded_of in *. by rewrite Hf in Hl.
Qed.

Lemma doc_run_rerenders_absent d es i :
  waiting i d → available (world (page d)) = None →
  Forall (λ e, rerenders e = true) es →
  waiting (last_rendered i es) (doc_run d es) ∧
  world (page (doc_run d es)) = world (page d) ∧
  pending (doc_run d es) = pending d.
Proof.
  intros Hd Ha Hes. revert d i Hd Ha.
  induction Hes as [|e es He _ IH]; intros d i Hd Ha; [done|].
  destruct e as [| |props| | |]; try done. rewrite doc_run_cons.
  destruct (doc_step_rerender_absent d props i Hd Ha) as (Hd' & Hw & Hp).
  rewrite <-Hw, <-Hp. apply IH; [done|by rewrite Hw].
Qed.

(** The failure of a request is nothing to the instance. *)
Lemma doc_step_fails d i :
  waiting i d →
  waiting i (doc_step d DFails) ∧ page (doc_step d DFails) = page d.
Proof.
  intros (Hok & Hi & Hl). split; [|done].
  split; [by apply doc_step_ok|done].
Qed.

(** With the initializer there, the first re-render with a new props
    object calls. *)
Lemma present_rerenders_load d i b es props es' :
  waiting i d → available (world (page d)) = Some b →
  (∀ p, loadBanner b p = Normal tt) →
  Forall (λ e, keeps_mounted e = true) es →
  last_rendered i es ≠ identity props →
  eventually (loaded_since d) d (es ++ DRerender props :: es').
Proof.
  intros Hd Ha Hb Hes. revert d Hd Ha.
  induction Hes as [|e es He _ IH]; intros d Hd Ha Hid; simpl in *.
  - apply eventually_later, eventually_now.
    destruct (doc_step_check d props b i) as [? ?]; [done..|].
    split; eauto.
  - destruct e as [| |p| | |]; try done; simpl in Hid.
    + destruct (decide (identity p = i)) as [Hp|Hp].
      * destruct (doc_step_idle d (DRerender p) i) as (Hd' & Hw & _);
          [done|by apply bool_decide_eq_true|].
        apply eventually_later. rewrite Hp in Hid.
        eapply eventually_mono; [|apply IH; [done|by rewrite Hw|done]].
        intros d' [Hl' [q Hq]]. split; [done|]. exists q.
        unfold invocations in *. by rewrite <-Hw.
      * apply eventually_later, eventually_now.
        destruct (doc_step_check d p b i) as [? ?]; [done..|].
        split; eauto.
    + destruct (doc_step_fails d i Hd) as [Hd' Hpg].
      apply eventually_later.
      eapply eventually_mono; [|apply IH; [done|by rewrite Hpg|done]].
      intros d' [Hl' [q Hq]]. split; [done|]. exists q. by rewrite <-Hpg.
Qed.

(** Without an execution of the script the initializer stays away, and
    the component stays silent. *)
Lemma doc_step_blocked d e :
  doc_ok d → available (world (page d)) = None → (∀ b, e ≠ DExecutes b) →
  available (world (page (doc_step d e))) = None ∧
  invocations (page (doc_step d e)) = invocations (page d) ∧
  uncaught (page (doc_step d e)) = uncaught (page d).
Proof.
  intros Hok Ha He. simpl. destruct (delivers d e) as [he|] eqn:Hd; [|done].
  simpl. rewrite step_absent_uncaught by (done || apply Hok).
  destruct (step_absent (page d) he) as [? ?]; [apply Hok|done| |done].
  destruct e; simplify_eq/=; try done. by destruct (He b).
Qed.

(** Only a mount asks for a script. *)
Lemma requests_by_mount d es x :
  doc_ok d → x ∈ requests (doc_run d es) →
  x ∈ requests d ∨ ∃ props, DMount props ∈ es.
Proof.
  revert d. induction es as [|e es IH]; intros d Hok Hx; [by left|].
  rewrite doc_run_cons in Hx.
  destruct (IH _ (doc_step_ok d e Hok) Hx) as [Hin|[props Hin]].
  - simpl in Hin. rewrite (inserts_ok d e) in Hin by apply Hok.
    apply elem_of_app in Hin as [?|Hin]; [by left|]. right.
    destruct e as [props| | | | |]; try by apply elem_of_nil in Hin.
    exists props. by left.
  - right. exists props. by right.
Qed.

(** The host sees a mount only where the document sees one. *)
Lemma host_trace_mounts d es :
  Forall (λ e, remounts e = false) es →
  Forall (λ he, is_mount he = false) (host_trace d es).
Proof.
  intros Hes. revert d. induction Hes as [|e es He _ IH]; intros d; [done|].
  simpl. apply Forall_app. split; [|apply IH].
  destruct e; simpl; try done; repeat constructor.
  case_bool_decide; by repeat constructor.
Qed.

End schedules.

(** ** The component in its document *)

Section document.
Implicit Types (d : Doc) (e : doc_event) (es : list doc_event).
Implicit Types (i : loc) (b : PrivacyBanner) (nonce : option string).
Implicit Types props : object PrivacyConsentBannerProps.

(** C23: a mount of the component asks for exactly one script, the one at
    the fixed address; a hydration, a re-render, an unmount and the end of
    a request ask for none. *)
Theorem mount_requests_script d e :
  doc_ok d →
  requests (doc_step d e) =
  requests d ++
    match e, fiber (page d) with
    | DMount _, None => [consent_script_src]
    | _, _ => []
    end.
Proof. intros Hok. simpl. by rewrite inserts_ok by apply Hok. Qed.

(** The element of the banner is, as markup, a blocking script at the
    fixed address, whatever the nonce. *)
Lemma consent_script_mode nonce :
  ∃ attrs,
    script_attrs (expand nonce consent_script) = Some attrs ∧
    script_mode_of attrs = Blocking ∧
    ("src", consent_script_src) ∈ attrs ∧
    "async" ∉ attrs.*1.
Proof.
  destruct nonce as [n|]; eexists; (split; [done|]);
    (split; [done|]); (split; [by right; left|]);
    by intros ?%(bool_decide_pack _).
Qed.

(** C28: on every page the host reaches, whatever was mounted, re-rendered
    and unmounted before and whatever the props were, the element on
    screen is, as the markup Hydrogen's [Script] writes for it under any
    nonce, a script at the fixed address that holds up the parser:
    [async={false}] writes no [async] attribute, and there is no
    [defer]. *)
Theorem consent_script_blocking nonce g (trace : list banner_event) v :
  view (banner_run (initial g) trace) = Some v →
  ∃ attrs,
    script_attrs (expand nonce v) = Some attrs ∧
    script_mode_of attrs = Blocking ∧
    ("src", consent_script_src) ∈ attrs ∧
    "async" ∉ attrs.*1.
Proof.
  intros Hv.
  apply (page_ok_view _ _ (run_ok _ trace (initial_ok g))) in Hv as ->.
  apply consent_script_mode.
Qed.

(** On a page the client builds, the initializer is in reach only
    after a mount of the component has asked for its script. *)
Lemma initializer_needs_request nonce es b :
  available (world (page (doc_run (fresh_doc nonce) es))) = Some b →
  consent_script_src ∈ requests (doc_run (fresh_doc nonce) es) ∧
  ∃ props, DMount props ∈ es.
Proof.
  intros Ha. pose proof (doc_run_ok _ es (fresh_doc_ok nonce)) as Hok.
  assert (consent_script_src ∈ requests (doc_run (fresh_doc nonce) es)) as Hin
    by (apply Hok; by rewrite Ha).
  split; [done|].
  by destruct (requests_by_mount _ _ _ (fresh_doc_ok nonce) Hin)
    as [?%elem_of_nil|?].
Qed.

(** A mounted instance does not notice the script: while the host
    re-renders it with the props object of the last render only, the
    arrival of the script, or its failure, makes it call nothing. *)
Lemma script_alone_never_loads d es i :
  doc_ok d → rendered_with (page d) = Some i →
  Forall (λ e, dormant i e = true) es →
  invocations (page (doc_run d es)) = invocations (page d).
Proof.
  intros Hok Hi Hes.
  apply (run_invariant_where doc_step (λ e, dormant i e = true)
    (λ d', doc_ok d' ∧ rendered_with (page d') = Some i ∧
           invocations (page d') = invocations (page d))); [|done..].
  intros d' e He (Hd' & Hi' & Hinv).
  destruct (doc_step_dormant d' e i Hd' Hi' He) as [? ?].
  split_and!; [by apply doc_step_ok|done|congruence].
Qed.

(** A page that came from the server, whose script has run before
    the hydration, as a blocking script does: the hydration calls
    [loadBanner] once with its props, asks for no further script, and
    nothing calls again until the next mount. *)
Lemma served_page_loads_at_hydration nonce b props es :
  loadBanner b props = Normal tt →
  Forall (λ e, remounts e = false) es →
  invocations
    (page (doc_run (served_doc nonce) (DExecutes b :: DHydrate props :: es)))
    = [props] ∧
  requests (doc_run (served_doc nonce) [DExecutes b; DHydrate props])
    = [consent_script_src].
Proof.
  intros Hb Hes. split; [|done].
  rewrite !doc_run_cons, doc_run_host.
  change (page (doc_step (doc_step (served_doc nonce) (DExecutes b))
                  (DHydrate props)))
    with (banner_step (unmounted (blank (script_loaded b)) []) (Mount props)).
  rewrite (step_mount_call _ _ props b) by done.
  by rewrite run_settled
    by auto using called_ok, called_budget, host_trace_mounts.
Qed.

(** C25: when no request for the script is ever answered by an execution,
    the component never calls and never raises: it stays silent, on a page
    from the client and on a page from the server. *)
Theorem blocked_script_silent d es :
  doc_ok d → available (world (page d)) = None →
  Forall (λ e, ∀ b, e ≠ DExecutes b) es →
  invocations (page (doc_run d es)) = invocations (page d) ∧
  uncaught (page (doc_run d es)) = uncaught (page d).
Proof.
  intros Hok Ha Hes.
  cut (doc_ok (doc_run d es) ∧
       available (world (page (doc_run d es))) = None ∧
       invocations (page (doc_run d es)) = invocations (page d) ∧
       uncaught (page (doc_run d es)) = uncaught (page d)); [tauto|].
  apply (run_invariant_where doc_step (λ e, ∀ b, e ≠ DExecutes b)
    (λ d', doc_ok d' ∧ available (world (page d')) = None ∧
           invocations (page d') = invocations (page d) ∧
           uncaught (page d') = uncaught (page d))); [|done..].
  intros d' e He (Hd' & Ha' & Hi & Hu).
  destruct (doc_step_blocked d' e Hd' Ha' He) as (? & ? & ?).
  split_and!; [by apply doc_step_ok|done|congruence..].
Qed.

(** With re-renders that keep the props object before and after the
    script runs, the re-render that brings a new object is the one that
    calls, with the props of that render. *)
Lemma idle_then_render_loads d i b props es1 es2 es3 :
  waiting i d → consent_script_src ∈ pending d →
  loadBanner b props = Normal tt → identity props ≠ i →
  Forall (λ e, idle i e = true) es1 → Forall (λ e, idle i e = true) es2 →
  eventually
    (λ d', loaded_of (page d') = Some true ∧
           invocations (page d') = invocations (page d) ++ [props])
    d (es1 ++ DExecutes b :: es2 ++ DRerender props :: es3).
Proof.
  intros Hd Hp Hb Hid Hes1 Hes2.
  destruct (doc_run_idle d es1 i Hd Hes1) as (Hd1 & Hw1 & Hp1).
  apply eventually_app, eventually_later.
  destruct (doc_step_executes (doc_run d es1) b i Hd1) as (Hd2 & Ha2 & Hi2);
    [by rewrite Hp1|].
  destruct (doc_run_idle _ es2 i Hd2 Hes2) as (Hd3 & Hw3 & _).
  apply eventually_app, eventually_later, eventually_now.
  destruct (doc_step_check _ props b i Hd3) as [Hl Hinv];
    [by rewrite Hw3|done..|].
  split; [done|]. rewrite Hinv. unfold invocations in *.
  by rewrite Hw3, Hi2, Hw1.
Qed.

(** C6: a mounted instance that waits for the script calls in the end,
    provided the script runs and the host then re-renders the component
    with a new props object: however often and with whatever props the
    host re-renders before the script has run, and whatever requests fail
    after, [loadBanner] is invoked once and the flag is set, at the latest
    at the re-render that brings an object other than that of the render
    before it. *)
Theorem script_then_render_loads d i b props es1 es2 es3 :
  waiting i d → available (world (page d)) = None →
  consent_script_src ∈ pending d →
  (∀ p, loadBanner b p = Normal tt) →
  Forall (λ e, rerenders e = true) es1 →
  Forall (λ e, keeps_mounted e = true) es2 →
  last_rendered (last_rendered i es1) es2 ≠ identity props →
  eventually (loaded_since d) d
    (es1 ++ DExecutes b :: es2 ++ DRerender props :: es3).
Proof.
  intros Hd Ha Hp Hb Hes1 Hes2 Hid.
  destruct (doc_run_rerenders_absent d es1 i Hd Ha Hes1) as (Hd1 & Hw1 & Hp1).
  apply eventually_app, eventually_later.
  destruct (doc_step_executes (doc_run d es1) b _ Hd1) as (Hd2 & Ha2 & Hi2);
    [by rewrite Hp1|].
  eapply eventually_mono;
    [|by apply (present_rerenders_load _ _ b es2 props es3 Hd2)].
  intros d' [Hl [q Hq]]. split; [done|]. exists q.
  unfold invocations in *. by rewrite Hq, Hi2, Hw1.
Qed.

End document.

(** ** The theorems at concrete documents *)

Lemma client_visit_waiting : waiting 100 client_visit.
Proof. split_and!; [apply doc_run_ok, fresh_doc_ok|done..]. Qed.

Lemma mount_requests_script_witness :
  requests (doc_step (fresh_doc None) (DMount example_props)) =
  requests (fresh_doc None) ++ [consent_script_src].
Proof.
  apply (mount_requests_script (fresh_doc None) (DMount example_props)),
    fresh_doc_ok.
Defined.

Lemma consent_script_blocking_witness :
  ∃ attrs,
    script_attrs (expand (Some "r4nd0m") consent_script) = Some attrs ∧
    script_mode_of attrs = Blocking ∧
    ("src", consent_script_src) ∈ attrs ∧
    "async" ∉ attrs.*1.
Proof.
  apply (consent_script_blocking (Some "r4nd0m") script_pending
           [Mount example_props; Rerender other_props] consent_script).
  reflexivity.
Defined.

Lemma blocked_script_silent_witness :
  invocations
    (page (doc_run (served_doc None)
             [DFails; DHydrate example_props; DRerender other_props])) =
    invocations (page (served_doc None)) ∧
  uncaught
    (page (doc_run (served_doc None)
             [DFails; DHydrate example_props; DRerender other_props])) =
    uncaught (page (served_doc None)).
Proof.
  apply (blocked_script_silent (served_doc None)
           [DFails; DHydrate example_props; DRerender other_props]);
    [apply served_doc_ok|done|by repeat constructor].
Defined.

Lemma script_then_render_loads_witness :
  eventually (loaded_since client_visit) client_visit
    ([DRerender other_props; DRerender example_props] ++
     DExecutes banner_ok ::
       [DFails; DRerender example_props] ++
       DRerender other_props :: [DUnmount]).
Proof.
  apply (script_then_render_loads client_visit 100 banner_ok other_props
           [DRerender other_props; DRerender example_props]
           [DFails; DRerender example_props] [DUnmount]);
    [apply client_visit_waiting|done|by left|done|by repeat constructor..|done].
Defined.
