(* ===== verification/Address.v ===== *)
(** * Address: the addresses a link refers to

    The part of an address the index route uses: a path that starts with
    [/] and a query of [name=value] parameters, read the way
    [URLSearchParams] reads them and written the way it writes them.
    Fragments, relative references and percent-encoding are left out: the
    route's link has none. *)

From Stdlib Require Import Ascii.
From S2P Require Import Prelude.

(** ** Reading an address *)

(** [s] up to the first [c], and what follows it if there is one. *)
Fixpoint split_at (c : Ascii.ascii) (s : string) : string * option string :=
  match s with
  | EmptyString => (EmptyString, None)
  | String a s' =>
      if Ascii.eqb a c then (EmptyString, Some s')
      else let '(h, t) := split_at c s' in (String a h, t)
  end.

(** The fields of [s] between occurrences of [c]. *)
Fixpoint split_all (c : Ascii.ascii) (s : string) : list string :=
  match s with
  | EmptyString => [EmptyString]
  | String a s' =>
      if Ascii.eqb a c then EmptyString :: split_all c s'
      else
        match split_all c s' with
        | h :: t => String a h :: t
        | [] => [String a EmptyString]
        end
  end.

(** The fields joined again. *)
Definition join (c : Ascii.ascii) (l : list string) : string :=
  match l with
  | [] => EmptyString
  | h :: t => foldl (λ acc f, String.append acc (String c f)) h t
  end.

(** One [name=value] pair. *)
Definition parse_pair (s : string) : string * string :=
  let '(k, v) := split_at "="%char s in (k, default EmptyString v).

(** The parameters after the first [?] of an address, empty fields
    dropped, as [URLSearchParams] lists them (without decoding). *)
Definition parse_query (href : string) : list (string * string) :=
  match split_at "?"%char href with
  | (_, Some q) =>
      parse_pair <$> filter (λ f, f ≠ EmptyString) (split_all "&"%char q)
  | (_, None) => []
  end.

(** Whether [c] occurs in [s]. *)
Fixpoint occurs (c : Ascii.ascii) (s : string) : bool :=
  match s with
  | EmptyString => false
  | String a s' => Ascii.eqb a c || occurs c s'
  end.

Record url : Type := { path : string; query : list (string * string) }.

(** Follow a link from [current]: an address that starts with [/] replaces
    the path and the query; any other is left to the browser and not
    resolved here. *)
Definition navigate (current : url) (href : string) : option url :=
  match href with
  | String "/"%char _ =>
      Some {| path := (split_at "?"%char href).1; query := parse_query href |}
  | _ => None
  end.

(** ** Writing an address *)

(** [name=value]. *)
Definition print_pair (kv : string * string) : string :=
  String.append kv.1 (String "="%char kv.2).

(** The parameters joined by [&]. *)
Definition print_query (q : list (string * string)) : string :=
  join "&"%char (print_pair <$> q).

(** The address of [u]: the path, then [?] and the query when there is
    one. *)
Definition print_url (u : url) : string :=
  String.append (path u)
    match query u with
    | [] => EmptyString
    | q => String "?"%char (print_query q)
    end.

(** ** Addresses that can be written and read back *)

(** A name holds neither [&] nor [=], a value no [&]. *)
Definition pair_wf (kv : string * string) : bool :=
  negb (occurs "&"%char kv.1) && negb (occurs "="%char kv.1) &&
  negb (occurs "&"%char kv.2).

(** The path starts with [/] and holds no [?]. *)
Definition url_wf (u : url) : bool :=
  match path u with String "/"%char _ => true | _ => false end &&
  negb (occurs "?"%char (path u)) && forallb pair_wf (query u).

(** ** Splitting and joining *)

Section addresses.
Implicit Types (c : Ascii.ascii) (s t : string).

Lemma append_cons (a : Ascii.ascii) s t :
  String.append (String a s) t = String a (String.append s t).
Proof. done. Qed.

Lemma append_assoc s t u :
  String.append (String.append s t) u = String.append s (String.append t u).
Proof.
  induction s as [|a s IH]; [done|]. by rewrite !append_cons, IH.
Qed.

Lemma split_at_miss c s : occurs c s = false → split_at c s = (s, None).
Proof.
  induction s as [|a s IH]; simpl; [done|].
  destruct (Ascii.eqb a c); simpl; [done|]. by intros ->%IH.
Qed.

Lemma split_at_first c s t :
  occurs c s = false → split_at c (String.append s (String c t)) = (s, Some t).
Proof.
  induction s as [|a s IH]; [intros _|]; rewrite ?append_cons; simpl.
  - by rewrite Ascii.eqb_refl.
  - destruct (Ascii.eqb a c); simpl; [done|]. by intros ->%IH.
Qed.

Lemma split_all_nonempty c s : split_all c s ≠ [].
Proof.
  destruct s as [|a s]; simpl; [done|].
  destruct (Ascii.eqb a c); [done|]. by destruct (split_all c s).
Qed.

Lemma join_prepend c s h (t : list string) :
  foldl (λ acc f, String.append acc (String c f)) (String.append s h) t =
  String.append s (foldl (λ acc f, String.append acc (String c f)) h t).
Proof.
  revert h. induction t as [|f t IH]; intros h; simpl; [done|].
  by rewrite append_assoc, IH.
Qed.

Lemma join_cons c h (t : list string) :
  t ≠ [] → join c (h :: t) = String.append h (String c (join c t)).
Proof.
  destruct t as [|f t]; [done|intros _]. unfold join. simpl.
  by rewrite (join_prepend c h (String c f)),
    (join_prepend c (String c EmptyString) f).
Qed.

(** Joining the fields gives the string back. *)
Lemma join_split_all c s : join c (split_all c s) = s.
Proof.
  induction s as [|a s IH]; simpl; [done|].
  pose proof (split_all_nonempty c s) as Hne.
  destruct (Ascii.eqb_spec a c) as [->|_].
  - by rewrite join_cons, IH.
  - destruct (split_all c s) as [|h [|f t]]; [done|..].
    + simpl in *. by rewrite IH.
    + rewrite join_cons in IH |- * by done. by rewrite append_cons, IH.
Qed.

(** An address that starts with [/] resolves whatever the current one
    is. *)
Lemma navigate_absolute current current' href :
  navigate current href = navigate current' href.
Proof. done. Qed.

End addresses.

(** ** Reading what was written *)

Section roundtrip.
Implicit Types (c : Ascii.ascii) (s t : string) (kv : string * string).
Implicit Types (q : list (string * string)) (u : url).

Lemma append_nil_r s : String.append s EmptyString = s.
Proof. induction s as [|a s IH]; [done|]. by rewrite append_cons, IH. Qed.

Lemma occurs_app c s t :
  occurs c (String.append s t) = occurs c s || occurs c t.
Proof.
  induction s as [|a s IH]; [done|].
  rewrite append_cons. simpl. by rewrite IH, orb_assoc.
Qed.

(** A string without the separator is one field. *)
Lemma split_all_miss c s : occurs c s = false → split_all c s = [s].
Proof.
  induction s as [|a s IH]; simpl; [done|].
  destruct (Ascii.eqb a c); simpl; [done|]. by intros ->%IH.
Qed.

(** The first field ends at the first separator. *)
Lemma split_all_first c s t :
  occurs c s = false →
  split_all c (String.append s (String c t)) = s :: split_all c t.
Proof.
  induction s as [|a s IH]; [intros _|]; rewrite ?append_cons; simpl.
  - by rewrite Ascii.eqb_refl.
  - destruct (Ascii.eqb a c); simpl; [done|]. by intros ->%IH.
Qed.

(** Splitting what was joined gives the fields back, when no field holds
    the separator. *)
Lemma split_all_join c (l : list string) :
  l ≠ [] → Forall (λ s, occurs c s = false) l → split_all c (join c l) = l.
Proof.
  intros Hne Hl. induction Hl as [|h t Hh Ht IH]; [done|].
  destruct t as [|f t]; [by apply split_all_miss|].
  by rewrite join_cons, split_all_first, IH.
Qed.

Lemma pair_wf_spec kv :
  pair_wf kv = true →
  occurs "&"%char kv.1 = false ∧ occurs "="%char kv.1 = false ∧
  occurs "&"%char kv.2 = false.
Proof.
  unfold pair_wf. rewrite !andb_true_iff, !negb_true_iff. tauto.
Qed.

Lemma print_pair_field kv :
  pair_wf kv = true →
  occurs "&"%char (print_pair kv) = false ∧ print_pair kv ≠ EmptyString.
Proof.
  intros (Hn & _ & Hv)%pair_wf_spec. unfold print_pair. split.
  - rewrite occurs_app. simpl. by rewrite Hn, Hv.
  - by destruct kv.1.
Qed.

(** A pair is read back as it was written. *)
Lemma parse_print_pair kv : pair_wf kv = true → parse_pair (print_pair kv) = kv.
Proof.
  intros (_ & Hn & _)%pair_wf_spec. unfold parse_pair, print_pair.
  rewrite split_at_first by done. by destruct kv.
Qed.

(** A query is read back as it was written. *)
Lemma parse_print_query q :
  forallb pair_wf q = true →
  parse_query (String "?"%char (print_query q)) = q.
Proof.
  rewrite forallb_Forall. intros Hq. unfold parse_query, print_query. simpl.
  destruct (decide (q = [])) as [->|Hne]; [done|].
  assert (Forall (λ s, occurs "&"%char s = false ∧ s ≠ EmptyString)
            (print_pair <$> q)) as Hfields.
  { apply Forall_fmap, (Forall_impl _ _ _ Hq). intros kv.
    apply print_pair_field. }
  rewrite split_all_join.
  - rewrite filter_all by (eapply Forall_impl; [done|]; by intros ? []).
    rewrite <-list_fmap_compose. rewrite <-(list_fmap_id q) at 2.
    apply list_fmap_ext. intros i kv Hkv. apply parse_print_pair.
    by apply (Forall_lookup_1 _ _ _ _ Hq Hkv).
  - by destruct q.
  - eapply Forall_impl; [done|]. by intros ? [].
Qed.

(** The query starts after the first [?]. *)
Lemma parse_query_path s t :
  occurs "?"%char s = false →
  parse_query (String.append s (String "?"%char t)) =
  parse_query (String "?"%char t).
Proof.
  intros Hs. unfold parse_query. by rewrite split_at_first.
Qed.

Lemma navigate_slash current s :
  navigate current (String "/"%char s) =
  Some {| path := (split_at "?"%char (String "/"%char s)).1;
          query := parse_query (String "/"%char s) |}.
Proof. done. Qed.

Lemma starts_with_slash s :
  match s with String "/"%char _ => true | _ => false end = true →
  ∃ t, s = String "/"%char t.
Proof.
  destruct s as [|a t]; [done|]. intros Ha. exists t. f_equal.
  by destruct a as [[][][][][][][][]].
Qed.

(** An address is read back as it was written, wherever the reader is. *)
Lemma navigate_print current u :
  url_wf u = true → navigate current (print_url u) = Some u.
Proof.
  destruct u as [p0 q]. unfold url_wf, print_url. cbn [path query].
  rewrite !andb_true_iff, negb_true_iff.
  intros [[[p ->]%starts_with_slash Hp] Hq].
  rewrite append_cons, navigate_slash, <-append_cons.
  destruct q as [|kv q].
  - rewrite append_nil_r. unfold parse_query. by rewrite split_at_miss.
  - rewrite split_at_first, parse_query_path by done.
    by rewrite parse_print_query.
Qed.

End roundtrip.

