(* ===== verification/Homepage.v ===== *)
(** * Homepage: the index route

    src/app/routes/_index.tsx: a function component without props, hooks or
    effects that returns a fixed tree: a heading and a paragraph with the
    query parameter that forces the banner, once as text and once as the
    target of a link. *)

From Stdlib Require Import Ascii.
From S2P Require Import Prelude Js Browser React Banner Address.

(** ** The route *)

(** [style={{padding: '20px'}}]. *)
Definition container_style : prop_value := PStyle [("padding", "20px")].

(** The text of [<h1>]. *)
Definition heading_text : string := "Shopify Cookie Consent Banner".

(** [<h1>]. *)
Definition homepage_heading : node :=
  Element (Host "h1") [] [Text heading_text].

(** The text of [<code>]. *)
Definition preview_query : string := "?preview_privacy_banner=1".

Definition preview_code : node :=
  Element (Host "code") [] [Text preview_query].

(** [style={{textDecoration: 'underline'}}]. *)
Definition link_style : prop_value := PStyle [("textDecoration", "underline")].

(** [href]. *)
Definition preview_href : string := "/?preview_privacy_banner=1".

(** The text of [<a>]: JSX trims the lines around it. *)
Definition link_text : string := "here".

(** The props of [<a>]. *)
Definition preview_link_props : list (string * prop_value) :=
  [("style", link_style); ("href", PString preview_href)].

(** [<a>]. *)
Definition preview_link : node :=
  Element (Host "a") preview_link_props [Text link_text].

(** The text before [<code>]: JSX drops the line break and the
    indentation around it. *)
Definition instruction_lead : string := "To force the consent banner, append".

(** The text between [<code>] and [<a>]: the blank after [</code>] is
    kept. *)
Definition instruction_rest : string := " to the url or click".

(** [{' '}]: a blank that survives the end of the line. *)
Definition jsx_space : node := Text " ".

(** [<p>]: each [{' '}] is a child of its own. *)
Definition homepage_paragraph : node :=
  Element (Host "p") []
    [Text instruction_lead; jsx_space; preview_code;
     Text instruction_rest; jsx_space; preview_link].

(** The returned tree. *)
Definition homepage_view : node :=
  Element (Host "div") [("style", container_style)]
    [homepage_heading; homepage_paragraph].

(** [export default function Homepage()]. *)
Definition Homepage (_ : unit) : Render node := mret homepage_view.

(** [export default]: the one binding the module exports. *)
Definition homepage_exports : list export := [Default "Homepage"].

(** ** Reading a tree *)

(** The text a browser shows for a tree ([textContent]). *)
Fixpoint text_content (n : node) : string :=
  match n with
  | Text s => s
  | Element _ _ children =>
      foldr (λ c acc, String.append (text_content c) acc) EmptyString children
  end.

(** The targets of the links of a tree, in document order. *)
Fixpoint hrefs (n : node) : list string :=
  match n with
  | Text _ => []
  | Element ty props children =>
      match ty with
      | Host "a" =>
          omap (λ kv, match kv with
                      | ("href", PString s) => Some s
                      | _ => None
                      end) props
      | _ => []
      end ++ concat (hrefs <$> children)
  end.

(** The number of elements and texts of a tree. *)
Fixpoint size (n : node) : nat :=
  match n with
  | Text _ => 1
  | Element _ _ children => S (sum_list (size <$> children))
  end.

(** ** What the page tells the reader *)

(** The address the link stands for. *)
Definition preview_target : url :=
  {| path := "/"; query := [("preview_privacy_banner", "1")] |}.

(** What the paragraph tells the reader to do: write the parameter after
    the address in the address bar. *)
Definition append_parameter (address : string) : string :=
  String.append address preview_query.

(** ** Pages of the route *)

(** The pages of the route: unmounted, or mounted with no hook. *)
Definition hookless (pg : Page) : Prop := fiber pg = None ∨ fiber pg = Some [].

(** The page once the route is rendered. *)
Definition shown (w : World) (errs : list exn) : Page :=
  {| fiber := Some []; view := Some homepage_view; world := w;
     uncaught := errs |}.

(** ** The tree *)

Section homepage.

(** The page reads as one sentence after its heading, with single blanks
    around the parameter and before the link. *)
Lemma homepage_text :
  text_content homepage_paragraph =
    "To force the consent banner, append ?preview_privacy_banner=1 to the url or click here"
  ∧ text_content homepage_heading = "Shopify Cookie Consent Banner"
  ∧ text_content homepage_view =
      String.append (text_content homepage_heading)
        (text_content homepage_paragraph).
Proof. by split_and!. Qed.

(** The page has exactly one link, and following it from any address
    leads to the index with the parameter [preview_privacy_banner=1] as its
    whole query: parameters of the current address are not kept. *)
Lemma preview_link_target current :
  hrefs homepage_view = [preview_href] ∧
  navigate current preview_href =
    Some {| path := "/"; query := [("preview_privacy_banner", "1")] |}.
Proof. by split. Qed.

(** The parameter the text tells the reader to append is the one the link
    sets. *)
Lemma documented_parameter_is_linked :
  parse_query preview_query = parse_query preview_href ∧
  preview_href = String.append "/" preview_query.
Proof. by split. Qed.

(** Appending the parameter to an address without a query, as the
    paragraph says, gives an address whose query is the parameter. *)
Lemma append_to_plain_address address :
  occurs "?" address = false →
  split_at "?" (append_parameter address) =
    (address, Some "preview_privacy_banner=1") ∧
  parse_query (append_parameter address) = [("preview_privacy_banner", "1")].
Proof.
  intros Hq. unfold append_parameter, parse_query, preview_query.
  by rewrite split_at_first.
Qed.

(** Appended to an address that has a query already, the text of the
    paragraph does not set the parameter: it becomes part of the value of
    the last parameter. *)
Lemma append_to_address_with_query :
  parse_query (append_parameter "/products?sort=asc") =
    [("sort", "asc?preview_privacy_banner=1")] ∧
  ("preview_privacy_banner", "1")
    ∉ parse_query (append_parameter "/products?sort=asc").
Proof. split; [done|]. vm_compute. by intros [[=]|[]%elem_of_nil]%elem_of_cons. Qed.

(** The link is written the way addresses are written: printing an
    address and following it leads to that address, from anywhere, and the
    link's [href] is the printed form of the index with the preview
    parameter and of no other address. *)
Lemma link_roundtrip current u :
  url_wf u = true →
  navigate current (print_url u) = Some u ∧
  (print_url u = preview_href ↔ u = preview_target).
Proof.
  intros Hu. pose proof (navigate_print current u Hu) as Hnav.
  split; [done|]. split; [|by intros ->].
  intros Hp. rewrite Hp in Hnav. by injection Hnav.
Qed.

End homepage.

(** ** The component *)

Section component.
Implicit Types (pg : Page) (e : event unit) (w : World).

Lemma render_homepage cur w :
  cur = None ∨ cur = Some [] →
  w ⊢ render_with_hooks Homepage () cur ⇓ Normal (homepage_view, []) ⊣ w.
Proof. by intros [->| ->]. Qed.

(** The route calls no hook. *)
#[export] Instance homepage_static_hooks : StaticHooks Homepage [].
Proof.
  split.
  - intros [] w. by exists homepage_view, [], w.
  - intros [] [|] w Hk; [|done]. by exists homepage_view, [], w.
Qed.

Lemma hookless_shaped pg : hookless pg ↔ shaped [] pg.
Proof.
  unfold hookless, shaped. split.
  - by intros [->| ->] hs [= <-].
  - destruct (fiber pg) as [hs|]; [|by left]. intros Hs. right.
    by rewrite (fmap_nil_inv kind_of hs (Hs hs eq_refl)).
Qed.

(** What the runtime guarantees a component without effects holds of the
    route: a re-render touches neither the page state nor the errors. *)
Lemma homepage_rerender_pure pg :
  hookless pg → is_Some (fiber pg) →
  is_Some (fiber (step Homepage pg (Rerender ()))) ∧
  world (step Homepage pg (Rerender ())) = world pg ∧
  uncaught (step Homepage pg (Rerender ())) = uncaught pg.
Proof.
  intros Hpg%hookless_shaped Hf.
  apply (rerender_effect_free Homepage []); [apply not_elem_of_nil|done..].
Qed.

(** The route is static: mounting and re-rendering it shows the same
    tree, runs no effect, raises nothing and leaves the state of the page
    to the environment. *)
Lemma homepage_is_static pg e :
  hookless pg →
  hookless (step Homepage pg e) ∧
  step Homepage pg e =
    match e, fiber pg with
    | Mount _, None | Rerender _, Some _ => shown (world pg) (uncaught pg)
    | Unmount, Some _ => unmounted (world pg) (uncaught pg)
    | Environment g, _ =>
        {| fiber := fiber pg; view := view pg;
           world := with_window g (world pg); uncaught := uncaught pg |}
    | _, _ => pg
    end.
Proof.
  unfold hookless. destruct pg as [f v w errs]; simpl.
  intros [->| ->]; destruct e as [[]|[]| |g]; simpl; auto.
Qed.

End component.

(** ** The theorems at concrete pages *)

