(* ===== verification/Tree.v ===== *)
(** * Tree: from a tree of elements to the elements of the document

    An element names a host tag or a component.  To show a tree, React
    calls the component of every component element with the props of the
    element and goes on with the element it returns, until host elements
    are all that is left.  Nothing in that procedure bounds it: a component
    that returns an element of itself is rendered for ever.  This file
    states the procedure with fuel ([render_tree]), gives the condition under
    which it ends and the fuel that is enough ([ranked],
    [render_tree_enough]), and applies it to the three components a page
    of this repository is made of: [Homepage], [ShopifyCookieBanner] and
    Hydrogen's [Script], rendered as on the server, where [window] is not
    declared and no effect runs.

    The procedure and the server are React's; the components are the
    definitions of [Banner], [Homepage] and [Document]. *)

From S2P Require Import Prelude Js Browser React Banner Lifecycle Document.
From S2P Require Import Address Homepage.

(** ** Props of an element, props of the component *)

(** The value of the attribute [name] of an element: JSX builds an object
    of the attributes, so the last one written wins. *)
Fixpoint jsx_prop (name : string) (ps : list (string * prop_value)) :
    option prop_value :=
  match ps with
  | [] => None
  | (k, v) :: ps =>
      match jsx_prop name ps with
      | Some v' => Some v'
      | None => if bool_decide (k = name) then Some v else None
      end
  end.

Definition string_prop (name : string) (ps : list (string * prop_value)) :
    option string :=
  match jsx_prop name ps with Some (PString s) => Some s | _ => None end.

(** The props object of an element of the banner, when its attributes have
    the type the component declares: four strings. *)
Definition config_of (ps : list (string * prop_value)) :
    option PrivacyConsentBannerProps :=
  a ← string_prop "checkoutRootDomain" ps;
  b ← string_prop "shopDomain" ps;
  c ← string_prop "storefrontAccessToken" ps;
  d ← string_prop "storefrontRootDomain" ps;
  Some {| checkoutRootDomain := a; shopDomain := b;
          storefrontAccessToken := c; storefrontRootDomain := d |}.

(** The attributes of [<ShopifyCookieBanner {...config} />]. *)
Definition config_props (c : PrivacyConsentBannerProps) :
    list (string * prop_value) :=
  [("checkoutRootDomain", PString (checkoutRootDomain c));
   ("shopDomain", PString (shopDomain c));
   ("storefrontAccessToken", PString (storefrontAccessToken c));
   ("storefrontRootDomain", PString (storefrontRootDomain c))].

(** ** The server *)

(** On the server the identifier [window] is not declared. *)
Definition server_world : World := blank Undeclared.

(** A render on the server: the component is called once on a new fiber
    and no effect is run; what is kept is the element. *)
Definition server_view {P} (C : P → Render node) (props : P) :
    completion exn node :=
  match render_with_hooks C props None server_world with
  | (Normal (v, _), _) => Normal v
  | (Throw e, _) => Throw e
  end.

(** ** Components by name *)

(** What a name of a component stands for: from the attributes of the
    element to the element rendered, or an exception. *)
Abbreviation registry :=
  (gmap string (list (string * prop_value) → completion exn node)).

(** The element of a banner whose attributes do not have the declared
    type never reaches the browser: the type checker rejects it. *)
Definition ill_typed : exn := TypeError "PrivacyConsentBannerProps".

Definition banner_entry (ps : list (string * prop_value)) :
    completion exn node :=
  match config_of ps with
  | Some c => server_view ShopifyCookieBanner (Obj 1%positive c)
  | None => Throw ill_typed
  end.

(** The components of a page of the storefront. *)
Definition storefront (nonce : option string) : registry :=
  {[ "Script" := λ ps, Normal (hydrogen_Script nonce ps);
     "ShopifyCookieBanner" := banner_entry;
     "Homepage" := λ _, server_view Homepage () ]}.

(** ** Rendering *)

(** Apply [f] to the elements of a list in order; the first exception
    ends it, and so does the first element for which the fuel runs out. *)
Fixpoint collect {A B E} (f : A → option (completion E B)) (l : list A) :
    option (completion E (list B)) :=
  match l with
  | [] => Some (Normal [])
  | x :: l =>
      match f x with
      | Some (Normal y) =>
          match collect f l with
          | Some (Normal ys) => Some (Normal (y :: ys))
          | r => r
          end
      | Some (Throw e) => Some (Throw e)
      | None => None
      end
  end.

(** Render a tree with [fuel] nested calls at most: [None] when the fuel
    runs out.  A name that stands for nothing is a [ReferenceError].  The
    children of a component element are props of the component; the
    components here take none. *)
Fixpoint render_tree (fuel : nat) (reg : registry) (n : node) :
    option (completion exn node) :=
  match fuel with
  | 0 => None
  | S fuel =>
      match n with
      | Text s => Some (Normal (Text s))
      | Element (Host tag) props children =>
          match collect (render_tree fuel reg) children with
          | Some (Normal cs) => Some (Normal (Element (Host tag) props cs))
          | Some (Throw e) => Some (Throw e)
          | None => None
          end
      | Element (Component name) props _ =>
          match reg !! name with
          | Some C =>
              match C props with
              | Normal v => render_tree fuel reg v
              | Throw e => Some (Throw e)
              end
          | None => Some (Throw (ReferenceError name))
          end
      end
  end.

(** ** Measures *)

(** The host elements and texts on the longest path of a tree; a component
    element counts as one, whatever its children. *)
Fixpoint depth (n : node) : nat :=
  match n with
  | Text _ => 1
  | Element (Host _) _ children => S (max_list_with depth children)
  | Element (Component _) _ _ => 1
  end.

(** The highest rank of a component that rendering meets in a tree, plus
    one; zero for a tree of host elements. *)
Fixpoint level (rk : string → nat) (n : node) : nat :=
  match n with
  | Text _ => 0
  | Element (Host _) _ children => max_list_with (level rk) children
  | Element (Component name) _ _ => S (rk name)
  end.

(** The fuel that is enough for a tree, when no component returns a tree
    deeper than [D]. *)
Definition enough (rk : string → nat) (D : nat) (n : node) : nat :=
  depth n + D * level rk n.

(** A registry is ranked when every component returns a tree no deeper
    than [D] whose components are of lower rank. *)
Record ranked (rk : string → nat) (D : nat) (reg : registry) : Prop := {
  ranked_depth name C ps v :
    reg !! name = Some C → C ps = Normal v → depth v ≤ D;
  ranked_level name C ps v :
    reg !! name = Some C → C ps = Normal v → level rk v ≤ rk name;
}.

(** A tree of host elements. *)
Fixpoint host_only (n : node) : bool :=
  match n with
  | Text _ => true
  | Element (Host _) _ children => forallb host_only children
  | Element (Component _) _ _ => false
  end.

(** The ranks of the storefront: the banner renders [Script]; [Script] and
    the route render host elements. *)
Definition storefront_rank (name : string) : nat :=
  if bool_decide (name = "ShopifyCookieBanner") then 1 else 0.

(** The depth of the deepest tree a component of the storefront returns:
    that of the route. *)
Definition storefront_depth : nat := depth homepage_view.

(** A component that renders itself. *)
Definition looping : registry :=
  {[ "Loop" := λ _, Normal (Element (Component "Loop") [] []) ]}.

(** A tree is well typed for the storefront when its component elements
    name components of the storefront and the elements of the banner have
    the props the component declares. *)
Fixpoint checks (n : node) : bool :=
  match n with
  | Text _ => true
  | Element (Host _) _ children => forallb checks children
  | Element (Component name) ps _ =>
      bool_decide (name = "Script") || bool_decide (name = "Homepage") ||
      (bool_decide (name = "ShopifyCookieBanner") && bool_decide (is_Some (config_of ps)))
  end.

(** A page of the storefront: the route and the banner, side by side. *)
Definition storefront_page (c : PrivacyConsentBannerProps) : node :=
  Element (Host "body") []
    [Element (Component "Homepage") [] [];
     Element (Component "ShopifyCookieBanner") (config_props c) []].

(** What the browser receives for it. *)
Definition served_page (nonce : option string) : node :=
  Element (Host "body") []
    [homepage_view; hydrogen_Script nonce consent_script_props].

(** ** Lists of results *)

Section collect.
Context {A B E : Type}.
Implicit Types (f g : A → option (completion E B)) (l : list A).

Lemma collect_is_Some f l :
  Forall (λ x, is_Some (f x)) l → is_Some (collect f l).
Proof.
  induction 1 as [|x l [[y|e] Hx] _ [r IH]]; simpl; [done|..];
    rewrite Hx; [|done]. rewrite IH. by destruct r.
Qed.

(** The results do not change when [f] is replaced by a function that
    gives what [f] gives wherever [f] gives something. *)
Lemma collect_mono f g l r :
  (∀ x rx, x ∈ l → f x = Some rx → g x = Some rx) →
  collect f l = Some r → collect g l = Some r.
Proof.
  revert r. induction l as [|x l IH]; intros r Hfg; simpl; [done|].
  destruct (f x) as [[y|e]|] eqn:Hx; [..|done];
    rewrite (Hfg x _ (list_elem_of_here x l) Hx); [|done].
  destruct (collect f l) as [rl|] eqn:Hl; [|done].
  rewrite (IH rl); [done| |done].
  intros z rz Hz. apply Hfg. by right.
Qed.

Lemma collect_Forall2 f l ys :
  collect f l = Some (Normal ys) ↔
  Forall2 (λ x y, f x = Some (Normal y)) l ys.
Proof.
  revert ys. induction l as [|x l IH]; intros ys; simpl.
  - split; [intros [= <-]; constructor|by inversion 1].
  - split.
    + destruct (f x) as [[y|e]|] eqn:Hx; [|done..].
      destruct (collect f l) as [[zs|e]|]; [|done..].
      intros [= <-]. constructor; [done|]. by apply IH.
    + inversion 1 as [|? y ? zs Hx Hzs]; subst. rewrite Hx.
      apply IH in Hzs. by rewrite Hzs.
Qed.

Lemma collect_normal f l :
  Forall (λ x, ∃ y, f x = Some (Normal y)) l →
  ∃ ys, collect f l = Some (Normal ys).
Proof.
  induction 1 as [|x l [y Hx] _ [ys IH]]; simpl; [by eexists|].
  rewrite Hx, IH. by eexists.
Qed.

End collect.

(** ** Rendering *)

Section rendering.
Context (reg : registry).
Implicit Types (fuel : nat) (n v : node) (r : completion exn node).

Lemma render_tree_host fuel tag ps cs :
  render_tree (S fuel) reg (Element (Host tag) ps cs) =
  match collect (render_tree fuel reg) cs with
  | Some (Normal vs) => Some (Normal (Element (Host tag) ps vs))
  | Some (Throw e) => Some (Throw e)
  | None => None
  end.
Proof. done. Qed.

Lemma render_tree_component fuel name ps cs :
  render_tree (S fuel) reg (Element (Component name) ps cs) =
  match reg !! name with
  | Some C =>
      match C ps with
      | Normal v => render_tree fuel reg v
      | Throw e => Some (Throw e)
      end
  | None => Some (Throw (ReferenceError name))
  end.
Proof. done. Qed.

(** More fuel does not change a result. *)
Lemma render_tree_more_fuel fuel fuel' n r :
  render_tree fuel reg n = Some r → fuel ≤ fuel' → render_tree fuel' reg n = Some r.
Proof.
  revert fuel' n r. induction fuel as [|fuel IH]; intros fuel' n r; [done|].
  intros Hr Hle. destruct fuel' as [|fuel']; [lia|].
  destruct n as [s|[tag|name] ps cs]; [done|..].
  - rewrite render_tree_host in *.
    destruct (collect (render_tree fuel reg) cs) as [rl|] eqn:Hcs; [|done].
    rewrite (collect_mono (render_tree fuel reg) (render_tree fuel' reg) cs rl);
      [done| |done].
    intros x rx _ Hx. apply (IH _ _ _ Hx). lia.
  - rewrite render_tree_component in *. destruct (reg !! name) as [C|]; [|done].
    destruct (C ps) as [v|e]; [|done]. apply (IH _ _ _ Hr). lia.
Qed.

(** What rendering returns has no component left. *)
Lemma render_tree_host_only fuel n v :
  render_tree fuel reg n = Some (Normal v) → host_only v = true.
Proof.
  revert n v. induction fuel as [|fuel IH]; intros n v; [done|].
  destruct n as [s|[tag|name] ps cs].
  - by intros [= <-].
  - rewrite render_tree_host.
    destruct (collect (render_tree fuel reg) cs) as [[vs|e]|] eqn:Hcs; [|done..].
    intros [= <-]. simpl. apply forallb_Forall.
    apply collect_Forall2 in Hcs.
    induction Hcs as [|x y l k Hxy _ IHl]; constructor; eauto.
  - rewrite render_tree_component. destruct (reg !! name) as [C|]; [|done].
    destruct (C ps) as [v'|e]; [apply IH|done].
Qed.

Section ranked.
Context (rk : string → nat) (D : nat) (Hreg : ranked rk D reg).

(** With the fuel that is enough, rendering gives a result. *)
Lemma render_tree_enough fuel n :
  enough rk D n ≤ fuel → is_Some (render_tree fuel reg n).
Proof.
  unfold enough. revert n. induction fuel as [|fuel IH]; intros n Hn.
  { destruct n as [|[]]; simpl in Hn; lia. }
  destruct n as [s|[tag|name] ps cs]; [done|..].
  - rewrite render_tree_host.
    destruct (collect_is_Some (render_tree fuel reg) cs) as [[vs|e] ->]; [|done..].
    apply Forall_forall. intros c Hc. apply IH. simpl in Hn.
    pose proof (max_list_with_le depth cs c Hc).
    pose proof (max_list_with_le (level rk) cs c Hc). nia.
  - rewrite render_tree_component. destruct (reg !! name) as [C|] eqn:HC; [|done].
    destruct (C ps) as [v|e] eqn:Hv; [|done]. apply IH. simpl in Hn.
    pose proof (ranked_depth rk D reg Hreg name C ps v HC Hv).
    pose proof (ranked_level rk D reg Hreg name C ps v HC Hv). nia.
Qed.

(** Trees no deeper than their sources allow, one by one, are so
    together. *)
Lemma depth_children (R : node → node → Prop) cs vs :
  (∀ c v, R c v → depth v ≤ enough rk D c) → Forall2 R cs vs →
  max_list_with depth vs ≤
    max_list_with depth cs + D * max_list_with (level rk) cs.
Proof.
  unfold enough. intros HR. induction 1 as [|c v cs vs Hcv _ IH]; simpl; [lia|].
  pose proof (HR c v Hcv).
  pose proof (Nat.mul_le_mono_l (level rk c)
    (level rk c `max` max_list_with (level rk) cs) D).
  pose proof (Nat.mul_le_mono_l (max_list_with (level rk) cs)
    (level rk c `max` max_list_with (level rk) cs) D).
  lia.
Qed.

(** The tree that rendering returns is no deeper than the fuel that is
    enough. *)
Lemma render_tree_depth fuel n v :
  render_tree fuel reg n = Some (Normal v) → depth v ≤ enough rk D n.
Proof.
  revert n v. induction fuel as [|fuel IH]; intros n v; [done|].
  destruct n as [s|[tag|name] ps cs]; unfold enough.
  - intros [= <-]. simpl. lia.
  - rewrite render_tree_host.
    destruct (collect (render_tree fuel reg) cs) as [[vs|e]|] eqn:Hcs; [|done..].
    intros [= <-]. simpl. apply collect_Forall2 in Hcs.
    pose proof (depth_children _ cs vs IH Hcs). lia.
  - rewrite render_tree_component. destruct (reg !! name) as [C|] eqn:HC; [|done].
    destruct (C ps) as [v'|e] eqn:Hv; [|done]. intros Hr%IH. simpl.
    unfold enough in Hr.
    pose proof (ranked_depth rk D reg Hreg name C ps v' HC Hv).
    pose proof (ranked_level rk D reg Hreg name C ps v' HC Hv). nia.
Qed.

End ranked.
End rendering.

(** ** The components of the storefront *)

Section storefront.
Implicit Types (nonce : option string) (fuel : nat) (n v : node).
Implicit Types (c : PrivacyConsentBannerProps).
Implicit Types ps : list (string * prop_value).

(** On the server a render of the banner returns its element: [window] is
    named in the effect only, and no effect runs there. *)
Lemma server_view_banner (props : object PrivacyConsentBannerProps) :
  server_view ShopifyCookieBanner props = Normal consent_script.
Proof. unfold server_view. by rewrite render_mount. Qed.

Lemma server_view_homepage : server_view Homepage () = Normal homepage_view.
Proof. done. Qed.

(** The attributes written from a configuration are read back as it. *)
Lemma config_of_props c : config_of (config_props c) = Some c.
Proof. by destruct c. Qed.

Lemma banner_entry_typed ps :
  is_Some (config_of ps) → banner_entry ps = Normal consent_script.
Proof.
  intros [c Hc]. unfold banner_entry. rewrite Hc. apply server_view_banner.
Qed.

Lemma banner_entry_normal ps v :
  banner_entry ps = Normal v → v = consent_script.
Proof.
  unfold banner_entry. destruct (config_of ps); [|done].
  rewrite server_view_banner. by intros [= <-].
Qed.

(** The names of the storefront and what they stand for. *)
Lemma storefront_lookup nonce name C :
  storefront nonce !! name = Some C →
  (name = "Script" ∧ C = λ ps, Normal (hydrogen_Script nonce ps)) ∨
  (name = "ShopifyCookieBanner" ∧ C = banner_entry) ∨
  (name = "Homepage" ∧ C = λ _, server_view Homepage ()).
Proof.
  unfold storefront.
  intros [[<- <-]|[_ [[<- <-]|[_ [<- <-]%lookup_singleton_Some]]%lookup_insert_Some]]%lookup_insert_Some;
    auto.
Qed.

Lemma storefront_ranked nonce :
  ranked storefront_rank storefront_depth (storefront nonce).
Proof.
  split; intros name C ps v [[-> ->]|[[-> ->]|[-> ->]]]%storefront_lookup.
  - intros [= <-]. vm_compute. lia.
  - intros ->%banner_entry_normal. vm_compute. lia.
  - intros [= <-]. done.
  - by intros [= <-].
  - by intros ->%banner_entry_normal.
  - by intros [= <-].
Qed.

(** The names of the storefront are bindings of the modules of the
    repository: what the module of the banner imports from Hydrogen, and
    what the two modules export. *)
Lemma storefront_scoped nonce :
  dom (storefront nonce) =
  list_to_set
    (imported_from "@shopify/hydrogen" banner_imports ++
     (export_name <$> banner_exports ++ homepage_exports)).
Proof.
  unfold storefront. rewrite !dom_insert_L, dom_singleton_L.
  change (imported_from _ _ ++ _)
    with ["Script"; "ShopifyCookieBanner"; "Homepage"].
  set_solver.
Qed.

(** No tree is of a higher level than the banner. *)
Lemma storefront_level n : level storefront_rank n ≤ 2.
Proof.
  induction n as [s|[tag|name] ps cs IH] using node_ind'; simpl; [lia|..].
  - by apply max_list_with_bound.
  - unfold storefront_rank. case_bool_decide; lia.
Qed.

(** A well-typed component element names a component that returns a
    well-typed tree for it. *)
Lemma storefront_preserves nonce name ps cs :
  checks (Element (Component name) ps cs) = true →
  ∃ C v, storefront nonce !! name = Some C ∧ C ps = Normal v ∧
         checks v = true.
Proof.
  simpl. rewrite !orb_true_iff, andb_true_iff, !bool_decide_eq_true.
  intros [[->| ->]|[-> Hps]]; eexists _, _; (split; [done|]).
  - done.
  - done.
  - by rewrite banner_entry_typed.
Qed.

(** Well-typed trees do not go wrong: with the fuel that is enough,
    rendering returns a tree. *)
Lemma checked_renders nonce fuel n :
  checks n = true → enough storefront_rank storefront_depth n ≤ fuel →
  ∃ v, render_tree fuel (storefront nonce) n = Some (Normal v).
Proof.
  unfold enough. revert n. induction fuel as [|fuel IH]; intros n Hn Hf.
  { destruct n as [|[]]; simpl in Hf; lia. }
  destruct n as [s|[tag|name] ps cs]; [by eexists|..].
  - rewrite render_tree_host.
    destruct (collect_normal (render_tree fuel (storefront nonce)) cs)
      as [vs ->]; [|by eexists].
    apply Forall_forall. intros c Hc. simpl in Hn. cbn [depth level] in Hf.
    rewrite forallb_Forall, Forall_forall in Hn. apply IH; [by apply Hn|].
    pose proof (max_list_with_le depth cs c Hc).
    pose proof (max_list_with_le (level storefront_rank) cs c Hc). nia.
  - destruct (storefront_preserves nonce name ps cs Hn) as (C & v & HC & Hv & Hc).
    rewrite render_tree_component, HC, Hv. apply IH; [done|].
    cbn [depth level] in Hf.
    pose proof (ranked_depth _ _ _ (storefront_ranked nonce) name C ps v HC Hv).
    pose proof (ranked_level _ _ _ (storefront_ranked nonce) name C ps v HC Hv).
    nia.
Qed.

(** A component that renders itself is never done: no fuel is enough. *)
Lemma looping_diverges fuel :
  render_tree fuel looping (Element (Component "Loop") [] []) = None.
Proof. induction fuel as [|fuel IH]; [done|]. by rewrite render_tree_component. Qed.

(** The page of the storefront on the server. *)
Lemma storefront_page_renders nonce c :
  render_tree 6 (storefront nonce) (storefront_page c) =
  Some (Normal (served_page nonce)).
Proof. destruct c, nonce; by vm_compute.
Qed.

(** C11: rendering ends for every tree over the components of the
    storefront, whatever the tree holds: with the fuel [enough] counts
    from its depth and its components there is a result, and no further
    fuel changes it. *)
Theorem storefront_terminates nonce n fuel :
  enough storefront_rank storefront_depth n ≤ fuel →
  ∃ r, render_tree fuel (storefront nonce) n = Some r ∧
       render_tree (enough storefront_rank storefront_depth n) (storefront nonce) n
         = Some r.
Proof.
  intros Hf.
  destruct (render_tree_enough _ _ _ (storefront_ranked nonce) _ n (le_n _))
    as [r Hr].
  exists r. split; [by apply (render_tree_more_fuel _ _ _ _ _ Hr)|done].
Qed.

(** C19: a well-typed tree renders on the server: every component element
    names a component of the storefront, the elements of the banner carry
    the four strings of [PrivacyConsentBannerProps], and then rendering
    returns a tree of host elements and raises nothing, though [window] is
    not declared there. *)
Theorem checked_tree_renders nonce n fuel :
  checks n = true → enough storefront_rank storefront_depth n ≤ fuel →
  ∃ v, render_tree fuel (storefront nonce) n = Some (Normal v) ∧
       host_only v = true.
Proof.
  intros Hn Hf. destruct (checked_renders nonce fuel n Hn Hf) as [v Hv].
  exists v. split; [done|]. by apply (render_tree_host_only _ _ _ _ Hv).
Qed.

(** The page of the storefront, the route and the banner side by
    side, reaches the browser as the tree of the route followed by one
    script element with the attributes of the banner's element and the
    nonce of the page; that script is the one request of the served
    document. *)
Lemma storefront_page_served nonce c fuel :
  6 ≤ fuel →
  render_tree fuel (storefront nonce) (storefront_page c) =
    Some (Normal (served_page nonce)) ∧
  script_sources (served_page nonce) = requests (served_doc nonce).
Proof.
  intros Hf. split; [|by destruct nonce].
  by apply (render_tree_more_fuel _ _ _ _ _ (storefront_page_renders nonce c)).
Qed.

(** The tree the browser receives is at most twice the depth of the
    route deeper than the tree that was written, whatever that tree is. *)
Lemma served_depth_bounded nonce n fuel v :
  render_tree fuel (storefront nonce) n = Some (Normal v) →
  depth v ≤ depth n + 2 * storefront_depth ∧ storefront_depth = 4.
Proof.
  intros Hv. split; [|done].
  pose proof (render_tree_depth _ _ _ (storefront_ranked nonce) _ _ _ Hv) as Hd.
  pose proof (storefront_level n). unfold enough in Hd. nia.
Qed.

(** The route does not mount the banner: rendered on its own it is
    the view of the route, a tree of host elements that names no component
    and asks for no script. *)
Lemma route_without_banner nonce fuel :
  5 ≤ fuel →
  render_tree fuel (storefront nonce) (Element (Component "Homepage") [] []) =
    Some (Normal homepage_view) ∧
  host_only homepage_view = true ∧ script_sources homepage_view = [].
Proof.
  intros Hf. split; [|done].
  by apply (render_tree_more_fuel (storefront nonce) 5 fuel).
Qed.

End storefront.

(** ** The theorems at concrete trees *)

Lemma storefront_terminates_witness :
  ∃ r,
    render_tree 20 (storefront None) (storefront_page example_config) = Some r ∧
    render_tree (enough storefront_rank storefront_depth
               (storefront_page example_config))
      (storefront None) (storefront_page example_config) = Some r.
Proof.
  apply (storefront_terminates None (storefront_page example_config) 20).
  vm_compute. lia.
Defined.

Lemma checked_tree_renders_witness :
  ∃ v,
    render_tree 10 (storefront None) (storefront_page example_config) =
      Some (Normal v) ∧
    host_only v = true.
Proof.
  apply (checked_tree_renders None (storefront_page example_config) 10);
    [done|vm_compute; lia].
Defined.

