(* ===== verification/Markup.v ===== *)
(** * Markup: the text of a tree of host elements

    What the server sends for a tree: tags, attributes and texts, as
    React's server renderer writes them.  Texts and attribute values are
    escaped; a [style] object becomes one attribute with hyphenated
    property names; booleans are attributes without a value or no
    attribute; two texts that follow one another are kept apart by an
    empty comment, so that the browser builds two text nodes of them.

    None of this is code of the repository; the trees printed are those of
    [Homepage] and [Banner]. *)

From Stdlib Require Import Ascii.
From S2P Require Import Prelude Js Browser React Banner Document Address.
From S2P Require Import Homepage Tree.

(** ** Escaping *)

(** The double quote, as a character and as a string. *)
Definition dquote : ascii := "034"%char.

Definition quoted (s : string) : string :=
  String dquote (String.append s (String dquote EmptyString)).

(** The five characters that cannot stand for themselves in markup, and
    what is written for them. *)
Definition entity (c : ascii) : option string :=
  if Ascii.eqb "&" c then Some "amp"
  else if Ascii.eqb "<" c then Some "lt"
  else if Ascii.eqb ">" c then Some "gt"
  else if Ascii.eqb dquote c then Some "quot"
  else if Ascii.eqb "'" c then Some "#x27"
  else None.

Definition escape_char (c : ascii) : string :=
  match entity c with
  | Some name => String "&" (String.append name ";")
  | None => String c EmptyString
  end.

(** [escapeTextForBrowser]. *)
Fixpoint escape (s : string) : string :=
  match s with
  | EmptyString => EmptyString
  | String c s => String.append (escape_char c) (escape s)
  end.

(** [s] without the prefix [p], when it starts with [p]. *)
Fixpoint strip (p s : string) : option string :=
  match p, s with
  | EmptyString, _ => Some s
  | String a p, String b s => if Ascii.eqb a b then strip p s else None
  | String _ _, EmptyString => None
  end.

(** The character an entity at the start of [s] stands for, and what
    follows the entity. *)
Definition decode_entity (s : string) : option (ascii * string) :=
  match strip "&amp;" s, strip "&lt;" s, strip "&gt;" s, strip "&quot;" s,
        strip "&#x27;" s with
  | Some r, _, _, _, _ => Some ("&"%char, r)
  | _, Some r, _, _, _ => Some ("<"%char, r)
  | _, _, Some r, _, _ => Some (">"%char, r)
  | _, _, _, Some r, _ => Some (dquote, r)
  | _, _, _, _, Some r => Some ("'"%char, r)
  | _, _, _, _, _ => None
  end.

(** What a browser reads back from escaped text, with [fuel] characters
    and entities at most: [None] when the fuel runs out. *)
Fixpoint unescape_f (fuel : nat) (s : string) : option string :=
  match fuel with
  | 0 => None
  | S fuel =>
      match s with
      | EmptyString => Some EmptyString
      | String c rest =>
          match decode_entity s with
          | Some (d, r) => String d <$> unescape_f fuel r
          | None => String c <$> unescape_f fuel rest
          end
      end
  end.

(** An entity is longer than nothing, so the length of the text is fuel
    enough. *)
Definition unescape (s : string) : option string :=
  unescape_f (S (String.length s)) s.

(** ** Styles *)

Definition is_upper (c : ascii) : bool :=
  (65 <=? nat_of_ascii c) && (nat_of_ascii c <=? 90).

Definition to_lower (c : ascii) : ascii :=
  if is_upper c then ascii_of_nat (nat_of_ascii c + 32) else c.

(** [hyphenateStyleName]: [textDecoration] is written [text-decoration]. *)
Fixpoint css_name (s : string) : string :=
  match s with
  | EmptyString => EmptyString
  | String c s =>
      if is_upper c then String "-" (String (to_lower c) (css_name s))
      else String c (css_name s)
  end.

Definition css_declaration (kv : string * string) : string :=
  String.append (css_name kv.1) (String ":" kv.2).

(** The value of the [style] attribute. *)
Definition css_text (css : list (string * string)) : string :=
  join ";" (css_declaration <$> css).

(** ** Elements *)

(** The attribute written for a prop: as [html_attr] has it, and the
    [style] object as its text. *)
Definition markup_attr (kv : string * prop_value) : option (string * string) :=
  match kv.2 with
  | PStyle css => Some (kv.1, css_text css)
  | _ => html_attr kv
  end.

Definition print_attr (a : string * string) : string :=
  String " " (String.append a.1 (String "=" (quoted (escape a.2)))).

Definition print_attrs (ps : list (string * prop_value)) : string :=
  foldr (λ a acc, String.append (print_attr a) acc) EmptyString
    (omap markup_attr ps).

Definition tag_of (ty : elem_type) : string :=
  match ty with Host tag => tag | Component name => name end.

(** What keeps two texts apart. *)
Definition text_separator : string := "<!-- -->".

(** The children in order, with a separator between a text and the text
    that follows it. *)
Definition print_children (print : node → string) : list node → string :=
  fix go (cs : list node) : string :=
    match cs with
    | [] => EmptyString
    | c :: cs =>
        String.append (print c)
          (String.append
             match c, cs with
             | Text _, Text _ :: _ => text_separator
             | _, _ => EmptyString
             end
             (go cs))
    end.

(** [renderToString] on a tree of host elements. *)
Fixpoint to_html (n : node) : string :=
  match n with
  | Text s => escape s
  | Element ty ps cs =>
      String.append (String "<" (tag_of ty))
        (String.append (print_attrs ps)
           (String ">"
              (String.append (print_children to_html cs)
                 (String.append "</" (String.append (tag_of ty) ">")))))
  end.

(** ** What the server sends *)

(** The markup of the banner's script element, without a nonce. *)
Definition script_markup : string :=
  String.append "<script id="
    (String.append (quoted consent_script_id)
       (String.append " src="
          (String.append (quoted consent_script_src) "></script>"))).

(** The markup of the route. *)
Definition homepage_markup : string :=
  String.append "<div style="
    (String.append (quoted "padding:20px")
       (String.append
          "><h1>Shopify Cookie Consent Banner</h1><p>To force the consent banner, append<!-- --> <code>?preview_privacy_banner=1</code> to the url or click<!-- --> <a style="
          (String.append (quoted "text-decoration:underline")
             (String.append " href="
                (String.append (quoted "/?preview_privacy_banner=1")
                   ">here</a></p></div>"))))).

(** ** Tactics *)

(** The five characters with an entity, one by one, and the others. *)
Ltac entity_cases c :=
  unfold entity;
  destruct (Ascii.eqb_spec "&" c) as [<-|?];
  [|destruct (Ascii.eqb_spec "<" c) as [<-|?];
    [|destruct (Ascii.eqb_spec ">" c) as [<-|?];
      [|destruct (Ascii.eqb_spec dquote c) as [<-|?];
        [|destruct (Ascii.eqb_spec "'" c) as [<-|?]]]]].

(** ** Escaping and reading back *)

Section escape.
Implicit Types (s r p : string) (c d : ascii).

Lemma strip_length p s r :
  strip p s = Some r → String.length s = String.length p + String.length r.
Proof.
  revert s. induction p as [|a p IH]; intros [|b s]; simpl; try done.
  - by intros [= <-].
  - by intros [= <-].
  - destruct (Ascii.eqb a b); [|done]. intros ?%IH. lia.
Qed.

Lemma strip_cons a p b s :
  strip (String a p) (String b s) = if Ascii.eqb a b then strip p s else None.
Proof. done. Qed.

Lemma strip_shorter a p s r :
  strip (String a p) s = Some r → String.length r < String.length s.
Proof. intros ?%strip_length. simpl in *. lia. Qed.

(** Decoding an entity consumes something: the recursion of [unescape_f]
    is on a shorter text. *)
Lemma decode_entity_shorter s d r :
  decode_entity s = Some (d, r) → String.length r < String.length s.
Proof.
  unfold decode_entity. repeat case_match; try done;
    intros [= <- <-]; by eapply strip_shorter.
Qed.

(** Reading back ends: with fuel beyond the length of the text there is a
    result. *)
Lemma unescape_f_total fuel s :
  String.length s < fuel → is_Some (unescape_f fuel s).
Proof.
  revert s. induction fuel as [|fuel IH]; intros s Hs; [lia|].
  destruct s as [|c rest]; [done|]. simpl in Hs. cbn [unescape_f].
  destruct (decode_entity (String c rest)) as [[d r]|] eqn:Hd.
  - apply decode_entity_shorter in Hd. simpl in Hd.
    destruct (IH r) as [x ->]; [lia|done].
  - destruct (IH rest) as [x ->]; [lia|done].
Qed.

Lemma unescape_total s : is_Some (unescape s).
Proof. apply unescape_f_total. lia. Qed.

(** What is written for a character is read back as the character. *)
Lemma decode_escape_char c name r :
  entity c = Some name →
  decode_entity (String.append (escape_char c) r) = Some (c, r).
Proof.
  unfold escape_char. entity_cases c; by intros [= <-].
Qed.

(** A character that is written as itself does not start an entity. *)
Lemma decode_plain c r : entity c = None → decode_entity (String c r) = None.
Proof.
  intros He. assert (Ascii.eqb "&" c = false) as Hc.
  { revert He. by entity_cases c. }
  unfold decode_entity. by rewrite !strip_cons, Hc.
Qed.

Lemma escape_cons c s :
  escape (String c s) = String.append (escape_char c) (escape s).
Proof. done. Qed.

Lemma escape_char_cons c : ∃ a t, escape_char c = String a t.
Proof. unfold escape_char. destruct (entity c); by eexists _, _. Qed.

Lemma unescape_f_escape fuel s :
  String.length s < fuel → unescape_f fuel (escape s) = Some s.
Proof.
  revert fuel. induction s as [|c s IH]; intros [|fuel] Hs; simpl in Hs;
    try done; try lia.
  rewrite escape_cons. destruct (escape_char_cons c) as (a & t & Hc).
  pose proof (decode_escape_char c) as Hspecial.
  pose proof (decode_plain c (escape s)) as Hplain.
  unfold escape_char in *. destruct (entity c) as [name|].
  - specialize (Hspecial name (escape s) eq_refl).
    rewrite Hc, append_cons in *. cbn [unescape_f]. rewrite Hspecial.
    by rewrite IH by lia.
  - change (unescape_f (S fuel) (String c (escape s)) = Some (String c s)).
    cbn [unescape_f]. rewrite Hplain by done. by rewrite IH by lia.
Qed.

(** None of the characters that open or close a tag or an attribute value
    is left in escaped text. *)
Lemma escape_char_inert c :
  occurs "<" (escape_char c) = false ∧ occurs ">" (escape_char c) = false ∧
  occurs dquote (escape_char c) = false.
Proof.
  unfold escape_char. entity_cases c; try done.
  simpl. rewrite !orb_false_r. split_and!; by apply Ascii.eqb_neq.
Qed.

Lemma length_app s r :
  String.length (String.append s r) = String.length s + String.length r.
Proof.
  induction s as [|a s IH]; [done|]. rewrite append_cons. simpl. by rewrite IH.
Qed.

Lemma length_escape s : String.length s ≤ String.length (escape s).
Proof.
  induction s as [|c s IH]; [done|]. rewrite escape_cons, length_app.
  destruct (escape_char_cons c) as (a & t & ->). simpl. lia.
Qed.

(** A text that was escaped is read back as it was. *)
Lemma unescape_escape s : unescape (escape s) = Some s.
Proof. apply unescape_f_escape. pose proof (length_escape s). lia. Qed.

Lemma escape_inert s :
  occurs "<" (escape s) = false ∧ occurs ">" (escape s) = false ∧
  occurs dquote (escape s) = false.
Proof.
  induction s as [|c s (IH1 & IH2 & IH3)]; [done|].
  destruct (escape_char_inert c) as (H1 & H2 & H3).
  by rewrite escape_cons, !occurs_app, IH1, IH2, IH3, H1, H2, H3.
Qed.

End escape.

(** ** The markup of the storefront *)

Section markup.
Implicit Types (s n : string).

(** What the server sends for the route and for the banner, character
    by character: the style objects as [style] attributes with hyphenated
    names, an empty comment after each text that another text follows, and
    a script element with [id] and [src] and no [async]. *)
Lemma served_markup :
  to_html homepage_view = homepage_markup ∧
  to_html (hydrogen_Script None consent_script_props) = script_markup ∧
  occurs "<" (String.append heading_text link_text) = false.
Proof. by vm_compute. Qed.

(** Whatever the nonce of the page is, it stays inside its attribute:
    the script element is written with the nonce escaped, no character of
    which closes the attribute or the tag, and the browser reads the nonce
    back as it was. *)
Lemma nonce_stays_attribute n :
  to_html (hydrogen_Script (Some n) consent_script_props) =
    String.append "<script id="
      (String.append (quoted consent_script_id)
         (String.append " src="
            (String.append (quoted consent_script_src)
               (String.append " nonce="
                  (String.append (quoted (escape n)) "></script>"))))) ∧
  occurs dquote (escape n) = false ∧ occurs ">" (escape n) = false ∧
  unescape (escape n) = Some n.
Proof.
  split; [|by destruct (escape_inert n) as (_ & ? & ?), (unescape_escape n)].
  cbn. by rewrite !append_nil_r.
Qed.

End markup.
